(** * Alpha Vantage cache service: key rotation, price pulls and the two query tools

    A shallow embedding of [src/business.ts] (getKey, waitAfterApiCall,
    pullStock), of the parts of [src/mongo.ts] they rely on (findDocuments,
    upsertDocument) and of [src/mcp.ts] (formatStockDate, formatNewsTime,
    processGetStockPrices, processGetNews).

    Further on come [pullNews] of [src/business.ts], with the store of its
    untyped documents left open; connect and disconnect of [src/mongo.ts];
    parseDateRange of [src/run-stocks.ts]; processPullStock and
    processPullNews of the server of the pull tools; and
    processGetStockPrices of the server of the read tools that never pulls.

    Conventions of the model
    - A JavaScript string is a [string]; its characters are code units below
      256.
    - [async]/[await] code runs to completion, one request at a time: every
      operation is a function of the process state ([World]) that returns a
      value or throws, together with the new state.
    - What lies outside the repository is gathered in [Env]: the content of
      the [.keylist] file, the remote API, the store's regular expression
      engine, the error with which the store refuses a [$regex] that is not
      a regular expression, and the text of the runtime's TypeError.
    - The servers and the scripts connect before they call the store: in
      [Mongo] the functions of mongo.ts are taken after their guard on
      [globalClient], which [Connection] puts back in front of them.  The
      store then acknowledges every write and refuses a query only for its
      [$regex]; the [_id] field that MongoDB adds to stored documents is
      left out.
    - A JavaScript number is a double ([Num]): a finite one is kept as
      the fraction that is its exact value, and the conversion of a decimal
      to a number ([Double.ofDecimal]) rounds to the nearest double, to the
      even one of two that are as near, with overflow to the infinities and
      with the two zeros. *)

From Stdlib Require Import String Ascii List ZArith Lia Bool Permutation Sorted.
From Stdlib Require QArith Qabs Qpower.
From stdpp Require Import base gmap list strings pretty.

Abbreviation Q := QArith_base.Q.
Abbreviation Qmake := QArith_base.Qmake.
Abbreviation Qred := Qreduction.Qred.

(** ** JavaScript strings *)

Module Js.

(** White space and line terminators, as [String.prototype.trim] and
    [parseFloat]/[parseInt] strip them: TAB, LF, VT, FF, CR, SP, NBSP. *)
Definition isWhiteSpace (c : ascii) : bool :=
  existsb (Ascii.eqb c) ["009"; "010"; "011"; "012"; "013"; " "; "160"]%char.

(** [\d] of a JavaScript regular expression: the ten ASCII digits. *)
Definition isDigit (c : ascii) : bool :=
  (48 <=? nat_of_ascii c) && (nat_of_ascii c <=? 57).

Fixpoint trimStart (s : string) : string :=
  match s with
  | String c s' => if isWhiteSpace c then trimStart s' else s
  | EmptyString => EmptyString
  end.

Definition trimEnd (s : string) : string :=
  String.rev (trimStart (String.rev s)).

Definition trim (s : string) : string := trimEnd (trimStart s).

(** [s.split(sep)] for a one-character separator. *)
Fixpoint split (sep : ascii) (s : string) : list string :=
  match s with
  | EmptyString => [EmptyString]
  | String c s' =>
      if Ascii.eqb c sep then EmptyString :: split sep s'
      else match split sep s' with
           | h :: t => String c h :: t
           | [] => [String c EmptyString]
           end
  end.

(** [hay.includes(needle)] *)
Fixpoint includes (needle hay : string) : bool :=
  String.prefix needle hay
  || match hay with
     | String _ hay' => includes needle hay'
     | EmptyString => false
     end.

Definition allDigits (s : string) : bool :=
  forallb isDigit (list_ascii_of_string s).

(** [/^\d{8}$/.test(s)]: without the [m] flag [$] is the end of input. *)
Definition isEightDigits (s : string) : bool :=
  (String.length s =? 8) && allDigits s.

(** [s.slice(i, j)] for [0 <= i <= j]. *)
Definition slice (i j : nat) (s : string) : string := substring i (j - i) s.

(** Truthiness of a string: every string but the empty one. *)
Definition truthyString (s : string) : bool := negb (String.eqb s EmptyString).

Fixpoint join (sep : string) (l : list string) : string :=
  match l with
  | [] => EmptyString
  | [x] => x
  | x :: t => x +:+ sep +:+ join sep t
  end.

End Js.

(** ** JavaScript numbers, [parseFloat] and [parseInt] *)

(** [Fin q] is the double whose value is [q], [0] for the positive zero;
    [NegZero] is [-0]. *)
Inductive Num :=
| NaN
| Infinity (negative : bool)
| NegZero
| Fin (q : Q).

(** ** Doubles: the conversion of a decimal to a number

    Round to nearest, ties to even, with a significand of 53 bits and the
    least exponent of binary64: a double is [m * 2^e] with [|m| < 2^53] and
    [-1074 <= e <= 971]. *)

Module Double.

(** [2^k] is [up k / down k]. *)
Definition up (k : Z) : Z := (2 ^ Z.max k 0)%Z.
Definition down (k : Z) : Z := (2 ^ Z.max (- k) 0)%Z.

(** [2^k <= n / d], for [d] positive. *)
Definition reaches (k n d : Z) : bool := (up k * d <=? n * down k)%Z.

(** [n / d] rounded to the nearest integer, to the even one of two that are
    as near; [d] is positive. *)
Definition divNearestEven (n d : Z) : Z :=
  let '(quotient, remainder) := Z.div_eucl n d in
  match (2 * remainder ?= d)%Z with
  | Lt => quotient
  | Gt => (quotient + 1)%Z
  | Eq => if Z.even quotient then quotient else (quotient + 1)%Z
  end.

(** [m * 2^e] in lowest terms. *)
Definition ldexp (m e : Z) : Q :=
  Qred (Qmake (m * up e) (Z.to_pos (down e))).

(** The exponent [b] with [2^b <= n / d < 2^(b + 1)], for [n] and [d]
    positive. *)
Definition binade (n d : Z) : Z :=
  let b := (Z.log2 n - Z.log2 d)%Z in
  if reaches b n d then b else (b - 1)%Z.

(** The double nearest to [n / d], for [n] and [d] positive: the quantum is
    [2^e] where [e] is 52 below the binade and at least [-1074]. *)
Definition nearest (n d : Z) : Num :=
  let e := Z.max (binade n d - 52) (-1074) in
  let m := divNearestEven (n * down e) (d * up e) in
  if reaches 1024 (m * up e) (down e) then Infinity false
  else Fin (ldexp m e).

(** The number that a decimal denotes, from its sign and its magnitude
    [q >= 0]. *)
Definition ofDecimal (negative : bool) (q : Q) : Num :=
  if (QArith_base.Qnum q <=? 0)%Z then (if negative then NegZero else Fin (Qmake 0 1))
  else
    match nearest (QArith_base.Qnum q) (Zpos (QArith_base.Qden q)) with
    | Fin (QArith_base.Qmake Z0 _) => if negative then NegZero else Fin (Qmake 0 1)
    | Fin d => Fin (if negative then QArith_base.Qopp d else d)
    | _ => Infinity negative
    end.

End Double.

Module Parse.

Definition digitValue (c : ascii) : Z := Z.of_nat (nat_of_ascii c) - 48.

(** The longest prefix of decimal digits, and what follows it. *)
Fixpoint takeDigits (s : string) : list Z * string :=
  match s with
  | String c s' =>
      if Js.isDigit c
      then let '(ds, rest) := takeDigits s' in (digitValue c :: ds, rest)
      else ([], s)
  | EmptyString => ([], EmptyString)
  end.

Definition digitsValue (ds : list Z) : Z :=
  fold_left (fun acc d => 10 * acc + d)%Z ds 0%Z.

(** An optional sign: whether it is a minus, and the rest. *)
Definition takeSign (s : string) : bool * string :=
  match s with
  | String "-" r => (true, r)
  | String "+" r => (false, r)
  | _ => (false, s)
  end.

Definition applySign (negative : bool) (z : Z) : Z :=
  if negative then (- z)%Z else z.

(** The exponent part [e], [E] followed by an optional sign and at least
    one digit; anything else is not part of the number. *)
Definition exponent (s : string) : Z :=
  match s with
  | String c r =>
      if Ascii.eqb c "e" || Ascii.eqb c "E" then
        let '(negative, r') := takeSign r in
        match takeDigits r' with
        | ([], _) => 0%Z
        | (ds, _) => applySign negative (digitsValue ds)
        end
      else 0%Z
  | EmptyString => 0%Z
  end.

(** [m * 10^e] in lowest terms. *)
Definition scale (m e : Z) : Q :=
  Qred (if (0 <=? e)%Z then Qmake (m * 10 ^ e) 1
        else Qmake m (Z.to_pos (10 ^ (- e)))).

(** [parseFloat(s)]: leading white space is skipped, then the longest
    prefix that is a decimal literal is read and converted to a number;
    [NaN] when there is none. *)
Definition parseFloat (input : string) : Num :=
  let '(negative, s) := takeSign (Js.trimStart input) in
  if String.prefix "Infinity" s then Infinity negative else
  let '(ip, s1) := takeDigits s in
  let '(fp, s2) := match s1 with
                   | String "." r => takeDigits r
                   | _ => ([], s1)
                   end in
  match ip ++ fp with
  | [] => NaN
  | ds => Double.ofDecimal negative
            (scale (digitsValue ds) (exponent s2 - Z.of_nat (length fp)))
  end.

(** [parseInt(s, 10)] *)
Definition parseInt10 (input : string) : Num :=
  let '(negative, s) := takeSign (Js.trimStart input) in
  match takeDigits s with
  | ([], _) => NaN
  | (ds, _) => Double.ofDecimal negative (scale (digitsValue ds) 0)
  end.

End Parse.

(** ** Decoded JSON values

    The result of [response.json()].  A number carries the text that
    [String(n)] gives for it; the properties of an object are listed in the
    order [Object.entries] enumerates them. *)

#[warnings="-register-all"]
Inductive Json :=
| JNull
| JBool (b : bool)
| JNum (text : string)
| JStr (s : string)
| JArr (items : list Json)
| JObj (props : list (string * Json)).

(** A value read from a property: [None] is [undefined]. *)
Definition Value := option Json.

Module JsValue.

Definition truthyJson (j : Json) : bool :=
  match j with
  | JNull => false
  | JBool b => b
  | JNum text => negb (String.eqb text "0")
  | JStr s => Js.truthyString s
  | JArr _ | JObj _ => true
  end.

Definition truthy (v : Value) : bool :=
  match v with
  | None => false
  | Some j => truthyJson j
  end.

(** [String(j)], as template literals and [parseFloat] apply it. *)
Fixpoint toStringJson (j : Json) : string :=
  match j with
  | JNull => "null"
  | JBool true => "true"
  | JBool false => "false"
  | JNum text => text
  | JStr s => s
  | JArr items =>
      Js.join "," (map (fun x => match x with
                                 | JNull => EmptyString
                                 | _ => toStringJson x
                                 end) items)
  | JObj _ => "[object Object]"
  end.

Definition toString (v : Value) : string :=
  match v with
  | None => "undefined"
  | Some j => toStringJson j
  end.

Fixpoint lookupProp (k : string) (props : list (string * Json)) : Value :=
  match props with
  | [] => None
  | (k', v) :: rest => if String.eqb k' k then Some v else lookupProp k rest
  end.

(** [a || b] on values. *)
Definition orElse (a b : Value) : Value := if truthy a then a else b.

Definition chars (s : string) : list Json :=
  map (fun c => JStr (String c EmptyString)) (list_ascii_of_string s).

Definition indexed (items : list Json) : list (string * Json) :=
  imap (fun i x => (pretty i, x)) items.

(** [Object.entries(j)] for a value that is not [null]: the own enumerable
    properties of an object, the indexed elements of an array or a string,
    nothing for a number or a boolean. *)
Definition objectEntries (j : Json) : list (string * Json) :=
  match j with
  | JObj props => props
  | JArr items => indexed items
  | JStr s => indexed (chars s)
  | JNull | JBool _ | JNum _ => []
  end.

End JsValue.

(** ** Documents *)

(** [StockData] of business.ts *)
Record StockData := {
  symbol : string;
  date : string;
  open : Num;
  high : Num;
  low : Num;
  close : Num;
  volume : Num;
}.

Record TickerSentiment := {
  ticker : string;
  ts_relevance_score : string;
  ticker_sentiment_score : string;
  ticker_sentiment_label : string;
}.

Record Topic := {
  topic : string;
  relevance_score : string;
}.

(** [NewsItem] of business.ts *)
Record NewsItem := {
  title : string;
  url : string;
  time_published : string;
  authors : list string;
  summary : string;
  banner_image : option string;
  source : string;
  category_within_source : string;
  source_domain : string;
  topics : list Topic;
  overall_sentiment_score : Num;
  overall_sentiment_label : string;
  ticker_sentiment : list TickerSentiment;
}.

(** ** The world outside and the process state *)

Inductive FileResult :=
| FileError (msg : string)
| FileContent (content : string).

Inductive JsonResult :=
| JsonError (msg : string)
| JsonValue (data : Json).

Record Response := {
  status : nat;
  statusText : string;
  body : JsonResult;
}.

(** [response.ok]: the status is in the range 200-299. *)
Definition ok (r : Response) : bool :=
  (200 <=? status r) && (status r <=? 299).

Inductive FetchResult :=
| FetchError (msg : string)
| FetchResponse (r : Response).

Record Env := {
  (** reading [.keylist] through [Bun.file(...).text()] *)
  keylist : FileResult;
  (** [fetch(url)] *)
  remote : string -> FetchResult;
  (** the store's [$regex], for a pattern that it accepts: pattern,
      [$options], subject *)
  regex : string -> string -> string -> bool;
  (** the message of the error with which the store refuses a query whose
      [$regex] is not a regular expression, by pattern and [$options];
      [None] when it accepts the pattern *)
  regexError : string -> string -> option string;
  (** the message of the TypeError raised when a property of [null] is
      read, by the names of the variable and of the property *)
  nullReadMessage : string -> string -> string;
}.

(** The two query filters that reach a price collection: [{}] and
    [{ date: d }]. *)
Inductive StockFilter :=
| AnyDocument
| DateIs (d : string).

(** What a run does, in order; [Invoke] marks the entry of a function. *)
Inductive Event :=
| Invoke (fn arg : string)
| ReadFile (path : string)
| HttpGet (url : string)
| Sleep (ms : nat)
| Find (database collection : string)
| ReplaceOne (database collection : string) (filter : StockFilter).

Record World := {
  (** [let apiKeys: string[] = []] *)
  apiKeys : list string;
  (** [let currentKeyIndex = 0] *)
  currentKeyIndex : nat;
  (** the price collections, by database and collection name *)
  stocks : gmap (string * string) (list StockData);
  (** the collection [news] of the database [finance] *)
  news : list NewsItem;
  trace : list Event;
}.

Definition initialWorld : World :=
  {| apiKeys := []; currentKeyIndex := 0; stocks := ∅; news := []; trace := [] |}.

(** ** Computations that may throw *)

Inductive Result (A : Type) :=
| Ok (a : A)
| Throw (msg : string).
Arguments Ok {A} a.
Arguments Throw {A} msg.

Definition M (A : Type) : Type := World -> Result A * World.

Definition ret {A} (a : A) : M A := fun w => (Ok a, w).

Definition throw {A} (msg : string) : M A := fun w => (Throw msg, w).

Definition bind {A B} (m : M A) (k : A -> M B) : M B :=
  fun w => match m w with
           | (Ok a, w') => k a w'
           | (Throw msg, w') => (Throw msg, w')
           end.

(** [try { m } catch (error) { handler(message of error) }] *)
Definition tryCatch {A} (m : M A) (handler : string -> M A) : M A :=
  fun w => match m w with
           | (Ok a, w') => (Ok a, w')
           | (Throw msg, w') => handler msg w'
           end.

Definition gets {A} (f : World -> A) : M A := fun w => (Ok (f w), w).

Definition modify (f : World -> World) : M unit := fun w => (Ok tt, f w).

Notation "x <- m ;; k" := (bind m (fun x => k))
  (at level 100, m at next level, right associativity).
Notation "m ;; k" := (bind m (fun _ => k))
  (at level 100, right associativity).

Definition logged (e : Event) (w : World) : World :=
  {| apiKeys := apiKeys w; currentKeyIndex := currentKeyIndex w;
     stocks := stocks w; news := news w; trace := trace w ++ [e] |}.

Definition withApiKeys (keys : list string) (w : World) : World :=
  {| apiKeys := keys; currentKeyIndex := currentKeyIndex w;
     stocks := stocks w; news := news w; trace := trace w |}.

Definition withCurrentKeyIndex (i : nat) (w : World) : World :=
  {| apiKeys := apiKeys w; currentKeyIndex := i;
     stocks := stocks w; news := news w; trace := trace w |}.

Definition withCollection (db collection : string) (docs : list StockData)
    (w : World) : World :=
  {| apiKeys := apiKeys w; currentKeyIndex := currentKeyIndex w;
     stocks := <[(db, collection) := docs]> (stocks w);
     news := news w; trace := trace w |}.

Definition emit (e : Event) : M unit := modify (logged e).

Definition setApiKeys (keys : list string) : M unit := modify (withApiKeys keys).

Definition setCurrentKeyIndex (i : nat) : M unit := modify (withCurrentKeyIndex i).

Definition setCollection (db collection : string) (docs : list StockData) : M unit :=
  modify (withCollection db collection docs).

(** A loop over a list that threads an accumulator. *)
Fixpoint forEach {A B} (l : list A) (acc : B) (step : B -> A -> M B) : M B :=
  match l with
  | [] => ret acc
  | x :: rest => acc' <- step acc x ;; forEach rest acc' step
  end.

(** ** mongo.ts *)

Module Mongo.

(** The functions below are those of mongo.ts once a client is held: what
    follows [if (!globalClient) throw ...], on a store that answers.
    [Connection.findDocuments] and [Connection.upsertDocument] are the
    functions from their first line. *)

Definition matchesFilter (filter : StockFilter) (doc : StockData) : bool :=
  match filter with
  | AnyDocument => true
  | DateIs d => String.eqb (date doc) d
  end.

(** [1 | -1] *)
Inductive Direction := Ascending | Descending.

(** [{ sort?: { date: 1 | -1 }; limit?: number }] *)
Record FindOptions := {
  sort : option Direction;
  limit : option nat;
}.

(** Strings are ordered by binary comparison. *)
Definition inOrder (dir : Direction) (a b : StockData) : bool :=
  match dir with
  | Ascending => String.leb (date a) (date b)
  | Descending => String.leb (date b) (date a)
  end.

Fixpoint insertSorted (dir : Direction) (x : StockData) (l : list StockData)
  : list StockData :=
  match l with
  | [] => [x]
  | y :: rest => if inOrder dir x y then x :: l else y :: insertSorted dir x rest
  end.

Definition sortByDate (dir : Direction) (l : list StockData) : list StockData :=
  foldr (insertSorted dir) [] l.

Definition applySort (options : option FindOptions) (docs : list StockData)
  : list StockData :=
  match options with
  | Some {| sort := Some dir |} => sortByDate dir docs
  | _ => docs
  end.

(** [if (options?.limit)]: a limit of [0] is no limit. *)
Definition applyLimit (options : option FindOptions) (docs : list StockData)
  : list StockData :=
  match options with
  | Some {| limit := Some (S n) |} => take (S n) docs
  | _ => docs
  end.

Definition collectionOf (w : World) (db collection : string) : list StockData :=
  default [] (stocks w !! (db, collection)).

Definition findDocuments (db collection : string) (filter : StockFilter)
    (options : option FindOptions) : M (list StockData) :=
  emit (Find db collection) ;;
  docs <- gets (fun w => collectionOf w db collection) ;;
  ret (applyLimit options (applySort options (List.filter (matchesFilter filter) docs))).

(** [replaceOne(filter, doc, { upsert: true })]: the first document that
    matches is replaced by [doc]; when none matches, [doc] is inserted. *)
Fixpoint replaceOne (filter : StockFilter) (doc : StockData) (docs : list StockData)
  : list StockData :=
  match docs with
  | [] => [doc]
  | d :: rest =>
      if matchesFilter filter d then doc :: rest
      else d :: replaceOne filter doc rest
  end.

Definition upsertDocument (db collection : string) (filter : StockFilter)
    (doc : StockData) : M bool :=
  emit (ReplaceOne db collection filter) ;;
  docs <- gets (fun w => collectionOf w db collection) ;;
  setCollection db collection (replaceOne filter doc docs) ;;
  ret true.

(** The filter of [processGetNews]:
    [{ time_published: { $gte, $lte }, $or: [{ title: { $regex, $options } },
    { summary: { $regex, $options } }] }], the [$or] being optional. *)
Record NewsFilter := {
  gte : string;
  lte : string;
  orRegex : option (string * string);
}.

Definition matchesNews (env : Env) (filter : NewsFilter) (doc : NewsItem) : bool :=
  String.leb (gte filter) (time_published doc)
  && String.leb (time_published doc) (lte filter)
  && match orRegex filter with
     | None => true
     | Some (pattern, options) =>
         regex env pattern options (title doc)
         || regex env pattern options (summary doc)
     end.

(** The error of the store for the filter, if it refuses it. *)
Definition refusal (env : Env) (filter : NewsFilter) : option string :=
  match orRegex filter with
  | None => None
  | Some (pattern, options) => regexError env pattern options
  end.

(** [findDocuments] on the collection [news], without options: the store
    refuses the whole query when the pattern is not a regular expression,
    whatever the collection holds. *)
Definition findNewsDocuments (env : Env) (db collection : string)
    (filter : NewsFilter) : M (list NewsItem) :=
  emit (Find db collection) ;;
  match refusal env filter with
  | Some message => throw message
  | None =>
      docs <- gets news ;;
      ret (List.filter (matchesNews env filter) docs)
  end.

End Mongo.

(** ** business.ts *)

Section Business.

Context (env : Env).

Definition readText (path : string) : M string :=
  emit (ReadFile path) ;;
  match keylist env with
  | FileError msg => throw msg
  | FileContent content => ret content
  end.

Definition parseKeylist (content : string) : list string :=
  List.filter (fun line => 0 <? String.length line)
              (map Js.trim (Js.split "010" content)).

Definition loadKeys : M unit :=
  tryCatch
    (content <- readText ".keylist" ;;
     setApiKeys (parseKeylist content) ;;
     keys <- gets apiKeys ;;
     if length keys =? 0 then throw ".keylist file is empty" else ret tt)
    (fun msg =>
       if Js.includes "No such file" msg then throw ".keylist file not found"
       else throw msg).

(** [apiKeys[i] as string]; reading past the end gives [undefined]. *)
Definition keyAt (keys : list string) (i : nat) : string :=
  default "undefined" (keys !! i).

Definition getKey : M string :=
  keys <- gets apiKeys ;;
  (if length keys =? 0 then loadKeys else ret tt) ;;
  keys <- gets apiKeys ;;
  i <- gets currentKeyIndex ;;
  let key := keyAt keys i in
  setCurrentKeyIndex ((i + 1) mod length keys) ;;
  ret key.

Definition waitAfterApiCall : M unit := emit (Sleep 5000).

Definition stockUrl (symbol apiKey : string) : string :=
  "https://www.alphavantage.co/query?function=TIME_SERIES_DAILY&symbol="
  +:+ symbol +:+ "&apikey=" +:+ apiKey.

Definition fetch (url : string) : M Response :=
  emit (HttpGet url) ;;
  match remote env url with
  | FetchError msg => throw msg
  | FetchResponse r => ret r
  end.

Definition json (response : Response) : M Json :=
  match body response with
  | JsonError msg => throw msg
  | JsonValue data => ret data
  end.

(** [obj[k]] for the property names read below, none of which an array, a
    string, a number or a boolean has; [var] is the name of the variable
    that holds [obj]. *)
Definition getProp (var : string) (obj : Json) (k : string) : M Value :=
  match obj with
  | JNull => throw (nullReadMessage env var k)
  | JObj props => ret (JsValue.lookupProp k props)
  | JBool _ | JNum _ | JStr _ | JArr _ => ret None
  end.

Definition collectionName (symbol : string) : string := "stock-" +:+ symbol.

Definition stockDocOf (symbol date : string) (o h l c v : Value) : StockData :=
  {| symbol := symbol;
     date := date;
     open := Parse.parseFloat (JsValue.toString o);
     high := Parse.parseFloat (JsValue.toString h);
     low := Parse.parseFloat (JsValue.toString l);
     close := Parse.parseFloat (JsValue.toString c);
     volume := Parse.parseInt10 (JsValue.toString v) |}.

(** The body of the loop of [pullStock]. *)
Definition storeEntry (symbol : string) (count : nat) (entry : string * Json)
  : M nat :=
  let '(date, dailyData) := entry in
  o <- getProp "dailyData" dailyData "1. open" ;;
  h <- getProp "dailyData" dailyData "2. high" ;;
  l <- getProp "dailyData" dailyData "3. low" ;;
  c <- getProp "dailyData" dailyData "4. close" ;;
  v <- getProp "dailyData" dailyData "5. volume" ;;
  let stockDoc := stockDocOf symbol date o h l c v in
  Mongo.upsertDocument "finance" (collectionName symbol) (DateIs date) stockDoc ;;
  ret (count + 1).

Definition entriesOf (timeSeries : Value) : list (string * Json) :=
  match timeSeries with
  | Some ts => JsValue.objectEntries ts
  | None => []
  end.

Definition pullStock (symbol : string) : M nat :=
  emit (Invoke "pullStock" symbol) ;;
  apiKey <- getKey ;;
  let url := stockUrl symbol apiKey in
  response <- tryCatch (fetch url)
                (fun msg => throw ("Failed to fetch stock data: " +:+ msg)) ;;
  if negb (ok response) then
    throw ("API request failed with status " +:+ pretty (status response)
           +:+ ": " +:+ statusText response)
  else
  data <- tryCatch (json response)
            (fun msg => throw ("Failed to parse API response as JSON: " +:+ msg)) ;;
  e <- getProp "data" data "Error" ;;
  err <- (if JsValue.truthy e then ret e
          else getProp "data" data "Error Message") ;;
  if JsValue.truthy err then
    throw ("Alpha Vantage API error: " +:+ JsValue.toString err)
  else
  timeSeries <- getProp "data" data "Time Series (Daily)" ;;
  if negb (JsValue.truthy timeSeries) then
    throw "Invalid API response: missing 'Time Series (Daily)' field"
  else
  count <- forEach (entriesOf timeSeries) 0 (storeEntry symbol) ;;
  waitAfterApiCall ;;
  ret count.

End Business.

(** ** mcp.ts *)

(** The [data] of a tool result: [null], one document or a list. *)
Inductive Data :=
| DataNull
| DataDoc (doc : StockData)
| DataDocs (docs : list StockData).

(** [{ message, data, error? }] *)
Record ToolResult := {
  message : string;
  data : Data;
  error : option string;
}.

(** [{ message, count, data }] *)
Record NewsResult := {
  newsMessage : string;
  count : nat;
  newsData : list NewsItem;
}.

Section Mcp.

Context (env : Env).

Definition invalidDate (dateStr : string) : string :=
  "Invalid date format: " +:+ dateStr +:+ ". Expected YYYYMMDD".

Definition formatStockDate (dateStr : string) : M string :=
  if negb (Js.isEightDigits dateStr) then throw (invalidDate dateStr)
  else ret (Js.slice 0 4 dateStr +:+ "-" +:+ Js.slice 4 6 dateStr
            +:+ "-" +:+ Js.slice 6 8 dateStr).

Definition formatNewsTime (dateStr : string) (isEnd : bool) : M string :=
  if negb (Js.isEightDigits dateStr) then throw (invalidDate dateStr)
  else ret (if isEnd then dateStr +:+ "T2359" else dateStr +:+ "T0000").

Definition isKeylistError (errorMessage : string) : bool :=
  Js.includes ".keylist" errorMessage || Js.includes "ENOENT" errorMessage.

Definition keylistMessage (symbol : string) : string :=
  "No stock data found for " +:+ symbol
  +:+ ". Auto-pull failed: .keylist file not found. Please create a .keylist file with your Alpha Vantage API key(s), or manually pull the data using: bun src/run-stocks.ts --pull-stock "
  +:+ symbol.

Definition autoPullFailed (symbol errorMessage : string) : string :=
  "No stock data found for " +:+ symbol +:+ ". Auto-pull failed: " +:+ errorMessage.

(** The [catch] clause of both branches; [empty] is [null] or [[]]. *)
Definition pullFailure (symbol : string) (empty : Data) (errorMessage : string)
  : M ToolResult :=
  if isKeylistError errorMessage then
    ret {| message := keylistMessage symbol;
           data := empty;
           error := Some "Missing .keylist file" |}
  else
    ret {| message := autoPullFailed symbol errorMessage;
           data := empty;
           error := Some errorMessage |}.

Definition latest100 : option Mongo.FindOptions :=
  Some {| Mongo.sort := Some Mongo.Descending; Mongo.limit := Some 100 |}.

(** The branch [if (date)] of [processGetStockPrices]: one date. *)
Definition queryDate (symbol date : string) : M ToolResult :=
  let collectionName := "stock-" +:+ symbol in
  dateFormatted <- formatStockDate date ;;
  docs <- Mongo.findDocuments "finance" collectionName (DateIs dateFormatted) None ;;
  match docs with
  | [] =>
      tryCatch
        (count <- pullStock env symbol ;;
         docs <- Mongo.findDocuments "finance" collectionName
                   (DateIs dateFormatted) None ;;
         match docs with
         | [] =>
             ret {| message := "No stock data found for " +:+ symbol +:+ " on "
                               +:+ dateFormatted
                               +:+ " (even after pulling from API)";
                    data := DataNull;
                    error := None |}
         | doc0 :: _ =>
             ret {| message := "Stock data for " +:+ symbol +:+ " on "
                               +:+ dateFormatted +:+ " (freshly pulled from API)";
                    data := DataDoc doc0;
                    error := None |}
         end)
        (pullFailure symbol DataNull)
  | doc0 :: _ =>
      ret {| message := "Stock data for " +:+ symbol +:+ " on " +:+ dateFormatted;
             data := DataDoc doc0;
             error := None |}
  end.

(** The branch [else]: the latest 100 prices. *)
Definition queryLatest (symbol : string) : M ToolResult :=
  let collectionName := "stock-" +:+ symbol in
  docs <- Mongo.findDocuments "finance" collectionName AnyDocument latest100 ;;
  match docs with
  | [] =>
      tryCatch
        (count <- pullStock env symbol ;;
         docs <- Mongo.findDocuments "finance" collectionName AnyDocument latest100 ;;
         match docs with
         | [] =>
             ret {| message := "No stock data found for " +:+ symbol
                               +:+ " (even after pulling from API)";
                    data := DataDocs [];
                    error := None |}
         | _ :: _ =>
             ret {| message := "Found " +:+ pretty (length docs)
                               +:+ " stock price records for " +:+ symbol
                               +:+ " (freshly pulled from API)";
                    data := DataDocs docs;
                    error := None |}
         end)
        (pullFailure symbol (DataDocs []))
  | _ :: _ =>
      ret {| message := "Found " +:+ pretty (length docs)
                        +:+ " stock price records for " +:+ symbol;
             data := DataDocs docs;
             error := None |}
  end.

(** [date] is optional; [if (date)] also sends the empty string to the
    second branch. *)
Definition processGetStockPrices (symbol : string) (date : option string)
  : M ToolResult :=
  match date with
  | Some d => if Js.truthyString d then queryDate symbol d else queryLatest symbol
  | None => queryLatest symbol
  end.

Definition keywordInfo (keyword : option string) : string :=
  match keyword with
  | Some k => if Js.truthyString k then " matching keyword " +:+ String "034" k +:+ String "034" EmptyString
              else EmptyString
  | None => EmptyString
  end.

(** [if (keyword) filter.$or = ...] *)
Definition keywordFilter (keyword : option string) : option (string * string) :=
  match keyword with
  | Some k => if Js.truthyString k then Some (k, "i") else None
  | None => None
  end.

Definition processGetNews (from to : string) (keyword : option string)
  : M NewsResult :=
  fromTime <- formatNewsTime from false ;;
  toTime <- formatNewsTime to true ;;
  let filter := {| Mongo.gte := fromTime; Mongo.lte := toTime;
                   Mongo.orRegex := keywordFilter keyword |} in
  docs <- Mongo.findNewsDocuments env "finance" "news" filter ;;
  match docs with
  | [] =>
      ret {| newsMessage := "No news articles found between " +:+ from +:+ " and "
                            +:+ to +:+ keywordInfo keyword;
             count := 0;
             newsData := [] |}
  | _ :: _ =>
      ret {| newsMessage := "Found " +:+ pretty (length docs)
                            +:+ " news articles between " +:+ from +:+ " and "
                            +:+ to +:+ keywordInfo keyword;
             count := length docs;
             newsData := docs |}
  end.

End Mcp.

(** * Vocabulary of the properties *)

(** ** Key rotation *)

(** The cursor of every process state that [getKey] produces: [0] while no
    key is loaded, an index of the pool afterwards. *)
Definition cursorInRange (w : World) : Prop :=
  (apiKeys w = [] ∧ currentKeyIndex w = 0)
  ∨ currentKeyIndex w < length (apiKeys w).

(** [n] calls of [getKey] in a row, with what they return, in order. *)
Fixpoint getKeys (env : Env) (n : nat) : M (list string) :=
  match n with
  | 0 => ret []
  | S n' => k <- getKey env ;; ks <- getKeys env n' ;; ret (k :: ks)
  end.

(** The pool read cyclically from the cursor [c]: the entries from [c] on,
    then those before [c]. *)
Definition fromCursor (c : nat) (pool : list string) : list string :=
  drop c pool ++ take c pool.

Definition LF : ascii := "010"%char.

(** A text file with the given lines. *)
Definition fileOf (lines : list string) : FileResult :=
  FileContent (Js.join (String LF EmptyString) lines).

Definition withKeylist (file : FileResult) (env : Env) : Env :=
  {| keylist := file; remote := remote env; regex := regex env;
     regexError := regexError env;
     nullReadMessage := nullReadMessage env |}.

(** A remote API that is out of reach, a store that matches no pattern. *)
Definition offline (file : FileResult) : Env :=
  {| keylist := file;
     remote := fun _ => FetchError "Unable to connect";
     regex := fun _ _ _ => false;
     regexError := fun _ _ => None;
     nullReadMessage := fun var k => "null is not an object" |}.

(** A process that has loaded three keys and handed out the first. *)
Definition threeKeys : World :=
  {| apiKeys := ["K1"; "K2"; "K3"]; currentKeyIndex := 1;
     stocks := ∅; news := []; trace := [ReadFile ".keylist"] |}.

(** ** Dates and news *)

(** A string without its dashes. *)
Definition removeDashes (s : string) : string :=
  string_of_list_ascii
    (List.filter (fun c => negb (Ascii.eqb c "-")) (list_ascii_of_string s)).

(** The range test of [processGetNews] for the dates [from] and [to]. *)
Definition inRange (from to : string) (a : NewsItem) : bool :=
  String.leb (from +:+ "T0000") (time_published a)
  && String.leb (time_published a) (to +:+ "T2359").

(** The keyword test: the title or the summary matches. *)
Definition keywordHit (env : Env) (k : string) (a : NewsItem) : bool :=
  regex env k "i" (title a) || regex env k "i" (summary a).

(** The error of the store for the keyword, if it refuses it as a regular
    expression; no keyword and the empty keyword are never refused. *)
Definition rejection (env : Env) (keyword : option string) : option string :=
  match keywordFilter keyword with
  | Some (k, options) => regexError env k options
  | None => None
  end.

(** What [processGetNews] selects. *)
Definition selected (env : Env) (from to : string) (keyword : option string)
    (articles : list NewsItem) : list NewsItem :=
  match keywordFilter keyword with
  | Some (k, _) =>
      List.filter (fun a => inRange from to a && keywordHit env k a) articles
  | None => List.filter (inRange from to) articles
  end.

Definition toLower (c : ascii) : ascii :=
  let n := nat_of_ascii c in
  if (65 <=? n) && (n <=? 90) then ascii_of_nat (n + 32) else c.

Fixpoint lowerCase (s : string) : string :=
  match s with
  | EmptyString => EmptyString
  | String c s' => String (toLower c) (lowerCase s')
  end.

(** A store whose patterns are plain text, as a keyword of letters, digits
    and spaces is: with the option [i] the subject holds the pattern
    whatever the case of the letters. *)
Definition plainText (pattern options subject : string) : bool :=
  if Js.includes "i" options
  then Js.includes (lowerCase pattern) (lowerCase subject)
  else Js.includes pattern subject.

(** Such a store refuses a pattern that opens a group and does not close
    it, as the regular expressions of the store do. *)
Definition unclosedGroup (pattern options : string) : option string :=
  if Js.includes "(" pattern && negb (Js.includes ")" pattern)
  then Some "Regular expression is invalid: missing closing parenthesis"
  else None.

Definition plainStore : Env :=
  {| keylist := FileError "ENOENT: no such file or directory, open '.keylist'";
     remote := fun _ => FetchError "Unable to connect";
     regex := plainText;
     regexError := unclosedGroup;
     nullReadMessage := fun var k => "null is not an object" |}.

Definition article (published headline text : string) : NewsItem :=
  {| title := headline; url := "https://example.com/a";
     time_published := published; authors := []; summary := text;
     banner_image := None; source := "Example"; category_within_source := "n/a";
     source_domain := "example.com"; topics := [];
     overall_sentiment_score := Fin (Qmake 0 1);
     overall_sentiment_label := "Neutral"; ticker_sentiment := [] |}.

Definition firstMinute : NewsItem :=
  article "20251221T000030" "Algorithmic TRADING firms expand" "Desks grow.".

Definition midday : NewsItem :=
  article "20251221T120000" "Rates unchanged" "Quiet trading ahead of data.".

Definition lastMinute : NewsItem :=
  article "20251222T235930" "Late headline" "Trading halted at the close.".

Definition sampleNews : list NewsItem :=
  [ firstMinute;
    midday;
    article "20251222T101500" "Earnings season opens" "Banks report first.";
    lastMinute;
    article "20251223T000000" "Next day" "Outside the range." ].

Definition newsroom : World :=
  {| apiKeys := []; currentKeyIndex := 0; stocks := ∅; news := sampleNews;
     trace := [] |}.

(** ** Prices *)

(** A property of a value that is not [null], by name. *)
Definition readProp (obj : Json) (k : string) : Value :=
  match obj with
  | JObj props => JsValue.lookupProp k props
  | _ => None
  end.

(** [data.Error || data["Error Message"]] *)
Definition apiError (data : Json) : Value :=
  JsValue.orElse (readProp data "Error") (readProp data "Error Message").

Definition timeSeriesField : string := "Time Series (Daily)".

(** The document that [pullStock] builds from one entry of the time
    series. *)
Definition docOfEntry (symbol : string) (entry : string * Json) : StockData :=
  stockDocOf symbol (fst entry)
    (readProp (snd entry) "1. open") (readProp (snd entry) "2. high")
    (readProp (snd entry) "3. low") (readProp (snd entry) "4. close")
    (readProp (snd entry) "5. volume").

(** The partition of a symbol: the collection [stock-SYMBOL] of [finance]. *)
Definition partition (w : World) (symbol : string) : list StockData :=
  Mongo.collectionOf w "finance" (collectionName symbol).

(** The process after the upsert of one entry, and of a list of entries. *)
Definition storedEntry (symbol : string) (w : World) (entry : string * Json)
  : World :=
  withCollection "finance" (collectionName symbol)
    (Mongo.replaceOne (DateIs (fst entry)) (docOfEntry symbol entry)
       (partition w symbol))
    (logged (ReplaceOne "finance" (collectionName symbol) (DateIs (fst entry))) w).

Definition storedEntries (symbol : string) (entries : list (string * Json))
    (w : World) : World :=
  fold_left (storedEntry symbol) entries w.

(** The partition after the upserts of a list of entries. *)
Definition upsertAll (symbol : string) (entries : list (string * Json))
    (docs : list StockData) : list StockData :=
  fold_left (fun docs e =>
               Mongo.replaceOne (DateIs (fst e)) (docOfEntry symbol e) docs)
            entries docs.

(** The conditions under which [pullStock] succeeds once it holds the key
    [key]: the remote API answers with a status in 200-299 and a body that
    decodes to a value other than [null], with no error field that is
    truthy, with a truthy time series [ts] whose entries are not [null]. *)
Definition pullSucceeds (env : Env) (symbol key : string) (ts : Json) : Prop :=
  ∃ r data,
    remote env (stockUrl symbol key) = FetchResponse r
    ∧ ok r = true
    ∧ body r = JsonValue data
    ∧ data ≠ JNull
    ∧ JsValue.truthy (apiError data) = false
    ∧ readProp data timeSeriesField = Some ts
    ∧ JsValue.truthyJson ts = true
    ∧ Forall (fun e => snd e ≠ JNull) (JsValue.objectEntries ts).

(** The entries of the time series that an answer of the remote API
    carries. *)
Definition seriesOf (answer : FetchResult) : list (string * Json) :=
  match answer with
  | FetchResponse r =>
      match body r with
      | JsonValue data => entriesOf (readProp data timeSeriesField)
      | JsonError _ => []
      end
  | FetchError _ => []
  end.

(** The read of the latest prices: by date, descending, at most 100. *)
Definition latestOf (docs : list StockData) : list StockData :=
  take 100 (Mongo.sortByDate Mongo.Descending docs).

(** The read of one date. *)
Definition onDate (d : string) (docs : list StockData) : list StockData :=
  List.filter (fun doc => String.eqb (date doc) d) docs.

Definition collectionEvent (symbol : string) : Event :=
  Find "finance" (collectionName symbol).

(** The three results of the read of the latest prices. *)
Definition cachedResult (symbol : string) (docs : list StockData) : ToolResult :=
  {| message := "Found " +:+ pretty (length docs)
                +:+ " stock price records for " +:+ symbol;
     data := DataDocs docs;
     error := None |}.

Definition freshResult (symbol : string) (docs : list StockData) : ToolResult :=
  {| message := "Found " +:+ pretty (length docs)
                +:+ " stock price records for " +:+ symbol
                +:+ " (freshly pulled from API)";
     data := DataDocs docs;
     error := None |}.

Definition notFoundResult (symbol : string) : ToolResult :=
  {| message := "No stock data found for " +:+ symbol
                +:+ " (even after pulling from API)";
     data := DataDocs [];
     error := None |}.

(** The result of a pull that failed with the message [m]; [empty] is the
    [data] of the branch. *)
Definition failureResult (symbol : string) (empty : Data) (m : string)
  : ToolResult :=
  {| message := if isKeylistError m then keylistMessage symbol
                else autoPullFailed symbol m;
     data := empty;
     error := Some (if isKeylistError m then "Missing .keylist file" else m) |}.

(** What the remote API sends for a request it rejects. *)
Definition errorPayload : Json :=
  JObj [("Error Message", JStr "Invalid API call.")].

(** The first stored document with a given date. *)
Definition firstWithDate (d : string) (docs : list StockData) : option StockData :=
  List.find (fun doc => String.eqb (date doc) d) docs.

(** A remote API that answers every request with status 200 and the body
    [data]. *)
Definition answering (file : FileResult) (data : Json) : Env :=
  {| keylist := file;
     remote := fun _ => FetchResponse {| status := 200; statusText := "OK";
                                         body := JsonValue data |};
     regex := plainText;
     regexError := unclosedGroup;
     nullReadMessage := fun var k => "null is not an object" |}.

(** The payload of the scenario and the document it gives for AAPL. *)
Definition scenarioSeries : Json :=
  JObj [("2025-12-23",
         JObj [("1. open", JStr "270.97"); ("2. high", JStr "272.45");
               ("3. low", JStr "269.56"); ("4. close", JStr "272.36");
               ("5. volume", JStr "29360026")])].

Definition scenarioPayload : Json := JObj [(timeSeriesField, scenarioSeries)].

(** The double [m * 2^e], as the fraction in lowest terms that is its
    value. *)
Definition double (m e : Z) : Q :=
  Qred (QArith_base.Qmult (QArith_base.inject_Z m) (QArith_base.Qpower (Qmake 2 1) e)).

(** [m * 2^e] is the double that the decimal [q >= 0] denotes: [e] is at
    least [-1074]; [q] is in the binade whose doubles are the multiples of
    [2^e], from [2^(e + 52)] to [2^(e + 53)], or below it when [e] is the
    least exponent; [m * 2^e] is below [2^1024] and at most half of [2^e]
    away from [q], with [m] even when it is exactly that far. *)
Definition denotes (q : Q) (m e : Z) : bool :=
  let unit := QArith_base.Qpower (Qmake 2 1) e in
  let d := QArith_base.Qmult (QArith_base.inject_Z m) unit in
  let gap := QArith_base.Qmult (Qmake 2 1) (Qabs.Qabs (QArith_base.Qminus q d)) in
  (-1074 <=? e)%Z
  && ((e =? -1074)%Z
      || QArith_base.Qle_bool (QArith_base.Qpower (Qmake 2 1) (e + 52)) q)
  && negb (QArith_base.Qle_bool (QArith_base.Qpower (Qmake 2 1) (e + 53)) q)
  && negb (QArith_base.Qle_bool (QArith_base.Qpower (Qmake 2 1) 1024) d)
  && QArith_base.Qle_bool gap unit
  && (negb (QArith_base.Qle_bool unit gap) || Z.even m).

(** The same on integers, for the fraction [n / d]. *)
Definition denotesFraction (n d m e : Z) : Prop :=
  (-1074 <= e
   ∧ (e = -1074 ∨ Double.reaches (e + 52) n d = true)
   ∧ Double.reaches (e + 53) n d = false
   ∧ Double.reaches 1024 (m * Double.up e) (Double.down e) = false
   ∧ Z.abs (2 * (n * Double.down e) - 2 * m * (d * Double.up e))
     <= d * Double.up e
   ∧ (Z.abs (2 * (n * Double.down e) - 2 * m * (d * Double.up e))
      = d * Double.up e → Z.even m = true))%Z.

(** The document of the scenario: 270.97 is the double
    [4766954652455404 * 2^-44], and so on. *)
Definition scenarioDoc : StockData :=
  {| symbol := "AAPL"; date := "2025-12-23";
     open := Fin (double 4766954652455404 (-44));
     high := Fin (double 4792991087801139 (-44));
     low := Fin (double 4742149670132777 (-44));
     close := Fin (double 4791407791057142 (-44));
     volume := Fin (double 7881271967481856 (-28)) |}.

Definition scenarioEnv : Env := answering (fileOf ["K1"]) scenarioPayload.

(** ** Decimal numerals *)










(** ** Events *)

Definition isSleep (e : Event) : bool :=
  match e with Sleep _ => true | _ => false end.

Definition isInvoke (e : Event) : bool :=
  match e with Invoke _ _ => true | _ => false end.

Definition isReplaceOne (e : Event) : bool :=
  match e with ReplaceOne _ _ _ => true | _ => false end.

(** Neither the entry of a function nor a pause. *)
Definition isQuiet (e : Event) : bool :=
  match e with Invoke _ _ | Sleep _ => false | _ => true end.

Definition countEvents (p : Event → bool) (events : list Event) : nat :=
  length (List.filter p events).

(** The event of the upsert of an entry. *)
Definition upsertEvent (symbol : string) (entry : string * Json) : Event :=
  ReplaceOne "finance" (collectionName symbol) (DateIs (fst entry)).

(** * Further vocabulary *)

(** ** Pulls *)

(** The keys that a key file gives: none when it cannot be read. *)
Definition usableKeys (file : FileResult) : list string :=
  match file with
  | FileContent content => parseKeylist content
  | FileError _ => []
  end.

(** The remote API answers the request for [symbol] with [key] by a status
    in 200-299 and a body that decodes to a value with no truthy error
    field and the truthy time series [ts]. *)
Definition pullAnswers (env : Env) (symbol key : string) (ts : Json) : Prop :=
  ∃ r data,
    remote env (stockUrl symbol key) = FetchResponse r
    ∧ ok r = true
    ∧ body r = JsonValue data
    ∧ JsValue.truthy (apiError data) = false
    ∧ readProp data timeSeriesField = Some ts
    ∧ JsValue.truthyJson ts = true.

(** The process after an optional pause. *)
Definition pausedIf (b : bool) (w : World) : World :=
  if b then logged (Sleep 5000) w else w.

Definition isOk {A} (r : Result A) : bool :=
  match r with Ok _ => true | Throw _ => false end.

Definition isHttpGet (e : Event) : bool :=
  match e with HttpGet _ => true | _ => false end.

Definition isReadFile (e : Event) : bool :=
  match e with ReadFile _ => true | _ => false end.

(** A time series whose second entry is [null]. *)
Definition entriesBefore : list (string * Json) :=
  [("2025-12-23",
    JObj [("1. open", JStr "270.97"); ("2. high", JStr "272.45");
          ("3. low", JStr "269.56"); ("4. close", JStr "272.36");
          ("5. volume", JStr "29360026")])].

Definition entriesAfter : list (string * Json) :=
  [("2025-12-19",
    JObj [("1. open", JStr "272.15"); ("2. high", JStr "274.60");
          ("3. low", JStr "269.90"); ("4. close", JStr "273.67");
          ("5. volume", JStr "144632048")])].

Definition brokenSeries : Json :=
  JObj (entriesBefore ++ ("2025-12-22", JNull) :: entriesAfter).

Definition brokenEnv : Env :=
  answering (fileOf ["K1"]) (JObj [(timeSeriesField, brokenSeries)]).

(** ** Dated queries *)

(** [YYYY-MM-DD] from [YYYYMMDD], as [formatStockDate] builds it. *)
Definition dashed (d : string) : string :=
  Js.slice 0 4 d +:+ "-" +:+ Js.slice 4 6 d +:+ "-" +:+ Js.slice 6 8 d.

(** The results of the dated query. *)
Definition datedResult (symbol f : string) (doc : StockData) : ToolResult :=
  {| message := "Stock data for " +:+ symbol +:+ " on " +:+ f;
     data := DataDoc doc;
     error := None |}.

Definition datedNotFound (symbol f : string) : ToolResult :=
  {| message := "No stock data found for " +:+ symbol +:+ " on " +:+ f
                +:+ " (even after pulling from API)";
     data := DataNull;
     error := None |}.

(** ** Reads *)

(** The order of the latest read: the later date first. *)
Definition newerFirst (a b : StockData) : Prop :=
  String.leb (date b) (date a) = true.

Definition olderDoc : StockData :=
  {| symbol := "AAPL"; date := "2025-12-22";
     open := Fin (double 4800203884079350 (-44));
     high := Fin (double 4811462883147776 (-44));
     low := Fin (double 4749010622690099 (-44));
     close := Fin (double 4766954652455404 (-44));
     volume := Fin (double 4908586589224960 (-27)) |}.

(** A process whose AAPL partition holds two days, the older one first. *)
Definition twoDays : World :=
  {| apiKeys := []; currentKeyIndex := 0;
     stocks := {[ ("finance", "stock-AAPL") := [olderDoc; scenarioDoc] ]};
     news := []; trace := [] |}.

(** * Further code *)

(** ** run-stocks.ts *)

Module Cli.

(** [/^\d{8}-\d{8}$/.test(s)] *)
Definition isDateRange (s : string) : bool :=
  (String.length s =? 17)
  && Js.allDigits (substring 0 8 s)
  && String.eqb (substring 8 1 s) "-"
  && Js.allDigits (substring 9 8 s).

(** [{ from_time, to_time }] *)
Record DateRange := {
  from_time : string;
  to_time : string;
}.

(** An element of [const [from, to] = parts]; a missing one is
    [undefined], which a template literal prints as that word. *)
Definition element (i : nat) (parts : list string) : string :=
  nth i parts "undefined".

Definition parseDateRange (rangeStr : string) : M DateRange :=
  if negb (isDateRange rangeStr) then
    throw ("Invalid date range format: " +:+ rangeStr
           +:+ ". Expected YYYYMMDD-YYYYMMDD")
  else
    let parts := Js.split "-" rangeStr in
    ret {| from_time := element 0 parts +:+ "T0000";
           to_time := element 1 parts +:+ "T2359" |}.

End Cli.

(** ** business.ts: news *)

(** A field of the document that [pullNews] builds: a value of the
    response, or the number that [parseFloat] returns. *)
Inductive NewsField :=
| Raw (v : Value)
| Parsed (n : Num).

Definition newsUrl (apiKey time_from time_to : string) : string :=
  "https://www.alphavantage.co/query?function=NEWS_SENTIMENT&apikey="
  +:+ apiKey +:+ "&limit=1000&time_from=" +:+ time_from
  +:+ "&time_to=" +:+ time_to.

(** The object literal [newsDoc]. *)
Definition newsDocOf (title url time_published authors summary banner_image
    source category_within_source source_domain topics
    overall_sentiment_score overall_sentiment_label ticker_sentiment : Value)
  : list (string * NewsField) :=
  [ ("title", Raw title);
    ("url", Raw url);
    ("time_published", Raw time_published);
    ("authors", Raw (JsValue.orElse authors (Some (JArr []))));
    ("summary", Raw summary);
    ("banner_image", Raw (JsValue.orElse banner_image (Some JNull)));
    ("source", Raw source);
    ("category_within_source", Raw category_within_source);
    ("source_domain", Raw source_domain);
    ("topics", Raw (JsValue.orElse topics (Some (JArr []))));
    ("overall_sentiment_score",
     Parsed (Parse.parseFloat (JsValue.toString overall_sentiment_score)));
    ("overall_sentiment_label", Raw overall_sentiment_label);
    ("ticker_sentiment", Raw (JsValue.orElse ticker_sentiment (Some (JArr [])))) ].

Section PullNews.

Context (env : Env).

(** [upsertDocument("finance", "news", { time_published: t }, newsDoc)],
    by [t] and [newsDoc]: the documents of the response are not typed, and
    the store that takes them is left open. *)
Context (upsertNews : Value → list (string * NewsField) → M bool).

(** The body of the loop of [pullNews]. *)
Definition storeItem (count : nat) (item : Json) : M nat :=
  title <- getProp env "item" item "title" ;;
  url <- getProp env "item" item "url" ;;
  time_published <- getProp env "item" item "time_published" ;;
  authors <- getProp env "item" item "authors" ;;
  summary <- getProp env "item" item "summary" ;;
  banner_image <- getProp env "item" item "banner_image" ;;
  source <- getProp env "item" item "source" ;;
  category_within_source <- getProp env "item" item "category_within_source" ;;
  source_domain <- getProp env "item" item "source_domain" ;;
  topics <- getProp env "item" item "topics" ;;
  overall_sentiment_score <- getProp env "item" item "overall_sentiment_score" ;;
  overall_sentiment_label <- getProp env "item" item "overall_sentiment_label" ;;
  ticker_sentiment <- getProp env "item" item "ticker_sentiment" ;;
  let newsDoc :=
    newsDocOf title url time_published authors summary banner_image source
      category_within_source source_domain topics overall_sentiment_score
      overall_sentiment_label ticker_sentiment in
  key <- getProp env "item" item "time_published" ;;
  upsertNews key newsDoc ;;
  ret (count + 1).

Definition pullNews (time_from time_to : string) : M nat :=
  apiKey <- getKey env ;;
  let url := newsUrl apiKey time_from time_to in
  response <- tryCatch (fetch env url)
                (fun msg => throw ("Failed to fetch news data: " +:+ msg)) ;;
  if negb (ok response) then
    throw ("API request failed with status " +:+ pretty (status response)
           +:+ ": " +:+ statusText response)
  else
  data <- tryCatch (json response)
            (fun msg => throw ("Failed to parse API response as JSON: " +:+ msg)) ;;
  e <- getProp env "data" data "Error" ;;
  err <- (if JsValue.truthy e then ret e
          else getProp env "data" data "Error Message") ;;
  if JsValue.truthy err then
    throw ("Alpha Vantage API error: " +:+ JsValue.toString err)
  else
  feed <- getProp env "data" data "feed" ;;
  match feed with
  | Some (JArr items) =>
      count <- forEach items 0 storeItem ;;
      waitAfterApiCall ;;
      ret count
  | _ => throw "Invalid API response: missing or invalid 'feed' field"
  end.

End PullNews.

(** ** The server of the pull tools *)

Module PullServer.

(** The UTF-16 code units of a text, and the text of code units below 256. *)
Definition unitsOf (s : string) : list N :=
  map N_of_ascii (list_ascii_of_string s).

Definition textOf (units : list N) : string :=
  string_of_list_ascii (map ascii_of_N units).

(** [toUpperCase] of one code unit below 256: the letters a-z and the
    accented letters go 32 down, the micro sign becomes the Greek capital
    mu, the sharp s becomes two letters S, the y with diaeresis leaves
    Latin-1, the division sign and all the rest stay. *)
Definition upperUnit (n : N) : list N :=
  (if (97 <=? n) && (n <=? 122) then [n - 32]
   else if n =? 181 then [924]
   else if n =? 223 then [83; 83]
   else if n =? 255 then [376]
   else if (224 <=? n) && (n <=? 254) && negb (n =? 247) then [n - 32]
   else [n])%N.

(** [s.toUpperCase()] *)
Definition toUpperCase (s : string) : list N :=
  flat_map upperUnit (unitsOf s).

(** White space and line terminators among all code units. *)
Definition isWhiteSpace (n : N) : bool :=
  existsb (N.eqb n)
    [9; 10; 11; 12; 13; 32; 160; 5760; 8192; 8193; 8194; 8195; 8196; 8197;
     8198; 8199; 8200; 8201; 8202; 8232; 8233; 8239; 8287; 12288; 65279]%N.

Fixpoint trimStart (units : list N) : list N :=
  match units with
  | n :: rest => if isWhiteSpace n then trimStart rest else units
  | [] => []
  end.

(** [s.trim()] *)
Definition trim (units : list N) : list N :=
  rev (trimStart (rev (trimStart units))).

Definition isCapital (n : N) : bool := ((65 <=? n) && (n <=? 90))%N.

(** [/^[A-Z]{1,5}$/.test(s)] *)
Definition isTicker (units : list N) : bool :=
  (1 <=? length units)%nat && (length units <=? 5)%nat && forallb isCapital units.

(** [{ success, message, data }] *)
Record Reply (D : Type) := {
  success : bool;
  message : string;
  data : D;
}.
Arguments success {D}.
Arguments message {D}.
Arguments data {D}.

Record PulledStock := {
  symbol : string;
  records_pulled : nat;
  collection : string;
}.

Record PulledNews := {
  start_date : string;
  end_date : string;
  articles_pulled : nat;
}.

Definition stockReply (normalizedSymbol : string) (count : nat) : Reply PulledStock :=
  {| success := true;
     message := "Successfully pulled " +:+ pretty count +:+ " stock records for "
                +:+ normalizedSymbol;
     data := {| symbol := normalizedSymbol;
                records_pulled := count;
                collection := "stock-" +:+ normalizedSymbol |} |}.

Definition newsReply (startDate endDate : string) (count : nat) : Reply PulledNews :=
  {| success := true;
     message := "Successfully pulled " +:+ pretty count +:+ " news articles";
     data := {| start_date := startDate;
                end_date := endDate;
                articles_pulled := count |} |}.

Section Tools.

Context (env : Env).

(** The store behind [pullNews]. *)
Context (upsertNews : Value → list (string * NewsField) → M bool).

(** The argument is a string in the model, so [typeof symbol !== "string"]
    is false. *)
Definition processPullStock (symbol : string) : M (Reply PulledStock) :=
  if negb (Js.truthyString symbol) then
    throw "Symbol is required and must be a string"
  else
    let normalizedSymbol := trim (toUpperCase symbol) in
    if negb (isTicker normalizedSymbol) then
      throw ("Invalid symbol format: " +:+ symbol
             +:+ ". Must be 1-5 uppercase letters.")
    else
      let normalizedSymbol := textOf normalizedSymbol in
      count <- pullStock env normalizedSymbol ;;
      ret (stockReply normalizedSymbol count).

Definition processPullNews (startDate endDate : string) : M (Reply PulledNews) :=
  if negb (Js.truthyString startDate) || negb (Js.truthyString endDate) then
    throw "Both start_date and end_date are required"
  else if negb (Js.isEightDigits startDate) then
    throw ("Invalid start_date format: " +:+ startDate +:+ ". Expected YYYYMMDD")
  else if negb (Js.isEightDigits endDate) then
    throw ("Invalid end_date format: " +:+ endDate +:+ ". Expected YYYYMMDD")
  else
    let fromTime := startDate +:+ "T0000" in
    let toTime := endDate +:+ "T2359" in
    count <- pullNews env upsertNews fromTime toTime ;;
    ret (newsReply startDate endDate count).

End Tools.

End PullServer.

(** The capital letters of a symbol, as a text. *)
Definition isTickerText (t : string) : bool :=
  PullServer.isTicker (PullServer.unitsOf t).

Definition isBlank (s : string) : bool :=
  forallb Js.isWhiteSpace (list_ascii_of_string s).

(** The letter [ß], one code unit. *)
Definition sharpS : string := String "223" EmptyString.

(** ** The server of the read tools that never pulls *)

Module PlainServer.

(** [formatStockDate] of this file has the text of the one above. *)
Definition queryDate (symbol date : string) : M ToolResult :=
  let collectionName := "stock-" +:+ symbol in
  dateFormatted <- formatStockDate date ;;
  docs <- Mongo.findDocuments "finance" collectionName (DateIs dateFormatted) None ;;
  match docs with
  | [] =>
      ret {| message := "No stock data found for " +:+ symbol +:+ " on "
                        +:+ dateFormatted;
             data := DataNull;
             error := None |}
  | doc0 :: _ =>
      ret {| message := "Stock data for " +:+ symbol +:+ " on " +:+ dateFormatted;
             data := DataDoc doc0;
             error := None |}
  end.

Definition queryLatest (symbol : string) : M ToolResult :=
  let collectionName := "stock-" +:+ symbol in
  docs <- Mongo.findDocuments "finance" collectionName AnyDocument latest100 ;;
  match docs with
  | [] =>
      ret {| message := "No stock data found for " +:+ symbol;
             data := DataDocs [];
             error := None |}
  | _ :: _ =>
      ret {| message := "Found " +:+ pretty (length docs)
                        +:+ " stock price records for " +:+ symbol;
             data := DataDocs docs;
             error := None |}
  end.

Definition processGetStockPrices (symbol : string) (date : option string)
  : M ToolResult :=
  match date with
  | Some d => if Js.truthyString d then queryDate symbol d else queryLatest symbol
  | None => queryLatest symbol
  end.

End PlainServer.

(** A result that carries at least one document. *)
Definition hasDocuments (r : ToolResult) : bool :=
  match data r with
  | DataDoc _ => true
  | DataDocs (_ :: _) => true
  | _ => false
  end.

(** ** mongo.ts: the connection *)

Module Connection.

(** What [connect] and [disconnect] meet outside the program. *)
Record Deployment := {
  (** [process.env.MONGODB_CONNECTION_STRING] *)
  MONGODB_CONNECTION_STRING : option string;
  (** [new MongoClient(uri)] followed by [client.connect()]: the message of
      the error that either of them throws, if any *)
  dial : string → option string;
  (** [client.close()] of the client of a serial number: the message of the
      error it throws, if any *)
  close : nat → option string;
}.

(** A client object: [serial] tells one object from another, as [===]
    does. *)
Record MongoClient := {
  serial : nat;
  uri : string;
}.

(** The variable [globalClient], and the number of clients built so far. *)
Record State := {
  globalClient : option MongoClient;
  built : nat;
}.

Definition sameObject (a b : MongoClient) : bool := serial a =? serial b.

(** [s.startsWith(p)] *)
Definition startsWith (p s : string) : bool := String.prefix p s.

Definition connect (d : Deployment) (st : State) : Result MongoClient * State :=
  let undefined :=
    (Throw "MONGODB_CONNECTION_STRING environment variable is not defined", st) in
  match MONGODB_CONNECTION_STRING d with
  | None => undefined
  | Some connectionString =>
      if negb (Js.truthyString connectionString) then undefined
      else
        let connectionString :=
          if negb (startsWith "mongodb://" connectionString)
             && negb (startsWith "mongodb+srv://" connectionString)
          then "mongodb://" +:+ connectionString
          else connectionString in
        let client := {| serial := built st; uri := connectionString |} in
        match dial d connectionString with
        | Some message =>
            (Throw ("Failed to connect to MongoDB: " +:+ message),
             {| globalClient := globalClient st; built := S (built st) |})
        | None =>
            (Ok client, {| globalClient := Some client; built := S (built st) |})
        end
  end.

Definition disconnect (d : Deployment) (client : MongoClient) (st : State)
  : Result unit * State :=
  match close d (serial client) with
  | Some message => (Throw message, st)
  | None =>
      (Ok tt,
       match globalClient st with
       | Some current =>
           if sameObject current client
           then {| globalClient := None; built := built st |}
           else st
       | None => st
       end)
  end.

Definition start : State := {| globalClient := None; built := 0 |}.

(** The guard that opens the other functions of mongo.ts:
    [if (!globalClient) throw new Error(...)]. *)
Definition notConnected : string :=
  "Not connected to MongoDB. Call connect() first.".

Definition guarded {A} (st : State) (operation : M A) : M A :=
  match globalClient st with
  | None => throw notConnected
  | Some _ => operation
  end.

(** [findDocuments] and [upsertDocument] from their first line:
    [Mongo.findDocuments] and [Mongo.upsertDocument] are what follows the
    guard. *)
Definition findDocuments (st : State) (db collection : string)
    (filter : StockFilter) (options : option Mongo.FindOptions)
  : M (list StockData) :=
  guarded st (Mongo.findDocuments db collection filter options).

Definition upsertDocument (st : State) (db collection : string)
    (filter : StockFilter) (doc : StockData) : M bool :=
  guarded st (Mongo.upsertDocument db collection filter doc).

End Connection.

(** ** Keys *)

(** A key as a request can carry it: not empty, with no white space at
    either end and no line feed inside. *)
Definition isClean (k : string) : bool :=
  let cs := list_ascii_of_string k in
  match cs with
  | [] => false
  | c :: _ =>
      negb (Js.isWhiteSpace c)
      && negb (Js.isWhiteSpace (List.last cs c))
      && forallb (fun a => negb (Ascii.eqb a LF)) cs
  end.

Definition cleanPool (w : World) : Prop :=
  Forall (fun k => isClean k = true) (apiKeys w).

(** The filter value and the document that the loop of [pullNews] hands to
    the store for an item that is not [null]. *)
Definition upsertOf (item : Json) : Value * list (string * NewsField) :=
  (readProp item "time_published",
   newsDocOf (readProp item "title") (readProp item "url")
     (readProp item "time_published") (readProp item "authors")
     (readProp item "summary") (readProp item "banner_image")
     (readProp item "source") (readProp item "category_within_source")
     (readProp item "source_domain") (readProp item "topics")
     (readProp item "overall_sentiment_score")
     (readProp item "overall_sentiment_label")
     (readProp item "ticker_sentiment")).

(** The upserts of a list of pairs, in order. *)
Definition upsertEach (upsertNews : Value → list (string * NewsField) → M bool)
    (pairs : list (Value * list (string * NewsField))) : M unit :=
  forEach pairs tt (fun _ pair => upsertNews (fst pair) (snd pair) ;; ret tt).

(** The remote API answers the request at [url] by a status in 200-299 and
    a body that decodes to a value with no truthy error field and the feed
    [items]. *)
Definition newsAnswers (env : Env) (url : string) (items : list Json) : Prop :=
  ∃ r data,
    remote env url = FetchResponse r
    ∧ ok r = true
    ∧ body r = JsonValue data
    ∧ data ≠ JNull
    ∧ JsValue.truthy (apiError data) = false
    ∧ readProp data "feed" = Some (JArr items).

(** What the answer to the request at [url] gives [pullNews] before its
    loop: the feed, or the message of the error. *)
Definition feedOf (env : Env) (url : string) : Result (list Json) :=
  match remote env url with
  | FetchError msg => Throw ("Failed to fetch news data: " +:+ msg)
  | FetchResponse r =>
      if negb (ok r) then
        Throw ("API request failed with status " +:+ pretty (status r)
               +:+ ": " +:+ statusText r)
      else
        match body r with
        | JsonError msg => Throw ("Failed to parse API response as JSON: " +:+ msg)
        | JsonValue JNull => Throw (nullReadMessage env "data" "Error")
        | JsonValue data =>
            if JsValue.truthy (apiError data) then
              Throw ("Alpha Vantage API error: " +:+ JsValue.toString (apiError data))
            else
              match readProp data "feed" with
              | Some (JArr items) => Ok items
              | _ => Throw "Invalid API response: missing or invalid 'feed' field"
              end
        end
  end.

(** A store that only notes the filter of each upsert. *)
Definition notingUpsert (t : Value) (doc : list (string * NewsField)) : M bool :=
  emit (Invoke "upsertDocument" (JsValue.toString t)) ;; ret true.

Definition newsItem (published headline : string) : Json :=
  JObj [("title", JStr headline); ("time_published", JStr published);
        ("overall_sentiment_score", JNum "0.25")].

(** Two articles of the same second, then one of the next day. *)
Definition scenarioFeed : list Json :=
  [newsItem "20251222T101500" "First"; newsItem "20251222T101500" "Second";
   newsItem "20251223T090000" "Third"].

Definition newsEnv : Env :=
  answering (fileOf ["K1"]) (JObj [("feed", JArr scenarioFeed)]).

(** * Properties *)

Ltac unfold_M :=
  unfold bind, ret, throw, gets, modify, tryCatch, emit, setApiKeys,
    setCurrentKeyIndex, setCollection in *.

(** ** Key rotation *)

Section KeyRotation.

Context (env : Env).

Lemma getKey_loaded (w : World) :
  apiKeys w ≠ [] →
  getKey env w =
    (Ok (keyAt (apiKeys w) (currentKeyIndex w)),
     withCurrentKeyIndex ((currentKeyIndex w + 1) mod length (apiKeys w)) w).
Proof.
  intros Hne. unfold getKey, bind, gets. simpl.
  destruct (apiKeys w) as [|k ks] eqn:E; [done|].
  simpl. unfold ret, setCurrentKeyIndex, modify. simpl. rewrite E. reflexivity.
Qed.

Lemma withCurrentKeyIndex_same (w : World) :
  withCurrentKeyIndex (currentKeyIndex w) w = w.
Proof. by destruct w. Qed.

Lemma getKeys_loaded (n : nat) : ∀ w : World,
  apiKeys w ≠ [] →
  currentKeyIndex w < length (apiKeys w) →
  getKeys env n w =
    (Ok (map (fun i => keyAt (apiKeys w) ((currentKeyIndex w + i) mod length (apiKeys w)))
             (seq 0 n)),
     withCurrentKeyIndex ((currentKeyIndex w + n) mod length (apiKeys w)) w).
Proof.
  induction n as [|n IH]; intros w Hne Hlt.
  - simpl. unfold ret. rewrite Nat.add_0_r, Nat.mod_small by done.
    by rewrite withCurrentKeyIndex_same.
  - assert (HN : length (apiKeys w) ≠ 0) by (destruct (apiKeys w); simpl; [done | lia]).
    cbn [getKeys]. unfold bind at 1. rewrite getKey_loaded by done.
    unfold bind at 1. rewrite IH; simpl.
    + unfold ret. rewrite Nat.add_0_r, (Nat.mod_small _ _ Hlt).
      rewrite <- seq_shift, map_map. f_equal.
      * do 2 f_equal. apply map_ext. intros i.
        rewrite Nat.Div0.add_mod_idemp_l. do 2 f_equal. lia.
      * unfold withCurrentKeyIndex. simpl. f_equal.
        rewrite Nat.Div0.add_mod_idemp_l. f_equal. lia.
    + done.
    + by apply Nat.mod_upper_bound.
Qed.

Lemma cyclic_read (pool : list string) (c : nat) :
  c < length pool →
  map (fun i => keyAt pool ((c + i) mod length pool)) (seq 0 (length pool))
  = fromCursor c pool.
Proof.
  intros Hc. apply list_eq. intros i. unfold fromCursor.
  destruct (decide (i < length pool)) as [Hi|Hi].
  - rewrite list_lookup_fmap, lookup_seq_lt by done. simpl.
    destruct (decide (c + i < length pool)) as [Hs|Hs].
    + rewrite Nat.mod_small by done.
      rewrite lookup_app_l by (rewrite length_drop; lia).
      rewrite lookup_drop. unfold keyAt.
      destruct (lookup_lt_is_Some_2 pool (c + i) Hs) as [x Hx]. by rewrite Hx.
    + assert (Hm : (c + i) mod length pool = c + i - length pool).
      { symmetry. apply (Nat.mod_unique _ _ 1); lia. }
      rewrite Hm, lookup_app_r by (rewrite length_drop; lia).
      rewrite length_drop, lookup_take_lt by lia.
      replace (i - (length pool - c)) with (c + i - length pool) by lia.
      unfold keyAt.
      destruct (lookup_lt_is_Some_2 pool (c + i - length pool)) as [x Hx]; [lia|].
      by rewrite Hx.
  - rewrite !lookup_ge_None_2; [done | |].
    + rewrite length_app, length_drop, length_take. lia.
    + rewrite length_map, length_seq. lia.
Qed.

(** The hypotheses on the cursor below hold in every state that the
    process reaches. *)
Lemma getKey_cursorInRange (w w' : World) (res : Result string) :
  cursorInRange w → getKey env w = (res, w') → cursorInRange w'.
Proof.
  intros Hinv Hrun. destruct (apiKeys w) as [|k ks] eqn:E.
  - assert (Hload :
      getKey env w =
        match keylist env with
        | FileError msg =>
            (Throw (if Js.includes "No such file" msg
                    then ".keylist file not found" else msg),
             logged (ReadFile ".keylist") w)
        | FileContent content =>
            match parseKeylist content with
            | [] => (Throw ".keylist file is empty",
                     withApiKeys [] (logged (ReadFile ".keylist") w))
            | keys =>
                (Ok (keyAt keys (currentKeyIndex w)),
                 withCurrentKeyIndex ((currentKeyIndex w + 1) mod length keys)
                   (withApiKeys keys (logged (ReadFile ".keylist") w)))
            end
        end).
    { unfold getKey, loadKeys, readText. unfold_M. rewrite E. simpl.
      destruct (keylist env) as [msg|content].
      - by destruct (Js.includes "No such file" msg).
      - simpl. by destruct (parseKeylist content). }
    rewrite Hload in Hrun. clear Hload.
    destruct Hinv as [[_ Hc]|Hc]; [|rewrite E in Hc; simpl in Hc; lia].
    destruct (keylist env) as [msg|content].
    + injection Hrun as <- <-. by left.
    + destruct (parseKeylist content) as [|k ks] eqn:P.
      * injection Hrun as <- <-. by left.
      * assert (Hw : w' = withCurrentKeyIndex
                            ((currentKeyIndex w + 1) mod length (k :: ks))
                            (withApiKeys (k :: ks) (logged (ReadFile ".keylist") w)))
          by congruence.
        rewrite Hw. right.
        change ((currentKeyIndex w + 1) mod length (k :: ks) < length (k :: ks)).
        by apply Nat.mod_upper_bound.
  - rewrite getKey_loaded in Hrun by (rewrite E; discriminate).
    assert (Hw : w' = withCurrentKeyIndex
                        ((currentKeyIndex w + 1) mod length (apiKeys w)) w)
      by congruence.
    rewrite Hw. right.
    change ((currentKeyIndex w + 1) mod length (apiKeys w) < length (apiKeys w)).
    apply Nat.mod_upper_bound. by rewrite E.
Qed.

Lemma initialWorld_cursorInRange : cursorInRange initialWorld.
Proof. by left. Qed.

End KeyRotation.

(** C3. Round robin: with a non-empty pool of [N] keys loaded and the cursor
    at [c], a call of [getKey] returns the key at the cursor and moves the
    cursor to [(c + 1) mod N]; [N] calls in a row return the pool read
    cyclically from [c], which holds every entry of the pool exactly once,
    and leave the process where it was, so that call [N + 1] returns what
    call 1 returned.  With the key file [K1, K2, K3], five calls in a fresh
    process return K1, K2, K3, K1, K2. *)
Theorem getKey_round_robin (env : Env) (w : World) :
  apiKeys w ≠ [] →
  currentKeyIndex w < length (apiKeys w) →
  let pool := apiKeys w in
  let N := length pool in
  let c := currentKeyIndex w in
  getKey env w = (Ok (keyAt pool c), withCurrentKeyIndex ((c + 1) mod N) w)
  ∧ pool !! c = Some (keyAt pool c)
  ∧ getKeys env N w = (Ok (fromCursor c pool), w)
  ∧ Permutation (fromCursor c pool) pool
  ∧ (∃ ks w', getKeys env (S N) w = (Ok ks, w')
              ∧ take N ks = fromCursor c pool
              ∧ ks !! N = ks !! 0
              ∧ ks !! 0 = Some (keyAt pool c))
  ∧ fst (getKeys (withKeylist (fileOf ["K1"; "K2"; "K3"]) env) 5 initialWorld)
    = Ok ["K1"; "K2"; "K3"; "K1"; "K2"].
Proof.
  intros Hne Hlt pool N c.
  assert (HN : N ≠ 0) by (subst N pool; destruct (apiKeys w); simpl; [done | lia]).
  assert (Hall : getKeys env N w = (Ok (fromCursor c pool), w)).
  { subst N pool c. rewrite getKeys_loaded, cyclic_read by done.
    replace (currentKeyIndex w + length (apiKeys w))
      with (currentKeyIndex w + 1 * length (apiKeys w)) by lia.
    rewrite Nat.Div0.mod_add, (Nat.mod_small _ _ Hlt).
    by rewrite withCurrentKeyIndex_same. }
  split_and!.
  - by apply getKey_loaded.
  - unfold keyAt. destruct (lookup_lt_is_Some_2 pool c Hlt) as [x Hx]. by rewrite Hx.
  - done.
  - unfold fromCursor. rewrite Permutation_app_comm, take_drop. done.
  - rewrite getKeys_loaded by done. eexists _, _. split; [reflexivity|].
    fold pool N c.
    replace (seq 0 (S N)) with (seq 0 N ++ [N]) by (by rewrite seq_S).
    rewrite map_app. simpl.
    assert (Hlen : length (map (λ i, keyAt pool ((c + i) mod N)) (seq 0 N)) = N)
      by (by rewrite length_map, length_seq).
    split_and!.
    + rewrite take_app_length' by done. by apply cyclic_read.
    + rewrite lookup_app_r by lia. rewrite Hlen, Nat.sub_diag.
      rewrite lookup_app_l by lia.
      rewrite list_lookup_fmap, lookup_seq_lt by lia. simpl.
      replace (c + N) with (c + 1 * N) by lia.
      by rewrite Nat.Div0.mod_add, Nat.add_0_r.
    + rewrite lookup_app_l by lia.
      rewrite list_lookup_fmap, lookup_seq_lt by lia. simpl.
      rewrite Nat.add_0_r. subst c N pool. by rewrite (Nat.mod_small _ _ Hlt).
  - vm_compute. reflexivity.
Qed.

Lemma getKey_round_robin_witness :
  getKeys (offline (FileError "ENOENT")) 3 threeKeys = (Ok ["K2"; "K3"; "K1"], threeKeys)
  ∧ fst (getKey (offline (FileError "ENOENT")) threeKeys) = Ok "K2".
Proof.
  pose proof (getKey_round_robin (offline (FileError "ENOENT")) threeKeys
                ltac:(discriminate) ltac:(simpl; lia)) as H.
  simpl in H. destruct H as (H1 & _ & H3 & _). split.
  - exact H3.
  - rewrite H1. reflexivity.
Defined.

Lemma parseKeylist_In (content k : string) :
  In k (parseKeylist content)
  ↔ k ≠ EmptyString ∧ ∃ line, In line (Js.split LF content) ∧ k = Js.trim line.
Proof.
  unfold parseKeylist. rewrite filter_In, in_map_iff. split.
  - intros [(line & <- & Hin) Hlen]. split; [|by exists line].
    intros E. rewrite E in Hlen. discriminate.
  - intros [Hk (line & Hin & ->)]. split; [by exists line|].
    destruct (Js.trim line); [done | reflexivity].
Qed.

(** C9. Lazy, one-time loading of the pool.  In a process with no key
    loaded, [getKey] reads [.keylist] once; the pool is the trimmed lines
    that are not empty, in order; the call fails when the file cannot be
    read and when no line is left, and otherwise returns the key at the
    cursor.  Once keys are loaded, [getKey] does not read the file: it adds
    nothing to the trace and its outcome is the same whatever the file
    holds. *)
Theorem getKey_loads_once (env : Env) (w : World) :
  (∀ content k,
      In k (parseKeylist content)
      ↔ k ≠ EmptyString ∧ ∃ line, In line (Js.split LF content) ∧ k = Js.trim line)
  ∧ (apiKeys w = [] →
     match keylist env with
     | FileError msg =>
         ∃ m, getKey env w = (Throw m, logged (ReadFile ".keylist") w)
     | FileContent content =>
         let keys := parseKeylist content in
         let loaded := withApiKeys keys (logged (ReadFile ".keylist") w) in
         match keys with
         | [] => getKey env w = (Throw ".keylist file is empty", loaded)
         | _ :: _ =>
             getKey env w =
               (Ok (keyAt keys (currentKeyIndex w)),
                withCurrentKeyIndex ((currentKeyIndex w + 1) mod length keys) loaded)
         end
     end)
  ∧ (apiKeys w ≠ [] →
     ∀ env' : Env,
       getKey env' w = getKey env w
       ∧ trace (snd (getKey env w)) = trace w
       ∧ apiKeys (snd (getKey env w)) = apiKeys w).
Proof.
  split_and!.
  - apply parseKeylist_In.
  - intros Hnil. unfold getKey, loadKeys, readText. unfold_M. rewrite Hnil. simpl.
    destruct (keylist env) as [msg|content].
    + destruct (Js.includes "No such file" msg); eauto.
    + simpl. destruct (parseKeylist content) as [|k ks]; simpl; reflexivity.
  - intros Hne env'. rewrite !getKey_loaded by done. simpl. done.
Qed.

Lemma getKey_loads_once_first_call :
  fst (getKey (offline (fileOf [" K1 "; EmptyString; "K2"])) initialWorld) = Ok "K1"
  ∧ apiKeys (snd (getKey (offline (fileOf [" K1 "; EmptyString; "K2"])) initialWorld))
    = ["K1"; "K2"]
  ∧ fst (getKey (offline (fileOf [" "; EmptyString])) initialWorld)
    = Throw ".keylist file is empty"
  ∧ fst (getKey (offline (FileError "ENOENT: no such file or directory, open '.keylist'"))
           initialWorld)
    = Throw "ENOENT: no such file or directory, open '.keylist'".
Proof. vm_compute. done. Qed.

(** ** Dates *)

Lemma isDigit_not_dash (c : ascii) :
  Js.isDigit c = true → Ascii.eqb c "-" = false.
Proof.
  destruct c as [[] [] [] [] [] [] [] []]; vm_compute; congruence.
Qed.

Lemma isEightDigits_true (d : string) :
  Js.isEightDigits d = true
  ↔ String.length d = 8 ∧ ∀ c, In c (list_ascii_of_string d) → Js.isDigit c = true.
Proof.
  unfold Js.isEightDigits, Js.allDigits.
  rewrite andb_true_iff, Nat.eqb_eq, forallb_forall. done.
Qed.

Lemma formatStockDate_valid (d : string) (w : World) :
  Js.isEightDigits d = true →
  ∃ f, formatStockDate d w = (Ok f, w) ∧ String.length f = 10 ∧ removeDashes f = d.
Proof.
  intros H. unfold formatStockDate. rewrite H. simpl.
  apply isEightDigits_true in H as [Hlen Hdig].
  destruct d as [|c1 [|c2 [|c3 [|c4 [|c5 [|c6 [|c7 [|c8 [|? ?]]]]]]]]];
    try discriminate Hlen.
  assert (E : ∀ c, In c [c1; c2; c3; c4; c5; c6; c7; c8] → Ascii.eqb c "-" = false)
    by (intros c Hc; apply isDigit_not_dash, Hdig, Hc).
  eexists. split; [reflexivity|]. split; [reflexivity|].
  unfold removeDashes. cbv -[Ascii.eqb negb].
  rewrite (E c1), (E c2), (E c3), (E c4), (E c5), (E c6), (E c7), (E c8)
    by (simpl; auto 12).
  reflexivity.
Qed.

Lemma formatStockDate_invalid (d : string) (w : World) :
  Js.isEightDigits d = false →
  formatStockDate d w = (Throw (invalidDate d), w).
Proof. intros H. unfold formatStockDate. rewrite H. reflexivity. Qed.

Lemma isEightDigits_false (d : string) :
  Js.isEightDigits d = false
  ↔ String.length d ≠ 8
    ∨ ∃ c, In c (list_ascii_of_string d) ∧ Js.isDigit c = false.
Proof.
  unfold Js.isEightDigits, Js.allDigits.
  rewrite andb_false_iff, Nat.eqb_neq. split; (intros [H|H]; [by left | right]).
  - revert H. induction (list_ascii_of_string d) as [|c l IH]; [done|].
    simpl. rewrite andb_false_iff. intros [H|H].
    + exists c. auto.
    + destruct (IH H) as (c' & ? & ?). exists c'. auto.
  - destruct H as (c & Hin & Hc).
    destruct (forallb Js.isDigit (list_ascii_of_string d)) eqn:E; [|done].
    rewrite forallb_forall in E. rewrite (E c Hin) in Hc. discriminate.
Qed.

(** C8, as amended.  On the strings of eight digits [formatStockDate] is
    one to one: the result has ten characters, deleting its dashes gives the
    argument back, and two arguments with the same result are equal.  A
    string that has another length or holds a character that is not a digit
    makes it throw.  [processGetStockPrices] throws that error for every
    such date that is not the empty string, with the process left as it was:
    nothing is read from the store and nothing is fetched.  The empty date
    is taken as no date. *)
Theorem formatStockDate_bijection (env : Env) :
  (∀ d w, Js.isEightDigits d = true →
     ∃ f, formatStockDate d w = (Ok f, w)
          ∧ String.length f = 10 ∧ removeDashes f = d)
  ∧ (∀ d1 d2 w1 w2 f w1' w2',
       formatStockDate d1 w1 = (Ok f, w1') →
       formatStockDate d2 w2 = (Ok f, w2') → d1 = d2)
  ∧ (∀ d, Js.isEightDigits d = false
          ↔ String.length d ≠ 8
            ∨ ∃ c, In c (list_ascii_of_string d) ∧ Js.isDigit c = false)
  ∧ (∀ d w, Js.isEightDigits d = false →
       formatStockDate d w = (Throw (invalidDate d), w))
  ∧ (∀ symbol d w, d ≠ EmptyString → Js.isEightDigits d = false →
       processGetStockPrices env symbol (Some d) w = (Throw (invalidDate d), w))
  ∧ (∀ symbol w,
       processGetStockPrices env symbol (Some EmptyString) w
       = processGetStockPrices env symbol None w).
Proof.
  split_and!.
  - apply formatStockDate_valid.
  - intros d1 d2 w1 w2 f w1' w2' H1 H2.
    destruct (Js.isEightDigits d1) eqn:E1;
      [|rewrite formatStockDate_invalid in H1 by done; discriminate].
    destruct (Js.isEightDigits d2) eqn:E2;
      [|rewrite formatStockDate_invalid in H2 by done; discriminate].
    destruct (formatStockDate_valid d1 w1 E1) as (f1 & Hf1 & _ & R1).
    destruct (formatStockDate_valid d2 w2 E2) as (f2 & Hf2 & _ & R2).
    congruence.
  - apply isEightDigits_false.
  - apply formatStockDate_invalid.
  - intros symbol d w Hd Hbad. unfold processGetStockPrices.
    destruct d as [|c d]; [done|]. simpl.
    unfold queryDate, bind. by rewrite formatStockDate_invalid.
  - reflexivity.
Qed.

(** C8, as stated, fails at the empty date: it has the wrong length, and
    the tool answers it after a read of the store and a call of the remote
    API. *)
Lemma empty_date_is_not_rejected :
  Js.isEightDigits EmptyString = false
  ∧ ∃ r w',
      processGetStockPrices (offline (fileOf ["K1"])) "AAPL" (Some EmptyString)
        initialWorld = (Ok r, w')
      ∧ trace w' =
          [Find "finance" "stock-AAPL"; Invoke "pullStock" "AAPL";
           ReadFile ".keylist";
           HttpGet "https://www.alphavantage.co/query?function=TIME_SERIES_DAILY&symbol=AAPL&apikey=K1"].
Proof.
  split; [reflexivity|]. eexists _, _. split; [vm_compute; reflexivity|].
  reflexivity.
Qed.

(** ** News queries *)

Lemma formatNewsTime_valid (d : string) (isEnd : bool) (w : World) :
  Js.isEightDigits d = true →
  formatNewsTime d isEnd w
  = (Ok (if isEnd then d +:+ "T2359" else d +:+ "T0000"), w).
Proof. intros H. unfold formatNewsTime. by rewrite H. Qed.

Lemma matchesNews_selected (env : Env) (from to : string) (keyword : option string)
    (articles : list NewsItem) :
  List.filter (Mongo.matchesNews env
                 {| Mongo.gte := from +:+ "T0000"; Mongo.lte := to +:+ "T2359";
                    Mongo.orRegex := keywordFilter keyword |}) articles
  = selected env from to keyword articles.
Proof.
  unfold selected, Mongo.matchesNews, inRange, keywordHit. simpl.
  destruct (keywordFilter keyword) as [[k o]|] eqn:E.
  - assert (o = "i") as ->.
    { unfold keywordFilter in E. destruct keyword as [k'|]; [|done].
      destruct (Js.truthyString k'); congruence. }
    done.
  - apply filter_ext. intros a. by rewrite andb_true_r.
Qed.

Lemma processGetNews_run (env : Env) (from to : string) (keyword : option string)
    (w : World) :
  Js.isEightDigits from = true →
  Js.isEightDigits to = true →
  rejection env keyword = None →
  ∃ msg,
    processGetNews env from to keyword w
    = (Ok {| newsMessage := msg;
             count := length (selected env from to keyword (news w));
             newsData := selected env from to keyword (news w) |},
       logged (Find "finance" "news") w).
Proof.
  intros Hfrom Hto Hacc. unfold processGetNews.
  unfold bind at 1. rewrite formatNewsTime_valid by done.
  unfold bind at 1. rewrite formatNewsTime_valid by done.
  unfold Mongo.findNewsDocuments, Mongo.refusal. unfold_M. simpl.
  unfold rejection in Hacc. rewrite Hacc. simpl.
  rewrite matchesNews_selected.
  destruct (selected env from to keyword (news w)); eexists; reflexivity.
Qed.

(** A keyword that the store refuses as a regular expression ends the
    query with the error of the store. *)
Lemma processGetNews_refused (env : Env) (from to : string)
    (keyword : option string) (w : World) (message : string) :
  Js.isEightDigits from = true →
  Js.isEightDigits to = true →
  rejection env keyword = Some message →
  processGetNews env from to keyword w
  = (Throw message, logged (Find "finance" "news") w).
Proof.
  intros Hfrom Hto Hrej. unfold processGetNews.
  unfold bind at 1. rewrite formatNewsTime_valid by done.
  unfold bind at 1. rewrite formatNewsTime_valid by done.
  unfold Mongo.findNewsDocuments, Mongo.refusal. unfold_M. simpl.
  unfold rejection in Hrej. by rewrite Hrej.
Qed.

Section StringOrder.

Lemma ascii_compare_refl (c : ascii) : Ascii.compare c c = Eq.
Proof. unfold Ascii.compare. apply N.compare_refl. Qed.

Lemma append_cons (c : ascii) (s t : string) :
  String c s +:+ t = String c (s +:+ t).
Proof. reflexivity. Qed.

Lemma compare_append_same (p x y : string) :
  String.compare (p +:+ x) (p +:+ y) = String.compare x y.
Proof.
  induction p as [|c p IH]; [done|].
  rewrite !append_cons. cbn [String.compare]. by rewrite ascii_compare_refl.
Qed.

Lemma compare_append (a b x y : string) :
  String.length a = String.length b →
  String.compare (a +:+ x) (b +:+ y)
  = match String.compare a b with
    | Eq => String.compare x y
    | r => r
    end.
Proof.
  revert b. induction a as [|c a IH]; intros [|d b] Hlen; try discriminate Hlen.
  - reflexivity.
  - rewrite !append_cons. cbn [String.compare].
    destruct (Ascii.compare c d); [|done..].
    apply IH. simpl in Hlen. lia.
Qed.

Lemma append_empty_r (s : string) : s +:+ EmptyString = s.
Proof. induction s as [|c s IH]; [done|]. by rewrite append_cons, IH. Qed.

(** A string is less than every proper extension of it. *)
Lemma leb_extension (p s : string) :
  s ≠ EmptyString → String.leb (p +:+ s) p = false ∧ String.ltb p (p +:+ s) = true.
Proof.
  intros Hs. unfold String.leb, String.ltb.
  rewrite <- (append_empty_r p) at 2 3.
  rewrite !compare_append_same. by destruct s.
Qed.

Lemma length_append (s t : string) :
  String.length (s +:+ t) = String.length s + String.length t.
Proof. induction s as [|c s IH]; [done|]. rewrite append_cons. simpl. by rewrite IH. Qed.

Lemma append_assoc (s t u : string) : s +:+ t +:+ u = (s +:+ t) +:+ u.
Proof. induction s as [|c s IH]; [done|]. by rewrite !append_cons, IH. Qed.

End StringOrder.

Lemma selected_In (env : Env) (from to : string) (keyword : option string)
    (articles : list NewsItem) (a : NewsItem) :
  In a (selected env from to keyword articles)
  ↔ In a articles ∧ inRange from to a = true
    ∧ match keywordFilter keyword with
      | Some (k, _) => regex env k "i" (title a) = true
                       ∨ regex env k "i" (summary a) = true
      | None => True
      end.
Proof.
  unfold selected. destruct (keywordFilter keyword) as [[k o]|].
  - rewrite filter_In, andb_true_iff. unfold keywordHit.
    rewrite orb_true_iff. tauto.
  - rewrite filter_In. tauto.
Qed.

(** C7. [processGetNews] with two dates of eight digits and a keyword that
    the store does not refuse as a regular expression (no keyword and the
    empty keyword are never refused) returns, without throwing, the stored
    articles whose [time_published] is between [from ++ T0000] and
    [to ++ T2359]; with a keyword, those of them whose title or whose
    summary the store's [$regex] with option [i] matches, and no other;
    without a keyword, all of them.  An empty selection gives a result with
    count [0] and no data.  The run only reads the store: the collections
    and the key pool are left as they were, and the one event it adds is
    the [Find] on [news], so nothing is fetched.  With a keyword that the
    store refuses, the call throws the error of the store, after the same
    one event and with the same collections and pool. *)
Theorem processGetNews_selects (env : Env) (from to : string)
    (keyword : option string) (w : World) :
  Js.isEightDigits from = true →
  Js.isEightDigits to = true →
  (rejection env keyword = None →
   ∃ r w',
     processGetNews env from to keyword w = (Ok r, w')
     ∧ newsData r = selected env from to keyword (news w)
     ∧ count r = length (newsData r)
     ∧ (∀ k, keyword = Some k → k ≠ EmptyString →
          ∀ a, In a (newsData r)
               ↔ In a (news w) ∧ inRange from to a = true
                 ∧ (regex env k "i" (title a) = true
                    ∨ regex env k "i" (summary a) = true))
     ∧ (keyword = None → newsData r = List.filter (inRange from to) (news w))
     ∧ (keyword = Some EmptyString →
          newsData r = List.filter (inRange from to) (news w))
     ∧ (newsData r = [] → count r = 0)
     ∧ trace w' = trace w ++ [Find "finance" "news"]
     ∧ stocks w' = stocks w ∧ news w' = news w
     ∧ apiKeys w' = apiKeys w ∧ currentKeyIndex w' = currentKeyIndex w)
  ∧ (keyword = None ∨ keyword = Some EmptyString → rejection env keyword = None)
  ∧ (∀ message, rejection env keyword = Some message →
       ∃ k w',
         keyword = Some k ∧ k ≠ EmptyString
         ∧ regexError env k "i" = Some message
         ∧ processGetNews env from to keyword w = (Throw message, w')
         ∧ trace w' = trace w ++ [Find "finance" "news"]
         ∧ stocks w' = stocks w ∧ news w' = news w
         ∧ apiKeys w' = apiKeys w ∧ currentKeyIndex w' = currentKeyIndex w).
Proof.
  intros Hfrom Hto. split_and!.
  - intros Hacc.
    destruct (processGetNews_run env from to keyword w Hfrom Hto Hacc) as [msg Hrun].
    eexists _, _. split; [exact Hrun|]. simpl. split_and!; try done.
    + intros k -> Hk a. rewrite selected_In. simpl.
      destruct k; [done|]. simpl. tauto.
    + by intros ->.
    + by intros ->.
    + by intros ->.
  - by intros [-> | ->].
  - intros message Hrej.
    pose proof (processGetNews_refused env from to keyword w message Hfrom Hto Hrej)
      as Hrun.
    unfold rejection, keywordFilter in Hrej.
    destruct keyword as [k|]; [|discriminate].
    destruct (Js.truthyString k) eqn:Hk; [|discriminate].
    exists k, (logged (Find "finance" "news") w).
    split_and!; try done. intros ->. discriminate Hk.
Qed.

Lemma processGetNews_selects_witness :
  ∃ r w',
    processGetNews plainStore "20251221" "20251222" (Some "trading") newsroom
    = (Ok r, w')
    ∧ newsData r = [firstMinute; midday]
    ∧ trace w' = [Find "finance" "news"].
Proof.
  destruct (processGetNews_selects plainStore "20251221" "20251222"
              (Some "trading") newsroom eq_refl eq_refl) as [Hsel _].
  destruct (Hsel eq_refl)
    as (r & w' & Hrun & Hdata & _ & _ & _ & _ & _ & Htrace & _).
  exists r, w'. split; [exact Hrun|]. split; [exact Hdata | exact Htrace].
Defined.

(** A keyword that is not a regular expression: the query throws. *)
Lemma unclosed_group_keyword_throws :
  processGetNews plainStore "20251221" "20251222" (Some "(") newsroom
  = (Throw "Regular expression is invalid: missing closing parenthesis",
     logged (Find "finance" "news") newsroom).
Proof. reflexivity. Qed.

Lemma inRange_last_minute (from to ss : string) (a : NewsItem) :
  ss ≠ EmptyString →
  time_published a = to +:+ "T2359" +:+ ss →
  inRange from to a = false.
Proof.
  intros Hss Ht. unfold inRange. rewrite Ht.
  rewrite append_assoc. destruct (leb_extension (to +:+ "T2359") ss Hss) as [-> _].
  apply andb_false_r.
Qed.

Lemma inRange_first_minute (from to ss : string) (a : NewsItem) :
  String.length from = 8 → String.length to = 8 →
  String.leb from to = true →
  time_published a = from +:+ "T0000" +:+ ss →
  inRange from to a = true.
Proof.
  intros Hf Ht Hle Ha. unfold inRange. rewrite Ha. apply andb_true_iff. split.
  - unfold String.leb. rewrite <- (append_empty_r "T0000") at 1.
    rewrite compare_append_same.
    change ("T0000" +:+ EmptyString) with ("T0000" +:+ EmptyString).
    rewrite (compare_append_same "T0000" EmptyString ss). by destruct ss.
  - unfold String.leb in *. rewrite compare_append by lia.
    destruct (String.compare from to); [reflexivity | reflexivity | done].
Qed.

(** C10. The upper bound of the range is [to ++ T2359], thirteen
    characters long; a timestamp [to ++ T2359 ++ SS] with two more
    characters has fifteen, extends the bound and is therefore greater than
    it in the order of strings, so [processGetNews] leaves out every stored
    article published in the last minute of [to], whatever the seconds and
    the keyword: no result that it returns holds one, and it returns a
    result for every keyword that the store does not refuse.  An article
    published in the first minute of [from] is returned when [from] is not
    after [to] and no keyword is given. *)
Theorem processGetNews_last_minute_excluded (env : Env) (from to : string)
    (keyword : option string) (w : World) :
  Js.isEightDigits from = true →
  Js.isEightDigits to = true →
  String.length (to +:+ "T2359") = 13
  ∧ (∀ ss, String.length ss = 2 →
       String.length (to +:+ "T2359" +:+ ss) = 15
       ∧ String.ltb (to +:+ "T2359") ((to +:+ "T2359") +:+ ss) = true
       ∧ String.leb ((to +:+ "T2359") +:+ ss) (to +:+ "T2359") = false)
  ∧ (∀ r w', processGetNews env from to keyword w = (Ok r, w') →
       ∀ a ss, String.length ss = 2 →
         time_published a = to +:+ "T2359" +:+ ss →
         ¬ In a (newsData r))
  ∧ (rejection env keyword = None →
     ∃ r w',
       processGetNews env from to keyword w = (Ok r, w')
       ∧ (∀ a ss, String.length ss = 2 →
            time_published a = to +:+ "T2359" +:+ ss →
            ¬ In a (newsData r))
       ∧ (∀ a ss, In a (news w) →
            time_published a = from +:+ "T0000" +:+ ss →
            String.leb from to = true →
            keyword = None →
            In a (newsData r))).
Proof.
  intros Hfrom Hto.
  pose proof (proj1 (isEightDigits_true from) Hfrom) as [Hlf _].
  pose proof (proj1 (isEightDigits_true to) Hto) as [Hlt _].
  assert (Hout : ∀ a ss, String.length ss = 2 →
                   time_published a = to +:+ "T2359" +:+ ss →
                   ¬ In a (selected env from to keyword (news w))).
  { intros a ss Hss Ha Hin. apply selected_In in Hin as (_ & Hr & _).
    rewrite (inRange_last_minute from to ss a) in Hr; [done | by destruct ss | done]. }
  split_and!.
  - rewrite length_append, Hlt. reflexivity.
  - intros ss Hss. assert (Hne : ss ≠ EmptyString) by (by destruct ss).
    split_and!.
    + rewrite !length_append, Hlt, Hss. reflexivity.
    + by apply leb_extension.
    + by apply leb_extension.
  - intros r w' Hrun. destruct (rejection env keyword) as [message|] eqn:Hrej.
    + rewrite (processGetNews_refused env from to keyword w message) in Hrun by done.
      discriminate Hrun.
    + destruct (processGetNews_run env from to keyword w Hfrom Hto Hrej) as [msg Hrun'].
      rewrite Hrun in Hrun'. injection Hrun' as -> _. exact Hout.
  - intros Hacc.
    destruct (processGetNews_run env from to keyword w Hfrom Hto Hacc) as [msg Hrun].
    eexists _, _. split; [exact Hrun|]. simpl. split; [exact Hout|].
    intros a ss Hin Ha Hle ->. apply selected_In. simpl.
    split_and!; [done | by eapply inRange_first_minute | done].
Qed.

Lemma processGetNews_last_minute_excluded_witness :
  ∃ r w',
    processGetNews plainStore "20251221" "20251222" None newsroom = (Ok r, w')
    ∧ In lastMinute (news newsroom)
    ∧ ¬ In lastMinute (newsData r)
    ∧ In firstMinute (newsData r).
Proof.
  destruct (processGetNews_last_minute_excluded plainStore "20251221" "20251222"
              None newsroom eq_refl eq_refl) as (_ & _ & _ & Hex).
  destruct (Hex eq_refl) as (r & w' & Hrun & Hout & Hin).
  exists r, w'. split; [exact Hrun|]. split_and!.
  - simpl. tauto.
  - exact (Hout lastMinute "30" eq_refl eq_refl).
  - exact (Hin firstMinute "30" ltac:(simpl; tauto) eq_refl eq_refl eq_refl).
Defined.

(** ** Pulling prices *)

Section PullStock.

Context (env : Env).

Lemma getProp_not_null (var : string) (obj : Json) (k : string) (w : World) :
  obj ≠ JNull → getProp env var obj k w = (Ok (readProp obj k), w).
Proof. by destruct obj. Qed.

Lemma storeEntry_not_null (symbol : string) (n : nat) (entry : string * Json)
    (w : World) :
  snd entry ≠ JNull →
  storeEntry env symbol n entry w = (Ok (n + 1), storedEntry symbol w entry).
Proof.
  destruct entry as [d v]. simpl. intros Hv. unfold storeEntry.
  unfold bind. rewrite !getProp_not_null by done.
  unfold Mongo.upsertDocument. unfold_M. reflexivity.
Qed.

Lemma forEach_storeEntry (symbol : string) (entries : list (string * Json)) :
  ∀ (n : nat) (w : World),
    Forall (fun e => snd e ≠ JNull) entries →
    forEach entries n (storeEntry env symbol) w
    = (Ok (n + length entries), storedEntries symbol entries w).
Proof.
  induction entries as [|e entries IH]; intros n w Hall.
  - simpl. unfold ret. by rewrite Nat.add_0_r.
  - inversion Hall as [|? ? He Hrest]; subst. cbn [forEach]. unfold bind at 1.
    rewrite storeEntry_not_null by done. rewrite IH by done.
    simpl. do 2 f_equal. lia.
Qed.

Lemma partition_logged (e : Event) (w : World) (symbol : string) :
  partition (logged e w) symbol = partition w symbol.
Proof. reflexivity. Qed.

Lemma partition_storedEntry (symbol : string) (w : World) (e : string * Json) :
  partition (storedEntry symbol w e) symbol
  = Mongo.replaceOne (DateIs (fst e)) (docOfEntry symbol e) (partition w symbol).
Proof.
  unfold partition at 1, Mongo.collectionOf, storedEntry, withCollection. simpl.
  by rewrite lookup_insert_eq.
Qed.

Lemma partition_storedEntries (symbol : string) (entries : list (string * Json)) :
  ∀ w, partition (storedEntries symbol entries w) symbol
       = upsertAll symbol entries (partition w symbol).
Proof.
  induction entries as [|e entries IH]; intros w; [done|].
  unfold storedEntries, upsertAll in *. simpl.
  by rewrite IH, partition_storedEntry.
Qed.

Lemma trace_storedEntries (symbol : string) (entries : list (string * Json)) :
  ∀ w, trace (storedEntries symbol entries w)
       = trace w ++ map (upsertEvent symbol) entries.
Proof.
  induction entries as [|e entries IH]; intros w.
  - simpl. by rewrite app_nil_r.
  - unfold storedEntries in *. simpl. rewrite IH. simpl.
    by rewrite <- app_assoc.
Qed.

Lemma keys_storedEntries (symbol : string) (entries : list (string * Json)) :
  ∀ w, apiKeys (storedEntries symbol entries w) = apiKeys w
       ∧ currentKeyIndex (storedEntries symbol entries w) = currentKeyIndex w
       ∧ news (storedEntries symbol entries w) = news w.
Proof.
  induction entries as [|e entries IH]; intros w; [done|].
  unfold storedEntries in *. simpl. destruct (IH (storedEntry symbol w e)) as (-> & -> & ->).
  done.
Qed.

(** The loop stops at the first entry whose value is [null], with the
    entries before it stored. *)
Lemma forEach_storeEntry_null (symbol : string) (pre post : list (string * Json))
    (d : string) (n : nat) (w : World) :
  Forall (fun e => snd e ≠ JNull) pre →
  forEach (pre ++ (d, JNull) :: post) n (storeEntry env symbol) w
  = (Throw (nullReadMessage env "dailyData" "1. open"), storedEntries symbol pre w).
Proof.
  revert n w. induction pre as [|e pre IH]; intros n w Hall.
  - reflexivity.
  - inversion Hall; subst. cbn [forEach app]. unfold bind at 1.
    rewrite storeEntry_not_null by done. by rewrite IH.
Qed.

Lemma entries_null_or_not (entries : list (string * Json)) :
  Forall (fun e => snd e ≠ JNull) entries
  ∨ ∃ pre d post, entries = pre ++ (d, JNull) :: post
                  ∧ Forall (fun e => snd e ≠ JNull) pre.
Proof.
  induction entries as [|[d v] entries IH]; [by left|].
  assert (Hv : v = JNull ∨ v ≠ JNull) by (destruct v; (by left) || (by right)).
  destruct Hv as [->|Hv].
  - right. exists [], d, entries. by split.
  - destruct IH as [IH|(pre & d' & post & -> & Hpre)].
    + left. by constructor.
    + right. exists ((d, v) :: pre), d', post. split; [done|]. by constructor.
Qed.

Lemma getKey_outcome (w : World) :
  ∃ res w1,
    getKey env w = (res, w1)
    ∧ stocks w1 = stocks w ∧ news w1 = news w
    ∧ (trace w1 = trace w ∨ trace w1 = trace w ++ [ReadFile ".keylist"])
    ∧ (∀ key, res = Ok key → apiKeys w1 ≠ []).
Proof.
  destruct (apiKeys w) as [|k ks] eqn:E.
  - unfold getKey, loadKeys, readText. unfold_M. rewrite E. simpl.
    destruct (keylist env) as [msg|content].
    + destruct (Js.includes "No such file" msg); eexists _, _;
        (split; [reflexivity|]); simpl;
        (split_and!; [done | done | by right | intros; discriminate]).
    + simpl. destruct (parseKeylist content) as [|k ks] eqn:P; simpl;
        eexists _, _; (split; [reflexivity|]); simpl;
        (split_and!; [done | done | by right | intros; discriminate]).
  - eexists _, _. rewrite getKey_loaded by (rewrite E; discriminate).
    split; [reflexivity|]. simpl. rewrite E.
    split_and!; [done | done | by left | intros; discriminate].
Qed.

Lemma pullStock_success (symbol : string) (w w1 : World) (key : string)
    (r : Response) (data ts : Json) :
  getKey env (logged (Invoke "pullStock" symbol) w) = (Ok key, w1) →
  remote env (stockUrl symbol key) = FetchResponse r →
  ok r = true →
  body r = JsonValue data →
  data ≠ JNull →
  JsValue.truthy (apiError data) = false →
  readProp data timeSeriesField = Some ts →
  JsValue.truthyJson ts = true →
  Forall (fun e => snd e ≠ JNull) (JsValue.objectEntries ts) →
  pullStock env symbol w
  = (Ok (length (JsValue.objectEntries ts)),
     logged (Sleep 5000)
       (storedEntries symbol (JsValue.objectEntries ts)
          (logged (HttpGet (stockUrl symbol key)) w1))).
Proof.
  intros Hkey Hremote Hok Hbody Hdata Herr Hts Htruthy Hall.
  unfold pullStock. unfold bind at 1. unfold emit at 1, modify at 1.
  unfold bind at 1. rewrite Hkey.
  unfold bind at 1. unfold tryCatch at 1, fetch. unfold_M. simpl.
  rewrite Hremote, Hok. simpl. unfold json. rewrite Hbody. simpl.
  rewrite !getProp_not_null by done.
  fold (JsValue.orElse (readProp data "Error") (readProp data "Error Message")).
  destruct (JsValue.truthy (readProp data "Error")) eqn:E1.
  - unfold apiError, JsValue.orElse in Herr. rewrite E1 in Herr. congruence.
  - rewrite getProp_not_null by done.
    unfold apiError, JsValue.orElse in Herr. rewrite E1 in Herr. rewrite Herr.
    rewrite getProp_not_null by done.
    fold timeSeriesField. rewrite Hts. simpl. rewrite Htruthy. simpl.
    rewrite forEach_storeEntry by done. reflexivity.
Qed.

Lemma quiet_upserts (symbol : string) (entries : list (string * Json)) :
  Forall (fun e => isQuiet e = true) (map (upsertEvent symbol) entries).
Proof. induction entries; simpl; by constructor. Qed.

Lemma pullStock_outcome (symbol : string) (w : World) :
  ∃ res w' evs,
    pullStock env symbol w = (res, w')
    ∧ trace w' = trace w ++ Invoke "pullStock" symbol :: evs
    ∧ news w' = news w
    ∧ match res with
      | Throw _ => Forall (fun e => isQuiet e = true) evs
      | Ok n =>
          ∃ key w1 ts evs',
            getKey env (logged (Invoke "pullStock" symbol) w) = (Ok key, w1)
            ∧ pullSucceeds env symbol key ts
            ∧ n = length (JsValue.objectEntries ts)
            ∧ w' = logged (Sleep 5000)
                     (storedEntries symbol (JsValue.objectEntries ts)
                        (logged (HttpGet (stockUrl symbol key)) w1))
            ∧ evs = evs' ++ [Sleep 5000]
            ∧ Forall (fun e => isQuiet e = true) evs'
      end.
Proof.
  destruct (getKey_outcome (logged (Invoke "pullStock" symbol) w))
    as (res1 & w1 & Hkey & Hstocks & Hnews & Htrace & Hloaded).
  assert (Hevs : ∃ kevs, trace w1 = trace w ++ Invoke "pullStock" symbol :: kevs
                         ∧ Forall (fun e => isQuiet e = true) kevs).
  { destruct Htrace as [-> | ->]; simpl.
    - by exists [].
    - exists [ReadFile ".keylist"]. rewrite <- app_assoc. split; [done|].
      by repeat constructor. }
  destruct Hevs as (kevs & Hkevs & Hquiet).
  assert (Hget : Forall (fun e => isQuiet e = true)
                   (kevs ++ [HttpGet (stockUrl symbol
                               match res1 with Ok k => k | Throw m => m end)])).
  { apply Forall_app. split; [done | by repeat constructor]. }
  unfold pullStock. unfold bind at 1. unfold emit at 1, modify at 1.
  unfold bind at 1. rewrite Hkey. destruct res1 as [key|m].
  2:{ exists (Throw m), w1, kevs. by split_and!. }
  assert (Hhttp : trace (logged (HttpGet (stockUrl symbol key)) w1)
                  = trace w ++ Invoke "pullStock" symbol
                      :: (kevs ++ [HttpGet (stockUrl symbol key)])).
  { simpl. rewrite Hkevs, <- app_assoc. done. }
  unfold bind at 1. unfold tryCatch at 1, fetch. unfold_M. simpl.
  destruct (remote env (stockUrl symbol key)) as [msg|r] eqn:Hremote; simpl.
  { eexists _, _, _. split; [reflexivity|]. by split_and!. }
  destruct (ok r) eqn:Hok; simpl.
  2:{ eexists _, _, _. split; [reflexivity|]. by split_and!. }
  unfold json. destruct (body r) as [msg|data] eqn:Hbody; simpl.
  { eexists _, _, _. split; [reflexivity|]. by split_and!. }
  assert (Hnull : data = JNull ∨ data ≠ JNull)
    by (destruct data; (by left) || (by right)).
  destruct Hnull as [->|Hdata].
  { simpl. eexists _, _, _. split; [reflexivity|]. by split_and!. }
  rewrite !getProp_not_null by done.
  assert (Herr : (if JsValue.truthy (readProp data "Error")
                  then ret (readProp data "Error")
                  else getProp env "data" data "Error Message")
                   (logged (HttpGet (stockUrl symbol key)) w1)
                 = (Ok (apiError data), logged (HttpGet (stockUrl symbol key)) w1)).
  { unfold apiError, JsValue.orElse.
    destruct (JsValue.truthy (readProp data "Error")); [done|].
    by rewrite getProp_not_null. }
  unfold ret in Herr. rewrite Herr. clear Herr.
  destruct (JsValue.truthy (apiError data)) eqn:Eerr; simpl.
  { eexists _, _, _. split; [reflexivity|]. by split_and!. }
  rewrite getProp_not_null by done. fold timeSeriesField.
  destruct (readProp data timeSeriesField) as [ts|] eqn:Hts; simpl.
  2:{ eexists _, _, _. split; [reflexivity|]. by split_and!. }
  destruct (JsValue.truthyJson ts) eqn:Htruthy; simpl.
  2:{ eexists _, _, _. split; [reflexivity|]. by split_and!. }
  destruct (entries_null_or_not (JsValue.objectEntries ts))
    as [Hall | (pre & d & post & Hsplit & Hpre)].
  - rewrite forEach_storeEntry by done. simpl.
    eexists _, _, _. split; [reflexivity|]. simpl.
    rewrite trace_storedEntries, Hhttp.
    destruct (keys_storedEntries symbol (JsValue.objectEntries ts)
                (logged (HttpGet (stockUrl symbol key)) w1)) as (_ & _ & ->).
    split_and!.
    + rewrite <- !app_assoc. simpl. rewrite <- !app_assoc. reflexivity.
    + done.
    + exists key, w1, ts, ((kevs ++ [HttpGet (stockUrl symbol key)])
                            ++ map (upsertEvent symbol) (JsValue.objectEntries ts)).
      split_and!; try done.
      * by exists r, data.
      * rewrite <- !app_assoc. reflexivity.
      * apply Forall_app. split; [done | apply quiet_upserts].
  - rewrite Hsplit, forEach_storeEntry_null by done.
    eexists _, _, _. split; [reflexivity|].
    rewrite trace_storedEntries, Hhttp.
    destruct (keys_storedEntries symbol pre
                (logged (HttpGet (stockUrl symbol key)) w1)) as (_ & _ & ->).
    split_and!.
    + rewrite <- !app_assoc. simpl. rewrite <- !app_assoc. reflexivity.
    + done.
    + apply Forall_app. split; [done|]. apply Forall_app.
      split; [by repeat constructor | apply quiet_upserts].
Qed.

End PullStock.

(** ** Upserts keyed by date *)

Section Upsert.

Context (symbol : string).

Lemma replaceOne_first_same (d : string) (doc : StockData) (docs : list StockData) :
  date doc = d →
  firstWithDate d (Mongo.replaceOne (DateIs d) doc docs) = Some doc.
Proof.
  intros Hd. unfold firstWithDate.
  induction docs as [|x docs IH]; simpl.
  - by rewrite Hd, String.eqb_refl.
  - destruct (String.eqb (date x) d) eqn:E; simpl.
    + by rewrite Hd, String.eqb_refl.
    + by rewrite E.
Qed.

Lemma replaceOne_first_other (d d' : string) (doc : StockData)
    (docs : list StockData) :
  date doc = d → d' ≠ d →
  firstWithDate d' (Mongo.replaceOne (DateIs d) doc docs) = firstWithDate d' docs.
Proof.
  intros Hd Hne. unfold firstWithDate.
  assert (Hdoc : String.eqb (date doc) d' = false)
    by (apply String.eqb_neq; congruence).
  induction docs as [|x docs IH]; simpl.
  - by rewrite Hdoc.
  - destruct (String.eqb (date x) d) eqn:E; simpl.
    + apply String.eqb_eq in E.
      assert (String.eqb (date x) d' = false) as ->
        by (apply String.eqb_neq; congruence).
      by rewrite Hdoc.
    + destruct (String.eqb (date x) d'); [done | apply IH].
Qed.

(** Replacing the first match by itself changes nothing. *)
Lemma replaceOne_same (d : string) (doc : StockData) (docs : list StockData) :
  firstWithDate d docs = Some doc →
  Mongo.replaceOne (DateIs d) doc docs = docs.
Proof.
  unfold firstWithDate.
  induction docs as [|x docs IH]; simpl; [done|].
  destruct (String.eqb (date x) d); [congruence|].
  intros H. by rewrite IH.
Qed.

Lemma replaceOne_dates (d : string) (doc : StockData) (docs : list StockData) :
  date doc = d →
  map date (Mongo.replaceOne (DateIs d) doc docs)
  = if bool_decide (d ∈ map date docs) then map date docs
    else map date docs ++ [d].
Proof.
  intros Hd.
  induction docs as [|x docs IH]; cbn [map Mongo.replaceOne Mongo.matchesFilter].
  - case_bool_decide as H; [by apply elem_of_nil in H|]. by rewrite Hd.
  - destruct (String.eqb (date x) d) eqn:E; cbn [map].
    + apply String.eqb_eq in E.
      rewrite bool_decide_eq_true_2 by (rewrite E; apply list_elem_of_here).
      by rewrite Hd, E.
    + apply String.eqb_neq in E. rewrite IH.
      case_bool_decide as B.
      * by rewrite bool_decide_eq_true_2 by (by apply list_elem_of_further).
      * rewrite bool_decide_eq_false_2; [done|].
        rewrite elem_of_cons. intros [?|?]; [congruence | done].
Qed.

Lemma replaceOne_NoDup (d : string) (doc : StockData) (docs : list StockData) :
  date doc = d →
  NoDup (map date docs) →
  NoDup (map date (Mongo.replaceOne (DateIs d) doc docs)).
Proof.
  intros Hd Hnd. rewrite replaceOne_dates by done.
  destruct (bool_decide (d ∈ map date docs)) eqn:B; [done|].
  apply bool_decide_eq_false in B. apply NoDup_app.
  split_and!; [done | | apply NoDup_singleton].
  intros x Hx Hx'. apply list_elem_of_singleton in Hx'. congruence.
Qed.

Lemma upsertAll_NoDup (entries : list (string * Json)) :
  ∀ docs, NoDup (map date docs) →
          NoDup (map date (upsertAll symbol entries docs)).
Proof.
  induction entries as [|e entries IH]; intros docs Hnd; [done|].
  unfold upsertAll in *. simpl. apply IH. by apply replaceOne_NoDup.
Qed.

Lemma upsertAll_first_other (d : string) (entries : list (string * Json)) :
  ∀ docs, d ∉ map fst entries →
          firstWithDate d (upsertAll symbol entries docs) = firstWithDate d docs.
Proof.
  induction entries as [|e entries IH]; intros docs Hnot; [done|].
  unfold upsertAll in *. simpl in *. apply not_elem_of_cons in Hnot as [Hne Hnot].
  rewrite IH by done. by apply replaceOne_first_other.
Qed.

Lemma upsertAll_first (entries : list (string * Json)) :
  ∀ docs e, NoDup (map fst entries) → e ∈ entries →
            firstWithDate (fst e) (upsertAll symbol entries docs)
            = Some (docOfEntry symbol e).
Proof.
  induction entries as [|e0 entries IH]; intros docs e Hnd Hin.
  - by apply elem_of_nil in Hin.
  - simpl in Hnd. apply NoDup_cons in Hnd as [Hnot Hnd'].
    unfold upsertAll in *. simpl. apply elem_of_cons in Hin as [->|Hin].
    + fold (upsertAll symbol entries
              (Mongo.replaceOne (DateIs (fst e0)) (docOfEntry symbol e0) docs)).
      rewrite upsertAll_first_other by done. by apply replaceOne_first_same.
    + by apply IH.
Qed.

Lemma upsertAll_fixed (entries : list (string * Json)) (docs : list StockData) :
  (∀ e, e ∈ entries → firstWithDate (fst e) docs = Some (docOfEntry symbol e)) →
  upsertAll symbol entries docs = docs.
Proof.
  induction entries as [|e entries IH]; intros H; [done|].
  unfold upsertAll in *. simpl.
  rewrite replaceOne_same by (apply H, list_elem_of_here).
  apply IH. intros e' He'. by apply H, list_elem_of_further.
Qed.

(** Storing the same entries again leaves the collection as it is. *)
Lemma upsertAll_idempotent (entries : list (string * Json)) (docs : list StockData) :
  NoDup (map fst entries) →
  upsertAll symbol entries (upsertAll symbol entries docs)
  = upsertAll symbol entries docs.
Proof.
  intros Hnd. apply upsertAll_fixed. intros e He. by apply upsertAll_first.
Qed.

End Upsert.

(** ** The price fetcher *)

Lemma getKey_keeps_stocks (env : Env) (w w1 : World) (res : Result string) :
  getKey env w = (res, w1) → stocks w1 = stocks w.
Proof.
  intros H. destruct (getKey_outcome env w) as (res' & w1' & H' & Hs & _).
  congruence.
Qed.

(** ** The conversion of decimals to doubles *)

Section Rounding.

Import Double.
Local Open Scope Z_scope.

Lemma up_pos (k : Z) : 0 < up k.
Proof. unfold up. apply Z.pow_pos_nonneg; lia. Qed.

Lemma down_pos (k : Z) : 0 < down k.
Proof. unfold down. apply Z.pow_pos_nonneg; lia. Qed.

(** [2^k / 2^k' = 2^(k - k')] *)
Lemma up_down_shift (k k' : Z) :
  k' <= k → up k * down k' = 2 ^ (k - k') * (up k' * down k).
Proof.
  intros H. unfold up, down. rewrite <- !Z.pow_add_r by lia. f_equal. lia.
Qed.

Lemma reaches_le (k k' n d : Z) :
  0 < d → k' <= k → reaches k n d = true → reaches k' n d = true.
Proof.
  unfold reaches. rewrite !Z.leb_le. intros Hd Hk H.
  pose proof (up_down_shift k k' Hk) as E.
  pose proof (up_pos k) as Ua. pose proof (up_pos k') as Ub.
  pose proof (down_pos k) as Da. pose proof (down_pos k') as Db.
  assert (HP : 1 <= 2 ^ (k - k')) by (apply (Z.pow_le_mono_r 2 0); lia).
  set (P := 2 ^ (k - k')) in *.
  set (A := up k) in *. set (B := down k) in *.
  set (A' := up k') in *. set (B' := down k') in *.
  assert (Hn : 0 < n) by nia.
  apply (Z.mul_le_mono_pos_r _ _ (A * B)); [nia|].
  assert (L : A' * d * (A * B) <= A' * B * (n * B)).
  { replace (A' * d * (A * B)) with (A' * B * (A * d)) by ring.
    apply Z.mul_le_mono_nonneg_l; nia. }
  assert (R : A' * B * (n * B) <= n * B' * (A * B)).
  { replace (n * B' * (A * B)) with (n * B * (A * B')) by ring.
    rewrite E. replace (A' * B * (n * B)) with (n * B * (1 * (A' * B))) by ring.
    apply Z.mul_le_mono_nonneg_l; [nia|].
    apply Z.mul_le_mono_nonneg_r; nia. }
  lia.
Qed.

Lemma log2_bounds (n : Z) : 0 < n → 2 ^ Z.log2 n <= n < 2 ^ (Z.log2 n + 1).
Proof. intros H. apply Z.log2_spec in H. by rewrite <- Z.add_1_r in H. Qed.

(** The binade of a fraction is the one exponent that it reaches and
    whose successor it does not reach. *)
Lemma binade_spec (n d : Z) :
  0 < n → 0 < d →
  reaches (binade n d) n d = true ∧ reaches (binade n d + 1) n d = false.
Proof.
  intros Hn Hd.
  pose proof (log2_bounds n Hn) as [Hn1 Hn2].
  pose proof (log2_bounds d Hd) as [Hd1 Hd2].
  pose proof (Z.log2_nonneg n) as Ha. pose proof (Z.log2_nonneg d) as Hc.
  set (a := Z.log2 n) in *. set (c := Z.log2 d) in *.
  assert (Hlow : reaches (a - c - 1) n d = true).
  { unfold reaches. apply Z.leb_le.
    apply Z.le_trans with (up (a - c - 1) * 2 ^ (c + 1)).
    - apply Z.mul_le_mono_nonneg_l; [pose proof (up_pos (a - c - 1)); lia | lia].
    - apply Z.le_trans with (2 ^ a * down (a - c - 1)).
      + unfold up, down. rewrite <- !Z.pow_add_r by lia.
        apply Z.pow_le_mono_r; lia.
      + apply Z.mul_le_mono_nonneg_r; [pose proof (down_pos (a - c - 1)); lia | lia]. }
  assert (Hhigh : reaches (a - c + 1) n d = false).
  { unfold reaches. apply Z.leb_gt.
    apply Z.lt_le_trans with (2 ^ (a + 1) * down (a - c + 1)).
    - apply Z.mul_lt_mono_pos_r; [apply down_pos | lia].
    - apply Z.le_trans with (up (a - c + 1) * 2 ^ c).
      + unfold up, down. rewrite <- !Z.pow_add_r by lia.
        apply Z.pow_le_mono_r; lia.
      + apply Z.mul_le_mono_nonneg_l; [pose proof (up_pos (a - c + 1)); lia | lia]. }
  unfold binade. fold a c. destruct (reaches (a - c) n d) eqn:E.
  - by split.
  - split; [done|]. by replace (a - c - 1 + 1) with (a - c) by lia.
Qed.

Lemma binade_unique (k n d : Z) :
  0 < n → 0 < d →
  reaches k n d = true → reaches (k + 1) n d = false → binade n d = k.
Proof.
  intros Hn Hd H1 H2. destruct (binade_spec n d Hn Hd) as [B1 B2].
  destruct (Z.lt_trichotomy k (binade n d)) as [Hlt | [-> | Hgt]]; [|done|].
  - rewrite (reaches_le (binade n d) (k + 1) n d) in H2; [done | done | lia | done].
  - rewrite (reaches_le k (binade n d + 1) n d) in B2; [done | done | lia | done].
Qed.

(** The rounded quotient is within a half of the exact one, and even when
    it is exactly a half away; no other integer is. *)
Lemma divNearestEven_spec (n d : Z) :
  0 < d →
  let m := divNearestEven n d in
  Z.abs (2 * n - 2 * m * d) <= d
  ∧ (Z.abs (2 * n - 2 * m * d) = d → Z.even m = true).
Proof.
  intros Hd. unfold divNearestEven.
  pose proof (Z_div_mod n d ltac:(lia)) as H.
  destruct (Z.div_eucl n d) as [quotient remainder]. destruct H as [-> Hr].
  destruct (Z.compare_spec (2 * remainder) d) as [E|E|E].
  - destruct (Z.even quotient) eqn:Ev.
    + split; [lia | done].
    + split; [lia|]. intros _. rewrite Z.even_add, Ev. reflexivity.
  - split; lia.
  - split; lia.
Qed.

Lemma nearest_integer_unique (n d m m' : Z) :
  0 < d →
  Z.abs (2 * n - 2 * m * d) <= d →
  (Z.abs (2 * n - 2 * m * d) = d → Z.even m = true) →
  Z.abs (2 * n - 2 * m' * d) <= d →
  (Z.abs (2 * n - 2 * m' * d) = d → Z.even m' = true) →
  m = m'.
Proof.
  intros Hd H1 E1 H2 E2.
  assert (Hclose : m' - 1 <= m <= m' + 1) by nia.
  destruct (Z.eq_dec m m') as [|Hne]; [done|]. exfalso.
  assert (Hcase : m = m' + 1 ∨ m = m' - 1) by lia.
  destruct Hcase as [-> | ->].
  - assert (T1 : Z.abs (2 * n - 2 * (m' + 1) * d) = d) by nia.
    assert (T2 : Z.abs (2 * n - 2 * m' * d) = d) by nia.
    specialize (E1 T1). specialize (E2 T2).
    rewrite Z.even_add, E2 in E1. discriminate E1.
  - assert (T1 : Z.abs (2 * n - 2 * (m' - 1) * d) = d) by nia.
    assert (T2 : Z.abs (2 * n - 2 * m' * d) = d) by nia.
    specialize (E1 T1). specialize (E2 T2).
    rewrite Z.even_sub, E2 in E1. discriminate E1.
Qed.

Lemma nearest_fraction (n d m e : Z) :
  0 < n → 0 < d →
  denotesFraction n d m e →
  nearest n d = Fin (ldexp m e).
Proof.
  intros Hn Hd (He & Hlow & Hhigh & Hfin & Hgap & Htie).
  destruct (binade_spec n d Hn Hd) as [B1 B2].
  assert (Hq : Z.max (binade n d - 52) (-1074) = e).
  { destruct Hlow as [-> | Hlow].
    - assert (binade n d < -1074 + 53); [|lia].
      destruct (Z.lt_ge_cases (binade n d) (-1074 + 53)) as [|Hge]; [done|].
      rewrite (reaches_le (binade n d) (-1074 + 53) n d) in Hhigh; done.
    - replace (e + 53) with (e + 52 + 1) in Hhigh by lia.
      rewrite (binade_unique (e + 52) n d) by done. lia. }
  unfold nearest. rewrite Hq.
  assert (Hd' : 0 < d * up e) by (pose proof (up_pos e); nia).
  destruct (divNearestEven_spec (n * down e) (d * up e) Hd') as [G T].
  rewrite (nearest_integer_unique (n * down e) (d * up e)
             (divNearestEven (n * down e) (d * up e)) m Hd' G T Hgap Htie).
  by rewrite Hfin.
Qed.

End Rounding.

Section RoundingSpec.

Import Double.
Local Open Scope Z_scope.

Lemma pos_pow_1_l (p : positive) : (1 ^ p = 1)%positive.
Proof. apply Pos2Z.inj. rewrite Pos2Z.inj_pow. apply Z.pow_1_l. lia. Qed.

Lemma Qpower_two (k : Z) :
  QArith_base.Qpower (Qmake 2 1) k = Qmake (up k) (Z.to_pos (down k)).
Proof.
  destruct k as [|p|p]; [reflexivity | |].
  - cbn [QArith_base.Qpower]. rewrite Qpower.Qpower_decomp_positive, pos_pow_1_l.
    unfold up, down.
    replace (Z.max (Z.pos p) 0) with (Z.pos p) by lia.
    replace (Z.max (- Z.pos p) 0) with 0 by lia. reflexivity.
  - cbn [QArith_base.Qpower]. rewrite Qpower.Qpower_decomp_positive, pos_pow_1_l.
    unfold up, down.
    replace (Z.max (Z.neg p) 0) with 0 by lia.
    replace (Z.max (- Z.neg p) 0) with (Z.pos p) by lia.
    rewrite <- Pos2Z.inj_pow. reflexivity.
Qed.

Lemma down_id (k : Z) : Z.pos (Z.to_pos (down k)) = down k.
Proof. apply Z2Pos.id, down_pos. Qed.

Lemma Qle_bool_power (k : Z) (q : Q) :
  QArith_base.Qle_bool (QArith_base.Qpower (Qmake 2 1) k) q
  = reaches k (QArith_base.Qnum q) (Z.pos (QArith_base.Qden q)).
Proof.
  rewrite Qpower_two. destruct q as [n p].
  unfold QArith_base.Qle_bool, reaches. simpl. by rewrite down_id.
Qed.

Lemma ldexp_double (m e : Z) : ldexp m e = double m e.
Proof. unfold ldexp, double. rewrite Qpower_two. reflexivity. Qed.

(** The specification on fractions says what the one on integers says. *)
Lemma denotes_fraction (q : Q) (m e : Z) :
  denotes q m e = true →
  denotesFraction (QArith_base.Qnum q) (Z.pos (QArith_base.Qden q)) m e.
Proof.
  unfold denotes. rewrite !andb_true_iff, !orb_true_iff, !negb_true_iff.
  rewrite !Qle_bool_power, Z.leb_le, Z.eqb_eq.
  intros [[[[[He Hlow] Hhigh] Hfin] Hgap] Htie].
  rewrite Qpower_two in Hfin, Hgap, Htie. destruct q as [n p].
  unfold QArith_base.Qle_bool, reaches in Hfin, Hgap, Htie.
  simpl in Hlow, Hhigh, Hfin, Hgap, Htie.
  pose proof (down_pos e) as HB. pose proof (up_pos e) as HA.
  pose proof (down_id e) as HB'.
  unfold denotesFraction. simpl QArith_base.Qnum. simpl QArith_base.Qden.
  set (A := up e) in *. set (B := down e) in *.
  repeat rewrite Pos.mul_1_l in Hfin, Hgap, Htie.
  repeat rewrite Pos2Z.inj_mul in Hgap, Htie.
  repeat rewrite HB' in Hfin, Hgap, Htie.
  split_and!; [done | done | done | done | |].
  - apply Z.leb_le in Hgap. nia.
  - intros Heq. destruct Htie as [Htie|Htie]; [|done]. exfalso.
    apply Z.leb_gt in Htie. nia.
Qed.

Lemma Qred_zero (x : Q) :
  QArith_base.Qnum (Qred x) = 0 → Qred x = Qmake 0 1.
Proof.
  intros H. change (Qmake 0 1) with (Qred (Qmake 0 1)).
  apply Qreduction.Qred_complete. rewrite <- (Qreduction.Qred_correct x).
  unfold QArith_base.Qeq. rewrite H. reflexivity.
Qed.

(** The conversion gives the double of the specification. *)
Lemma ofDecimal_denotes (q : Q) (m e : Z) :
  0 < QArith_base.Qnum q →
  denotes q m e = true →
  ofDecimal false q = Fin (double m e).
Proof.
  intros Hq Hspec. apply denotes_fraction in Hspec.
  unfold ofDecimal. replace (QArith_base.Qnum q <=? 0) with false
    by (symmetry; apply Z.leb_gt; lia).
  rewrite (nearest_fraction _ _ m e) by (done || lia).
  rewrite <- ldexp_double.
  destruct (ldexp m e) as [[|x|x] y] eqn:E; [|done|done].
  unfold ldexp in E. f_equal. rewrite <- E. symmetry. apply Qred_zero. by rewrite E.
Qed.





End RoundingSpec.

(** ** Numerals and numbers *)

Section Numerals.













End Numerals.

Lemma pullStock_run (env : Env) (symbol : string) (w w1 : World)
    (key : string) (ts : Json) :
  getKey env (logged (Invoke "pullStock" symbol) w) = (Ok key, w1) →
  pullSucceeds env symbol key ts →
  ∃ w',
    pullStock env symbol w = (Ok (length (JsValue.objectEntries ts)), w')
    ∧ partition w' symbol
      = upsertAll symbol (JsValue.objectEntries ts) (partition w symbol)
    ∧ trace w' = trace w1 ++ HttpGet (stockUrl symbol key)
                   :: map (upsertEvent symbol) (JsValue.objectEntries ts)
                   ++ [Sleep 5000].
Proof.
  intros Hkey (r & data & Hremote & Hok & Hbody & Hdata & Herr & Hts & Htruthy & Hall).
  eexists. split; [by eapply pullStock_success|]. split.
  - rewrite partition_logged, partition_storedEntries, partition_logged.
    unfold partition, Mongo.collectionOf.
    by rewrite (getKey_keeps_stocks _ _ _ _ Hkey).
  - simpl. rewrite trace_storedEntries. simpl. by rewrite <- !app_assoc.
Qed.




(** C4. Idempotence of the pull.  Let the remote API give the same answer
    for the symbol whichever key is presented, an answer whose time series
    names no date twice, and let the partition of the symbol hold no two
    documents with the same date.  If [pullStock] returns a count, a second
    [pullStock] right after it returns the same count and leaves the
    partition exactly as the first left it, and after each of the two runs
    no two documents of the partition have the same date. *)
Theorem pullStock_idempotent (env : Env) (symbol : string) (w w1 : World)
    (n : nat) (answer : FetchResult) :
  (∀ key, remote env (stockUrl symbol key) = answer) →
  NoDup (map fst (seriesOf answer)) →
  NoDup (map date (partition w symbol)) →
  pullStock env symbol w = (Ok n, w1) →
  ∃ w2,
    pullStock env symbol w1 = (Ok n, w2)
    ∧ n = length (seriesOf answer)
    ∧ partition w2 symbol = partition w1 symbol
    ∧ NoDup (map date (partition w1 symbol))
    ∧ NoDup (map date (partition w2 symbol)).
Proof.
  intros Hsame Hdates Hnd Hrun.
  destruct (pullStock_outcome env symbol w) as (res & w' & evs & Hrun' & _ & _ & Hres).
  rewrite Hrun in Hrun'. injection Hrun' as <- <-.
  destruct Hres as (key & wk & ts & evs' & Hkey & Hsucc & -> & Hw1 & _).
  pose proof Hsucc as (r & data & Hremote & Hok & Hbody & Hdata & Herr & Hts & Htruthy & Hall).
  assert (Hseries : seriesOf answer = JsValue.objectEntries ts).
  { rewrite <- (Hsame key), Hremote. simpl. by rewrite Hbody, Hts. }
  rewrite Hseries in *.
  assert (Hpart1 : partition w1 symbol
                   = upsertAll symbol (JsValue.objectEntries ts) (partition w symbol)).
  { rewrite Hw1, partition_logged, partition_storedEntries, partition_logged.
    unfold partition, Mongo.collectionOf.
    by rewrite (getKey_keeps_stocks _ _ _ _ Hkey). }
  assert (Hloaded : apiKeys (logged (Invoke "pullStock" symbol) w1) ≠ []).
  { destruct (getKey_outcome env (logged (Invoke "pullStock" symbol) w))
      as (res & wk' & Hk & _ & _ & _ & Hne).
    rewrite Hkey in Hk. injection Hk as <- <-. rewrite Hw1. simpl.
    destruct (keys_storedEntries symbol (JsValue.objectEntries ts)
                (logged (HttpGet (stockUrl symbol key)) wk)) as (-> & _).
    simpl. by eapply Hne. }
  pose proof (getKey_loaded env _ Hloaded) as Hkey2.
  set (key2 := keyAt _ _) in Hkey2.
  assert (Hsucc2 : pullSucceeds env symbol key2 ts).
  { exists r, data. rewrite (Hsame key2), <- (Hsame key). by split_and!. }
  destruct (pullStock_run env symbol w1 _ key2 ts Hkey2 Hsucc2)
    as (w2 & Hrun2 & Hpart2 & _).
  exists w2. split_and!.
  - exact Hrun2.
  - reflexivity.
  - rewrite Hpart2, Hpart1. by apply upsertAll_idempotent.
  - rewrite Hpart1. by apply upsertAll_NoDup.
  - rewrite Hpart2. apply upsertAll_NoDup. rewrite Hpart1. by apply upsertAll_NoDup.
Qed.

Lemma pullStock_idempotent_witness :
  ∃ w1 w2,
    pullStock scenarioEnv "AAPL" initialWorld = (Ok 1, w1)
    ∧ pullStock scenarioEnv "AAPL" w1 = (Ok 1, w2)
    ∧ partition w2 "AAPL" = partition w1 "AAPL"
    ∧ partition w1 "AAPL" = [scenarioDoc].
Proof.
  set (w1 := snd (pullStock scenarioEnv "AAPL" initialWorld)).
  assert (Hrun : pullStock scenarioEnv "AAPL" initialWorld = (Ok 1, w1))
    by (vm_compute; reflexivity).
  destruct (pullStock_idempotent scenarioEnv "AAPL" initialWorld w1 1
              (FetchResponse {| status := 200; statusText := "OK";
                                body := JsonValue scenarioPayload |})
              (fun _ => eq_refl)
              ltac:(simpl; apply NoDup_singleton)
              ltac:(apply NoDup_nil_2)
              Hrun)
    as (w2 & Hrun2 & _ & Hsame & _).
  exists w1, w2. split_and!; [exact Hrun | exact Hrun2 | exact Hsame |].
  vm_compute. reflexivity.
Defined.

(** ** The price tool *)

Section PriceTool.

Context (env : Env).

Lemma filter_all (docs : list StockData) :
  List.filter (Mongo.matchesFilter AnyDocument) docs = docs.
Proof. induction docs as [|d docs IH]; simpl; [done | by rewrite IH]. Qed.

Lemma findDocuments_latest (symbol : string) (w : World) :
  Mongo.findDocuments "finance" ("stock-" +:+ symbol) AnyDocument latest100 w
  = (Ok (latestOf (partition w symbol)), logged (collectionEvent symbol) w).
Proof.
  unfold Mongo.findDocuments. unfold_M. simpl. by rewrite filter_all.
Qed.

Lemma findDocuments_date (symbol d : string) (w : World) :
  Mongo.findDocuments "finance" ("stock-" +:+ symbol) (DateIs d) None w
  = (Ok (onDate d (partition w symbol)), logged (collectionEvent symbol) w).
Proof. reflexivity. Qed.

Lemma insertSorted_length (dir : Mongo.Direction) (x : StockData)
    (l : list StockData) :
  length (Mongo.insertSorted dir x l) = S (length l).
Proof.
  induction l as [|y l IH]; simpl; [done|].
  destruct (Mongo.inOrder dir x y); simpl; [done | by rewrite IH].
Qed.

Lemma sortByDate_length (dir : Mongo.Direction) (l : list StockData) :
  length (Mongo.sortByDate dir l) = length l.
Proof.
  induction l as [|x l IH]; simpl; [done|].
  by rewrite insertSorted_length, IH.
Qed.

Lemma latestOf_nil (docs : list StockData) : latestOf docs = [] ↔ docs = [].
Proof.
  unfold latestOf. split; [|by intros ->].
  intros H. apply (f_equal length) in H.
  rewrite length_take, sortByDate_length in H.
  destruct docs; [done | simpl in H; lia].
Qed.

Lemma pullFailure_run (symbol : string) (empty : Data) (m : string) (w : World) :
  pullFailure symbol empty m w = (Ok (failureResult symbol empty m), w).
Proof. unfold pullFailure, failureResult. by destruct (isKeylistError m). Qed.

(** The undated query when the first read finds nothing. *)
Lemma queryLatest_miss (symbol : string) (w : World) :
  partition w symbol = [] →
  queryLatest env symbol w
  = match pullStock env symbol (logged (collectionEvent symbol) w) with
    | (Ok n, wp) =>
        (Ok match latestOf (partition wp symbol) with
            | [] => notFoundResult symbol
            | docs => freshResult symbol docs
            end,
         logged (collectionEvent symbol) wp)
    | (Throw m, wp) => (Ok (failureResult symbol (DataDocs []) m), wp)
    end.
Proof.
  intros Hempty. unfold queryLatest. unfold bind at 1.
  rewrite findDocuments_latest, Hempty. cbn [latestOf take Mongo.sortByDate foldr].
  unfold tryCatch, bind.
  destruct (pullStock env symbol (logged (collectionEvent symbol) w)) as [[n|m] wp].
  - rewrite findDocuments_latest.
    by destruct (latestOf (partition wp symbol)).
  - by rewrite pullFailure_run.
Qed.

(** The undated query when the partition holds documents. *)
Lemma queryLatest_hit (symbol : string) (w : World) :
  partition w symbol ≠ [] →
  queryLatest env symbol w
  = (Ok (cachedResult symbol (latestOf (partition w symbol))),
     logged (collectionEvent symbol) w).
Proof.
  intros Hne. unfold queryLatest. unfold bind at 1. rewrite findDocuments_latest.
  destruct (latestOf (partition w symbol)) eqn:E; [|done].
  exfalso. apply Hne. by apply latestOf_nil.
Qed.

(** The dated query when the first read finds nothing. *)
Lemma queryDate_miss (symbol d f : string) (w : World) :
  formatStockDate d w = (Ok f, w) →
  onDate f (partition w symbol) = [] →
  queryDate env symbol d w
  = match pullStock env symbol (logged (collectionEvent symbol) w) with
    | (Ok n, wp) =>
        (Ok match onDate f (partition wp symbol) with
            | [] =>
                {| message := "No stock data found for " +:+ symbol +:+ " on "
                              +:+ f +:+ " (even after pulling from API)";
                   data := DataNull;
                   error := None |}
            | doc0 :: _ =>
                {| message := "Stock data for " +:+ symbol +:+ " on " +:+ f
                              +:+ " (freshly pulled from API)";
                   data := DataDoc doc0;
                   error := None |}
            end,
         logged (collectionEvent symbol) wp)
    | (Throw m, wp) => (Ok (failureResult symbol DataNull m), wp)
    end.
Proof.
  intros Hf Hempty. unfold queryDate. unfold bind at 1. rewrite Hf.
  unfold bind at 1. rewrite findDocuments_date, Hempty.
  unfold tryCatch, bind.
  destruct (pullStock env symbol (logged (collectionEvent symbol) w)) as [[n|m] wp].
  - rewrite findDocuments_date.
    by destruct (onDate f (partition wp symbol)).
  - by rewrite pullFailure_run.
Qed.

End PriceTool.

Lemma quiet_counts (evs : list Event) :
  Forall (fun e => isQuiet e = true) evs →
  countEvents isSleep evs = 0 ∧ countEvents isInvoke evs = 0.
Proof.
  unfold countEvents. induction 1 as [|e evs He _ [IH1 IH2]]; [done|].
  destruct e; try discriminate He; simpl; auto.
Qed.

Lemma countEvents_app (p : Event → bool) (l k : list Event) :
  countEvents p (l ++ k) = countEvents p l + countEvents p k.
Proof. unfold countEvents. by rewrite List.filter_app, length_app. Qed.

(** C2. What [pullStock] does about the pause.  A run that returns a count
    pauses once, for 5000 ms, as its last step: its events end with the
    upserts of the entries, in order, followed by the pause, and there is no
    pause and no upsert before those.  A run that throws does not pause at
    all, also when the remote call had completed: with a key file that holds
    K1 and a remote API that answers 200 with an [Error Message], the run
    for IBM throws after the request, and the request is its last event. *)
Theorem pullStock_pauses_only_on_success (env : Env) (symbol : string) (w : World) :
  (∃ res w' evs,
     pullStock env symbol w = (res, w')
     ∧ trace w' = trace w ++ evs
     ∧ match res with
       | Ok n =>
           ∃ before entries,
             n = length entries
             ∧ evs = before ++ map (upsertEvent symbol) entries ++ [Sleep 5000]
             ∧ countEvents isSleep before = 0
             ∧ countEvents isReplaceOne before = 0
       | Throw _ => countEvents isSleep evs = 0
       end)
  ∧ (∃ wf,
       pullStock (answering (fileOf ["K1"]) errorPayload) "IBM" initialWorld
       = (Throw "Alpha Vantage API error: Invalid API call.", wf)
       ∧ trace wf = [Invoke "pullStock" "IBM"; ReadFile ".keylist";
                     HttpGet (stockUrl "IBM" "K1")]).
Proof.
  split; [|eexists; split; vm_compute; reflexivity].
  destruct (pullStock_outcome env symbol w)
    as (res & w' & evs & Hrun & Htrace & _ & Hres).
  exists res, w', (Invoke "pullStock" symbol :: evs).
  split; [done|]. split; [done|]. destruct res as [n|m].
  - destruct Hres as (key & w1 & ts & evs' & Hkey & Hsucc & -> & Hw' & Hevs & Hquiet).
    destruct (getKey_outcome env (logged (Invoke "pullStock" symbol) w))
      as (res & w1' & Hk & _ & _ & Hkt & _).
    rewrite Hkey in Hk. injection Hk as <- <-.
    assert (Hfull : trace w' = trace w1 ++ HttpGet (stockUrl symbol key)
                      :: map (upsertEvent symbol) (JsValue.objectEntries ts)
                      ++ [Sleep 5000]).
    { rewrite Hw'. simpl. rewrite trace_storedEntries. simpl.
      by rewrite <- !app_assoc. }
    destruct Hkt as [Hkt|Hkt]; rewrite Hkt in Hfull; simpl in Hfull;
      rewrite Htrace in Hfull; rewrite <- ?app_assoc in Hfull; simpl in Hfull;
      apply app_inv_head in Hfull; rewrite Hfull.
    + exists [Invoke "pullStock" symbol; HttpGet (stockUrl symbol key)],
        (JsValue.objectEntries ts). by split_and!.
    + exists [Invoke "pullStock" symbol; ReadFile ".keylist";
              HttpGet (stockUrl symbol key)],
        (JsValue.objectEntries ts). by split_and!.
  - by apply quiet_counts in Hres as [? _].
Qed.

(** C1. Cache fill on a miss.  When the partition of a symbol is empty, the
    undated query returns a result without throwing and enters [pullStock]
    exactly once.  When that pull returns, the same read (by date,
    descending, at most 100) is made on the store the pull left: if it finds
    documents, they are returned with a message that ends with "(freshly
    pulled from API)"; if it finds none, the result is the "even after
    pulling from API" message with an empty list and no error field.  If the
    partition holds documents after the call, a second call right after it
    returns the latest of them as they are stored, with the plain message,
    and its only event is the read: no pull, no request. *)
Theorem cache_fill_on_miss (env : Env) (symbol : string) (w : World) :
  partition w symbol = [] →
  ∃ res w1 evs,
    processGetStockPrices env symbol None w = (Ok res, w1)
    ∧ trace w1 = trace w ++ evs
    ∧ countEvents isInvoke evs = 1
    ∧ In (Invoke "pullStock" symbol) evs
    ∧ (∀ n wp,
         pullStock env symbol (logged (collectionEvent symbol) w) = (Ok n, wp) →
         w1 = logged (collectionEvent symbol) wp
         ∧ res = match latestOf (partition wp symbol) with
                 | [] => notFoundResult symbol
                 | docs => freshResult symbol docs
                 end
         ∧ error res = None)
    ∧ (partition w1 symbol ≠ [] →
       processGetStockPrices env symbol None w1
       = (Ok (cachedResult symbol (latestOf (partition w1 symbol))),
          logged (collectionEvent symbol) w1)
       ∧ latestOf (partition w1 symbol) ≠ []).
Proof.
  intros Hempty. unfold processGetStockPrices.
  rewrite (queryLatest_miss env symbol w Hempty).
  destruct (pullStock_outcome env symbol (logged (collectionEvent symbol) w))
    as (r & wp & evs & Hrun & Htrace & _ & Hres).
  rewrite Hrun. simpl in Htrace. rewrite <- app_assoc in Htrace. simpl in Htrace.
  assert (Hsecond : ∀ w1, partition w1 symbol ≠ [] →
            queryLatest env symbol w1
            = (Ok (cachedResult symbol (latestOf (partition w1 symbol))),
               logged (collectionEvent symbol) w1)
            ∧ latestOf (partition w1 symbol) ≠ []).
  { intros w1 Hne. split; [by apply queryLatest_hit|].
    by rewrite latestOf_nil. }
  destruct r as [n|m].
  - destruct Hres as (key & wk & ts & evs' & _ & _ & _ & _ & -> & Hquiet).
    apply quiet_counts in Hquiet as [_ Hinv].
    eexists _, _, ((collectionEvent symbol :: Invoke "pullStock" symbol
                      :: evs' ++ [Sleep 5000]) ++ [collectionEvent symbol]).
    split; [reflexivity|]. split_and!.
    + simpl. rewrite Htrace. rewrite <- (app_assoc (trace w)). reflexivity.
    + rewrite countEvents_app.
      change (S (countEvents isInvoke (evs' ++ [Sleep 5000])) + 0 = 1).
      rewrite countEvents_app, Hinv. reflexivity.
    + simpl. auto.
    + intros n' wp' [= <- <-]. split; [done|]. split; [done|].
      by destruct (latestOf (partition wp symbol)).
    + apply Hsecond.
  - apply quiet_counts in Hres as [_ Hinv].
    eexists _, _, (collectionEvent symbol :: Invoke "pullStock" symbol :: evs).
    split; [reflexivity|]. split_and!.
    + done.
    + change (S (countEvents isInvoke evs) = 1). by rewrite Hinv.
    + simpl. auto.
    + intros n' wp' [=].
    + apply Hsecond.
Qed.

Lemma cache_fill_on_miss_witness :
  ∃ res w1,
    processGetStockPrices scenarioEnv "AAPL" None initialWorld = (Ok res, w1)
    ∧ res = freshResult "AAPL" [scenarioDoc]
    ∧ processGetStockPrices scenarioEnv "AAPL" None w1
      = (Ok (cachedResult "AAPL" [scenarioDoc]), logged (collectionEvent "AAPL") w1).
Proof.
  destruct (cache_fill_on_miss scenarioEnv "AAPL" initialWorld eq_refl)
    as (res & w1 & evs & Hrun & _ & _ & _ & Hfresh & Hsecond).
  set (wp := snd (pullStock scenarioEnv "AAPL"
                    (logged (collectionEvent "AAPL") initialWorld))).
  assert (Hpull : pullStock scenarioEnv "AAPL"
                    (logged (collectionEvent "AAPL") initialWorld) = (Ok 1, wp))
    by (vm_compute; reflexivity).
  destruct (Hfresh 1 wp Hpull) as (Hw1 & Hres & _).
  assert (Hpart : partition w1 "AAPL" = [scenarioDoc])
    by (rewrite Hw1; vm_compute; reflexivity).
  exists res, w1. split; [exact Hrun|]. split.
  - rewrite Hres. vm_compute. reflexivity.
  - destruct Hsecond as [Hcached _]; [by rewrite Hpart|].
    rewrite Hcached, Hpart. reflexivity.
Defined.

(** C5, as amended.  When the first read finds nothing and [pullStock]
    throws, whatever the message [m] of the error, the tool returns a result
    and does not throw.  The result has a message and an error field; its
    data is [null] when a date was given and the empty list when none was.
    The error field is "Missing .keylist file" exactly when [m] contains
    ".keylist" or "ENOENT", which holds for the two errors [getKey] raises
    for a key file that is empty or reported as not found and for the
    runtime's ENOENT error, and it is [m] itself otherwise. *)
Theorem pull_failure_is_returned_as_data (env : Env) (symbol : string)
    (w wp : World) (m : string) :
  pullStock env symbol (logged (collectionEvent symbol) w) = (Throw m, wp) →
  (partition w symbol = [] →
   processGetStockPrices env symbol None w
   = (Ok (failureResult symbol (DataDocs []) m), wp))
  ∧ (∀ d f, d ≠ EmptyString →
       formatStockDate d w = (Ok f, w) →
       onDate f (partition w symbol) = [] →
       processGetStockPrices env symbol (Some d) w
       = (Ok (failureResult symbol DataNull m), wp))
  ∧ (∀ empty,
       data (failureResult symbol empty m) = empty
       ∧ (error (failureResult symbol empty m) = Some "Missing .keylist file"
          ∨ error (failureResult symbol empty m) = Some m)
       ∧ (isKeylistError m = true →
          error (failureResult symbol empty m) = Some "Missing .keylist file"
          ∧ message (failureResult symbol empty m) = keylistMessage symbol)
       ∧ (isKeylistError m = false →
          error (failureResult symbol empty m) = Some m
          ∧ message (failureResult symbol empty m) = autoPullFailed symbol m))
  ∧ isKeylistError ".keylist file is empty" = true
  ∧ isKeylistError ".keylist file not found" = true
  ∧ isKeylistError "ENOENT: no such file or directory, open '.keylist'" = true
  ∧ isKeylistError "Failed to fetch stock data: Unable to connect" = false.
Proof.
  intros Hpull. split_and!; try reflexivity.
  - intros Hempty. unfold processGetStockPrices.
    by rewrite queryLatest_miss, Hpull.
  - intros d f Hd Hf Hempty. unfold processGetStockPrices.
    destruct d as [|c d]; [done|]. cbn [Js.truthyString String.eqb negb].
    by rewrite (queryDate_miss env symbol _ f w Hf Hempty), Hpull.
  - intros empty. unfold failureResult. simpl.
    destruct (isKeylistError m); split_and!; auto; discriminate.
Qed.

Lemma pull_failure_is_returned_as_data_witness :
  ∃ wp,
    processGetStockPrices (offline (fileOf ["K1"])) "AAPL" (Some "20251223")
      initialWorld
    = (Ok (failureResult "AAPL" DataNull
             "Failed to fetch stock data: Unable to connect"), wp).
Proof.
  set (wp := snd (pullStock (offline (fileOf ["K1"])) "AAPL"
                    (logged (collectionEvent "AAPL") initialWorld))).
  exists wp.
  assert (Hpull : pullStock (offline (fileOf ["K1"])) "AAPL"
                    (logged (collectionEvent "AAPL") initialWorld)
                  = (Throw "Failed to fetch stock data: Unable to connect", wp))
    by (vm_compute; reflexivity).
  exact (proj1 (proj2 (pull_failure_is_returned_as_data _ _ _ _ _ Hpull))
           "20251223" "2025-12-23" ltac:(discriminate) eq_refl eq_refl).
Defined.

(** C5, as stated, fails in two ways.  Without a date the data of the
    failure is the empty list, not [null].  And a failure of the remote API
    whose message holds the text ENOENT is reported as a missing key file
    although the key file is there. *)
Lemma pull_failure_is_not_always_null :
  (∃ r wp,
     processGetStockPrices (offline (fileOf ["K1"])) "AAPL" None initialWorld
     = (Ok r, wp)
     ∧ data r = DataDocs []
     ∧ error r = Some "Failed to fetch stock data: Unable to connect")
  ∧ (∃ r wp,
       processGetStockPrices
         (answering (fileOf ["K1"]) (JObj [("Error Message", JStr "ENOENT")]))
         "AAPL" None initialWorld
       = (Ok r, wp)
       ∧ apiKeys wp = ["K1"]
       ∧ error r = Some "Missing .keylist file").
Proof.
  split; eexists _, _; (split; [vm_compute; reflexivity|]); split; reflexivity.
Qed.

(** * Further properties *)

Ltac trace_eq :=
  repeat (progress (rewrite <- ?app_assoc; simpl)); reflexivity.

(** ** One pull, step by step *)

Section PullShape.

Context (env : Env).

Lemma pullStock_without_key (symbol : string) (w w1 : World) (m : string) :
  getKey env (logged (Invoke "pullStock" symbol) w) = (Throw m, w1) →
  pullStock env symbol w = (Throw m, w1).
Proof.
  intros Hkey. unfold pullStock. unfold bind at 1. unfold emit at 1, modify at 1.
  unfold bind at 1. by rewrite Hkey.
Qed.

(** Once it holds a key, a run is the request, the upserts of the first
    entries of the series, and the pause when it returns a count. *)
Lemma pullStock_shape (symbol : string) (w w1 : World) (key : string) :
  getKey env (logged (Invoke "pullStock" symbol) w) = (Ok key, w1) →
  ∃ res es,
    pullStock env symbol w
    = (res, pausedIf (isOk res)
              (storedEntries symbol es
                 (logged (HttpGet (stockUrl symbol key)) w1)))
    ∧ (∀ n, res = Ok n → n = length es).
Proof.
  intros Hkey. unfold pullStock. unfold bind at 1. unfold emit at 1, modify at 1.
  unfold bind at 1. rewrite Hkey.
  unfold bind at 1. unfold tryCatch at 1, fetch. unfold_M. simpl.
  destruct (remote env (stockUrl symbol key)) as [msg|r] eqn:Hremote; simpl.
  { eexists (Throw _), []. split; [reflexivity | intros; discriminate]. }
  destruct (ok r) eqn:Hok; simpl.
  2:{ eexists (Throw _), []. split; [reflexivity | intros; discriminate]. }
  unfold json. destruct (body r) as [msg|data] eqn:Hbody; simpl.
  { eexists (Throw _), []. split; [reflexivity | intros; discriminate]. }
  assert (Hnull : data = JNull ∨ data ≠ JNull)
    by (destruct data; (by left) || (by right)).
  destruct Hnull as [->|Hdata].
  { simpl. eexists (Throw _), []. split; [reflexivity | intros; discriminate]. }
  rewrite !getProp_not_null by done.
  assert (Herr : (if JsValue.truthy (readProp data "Error")
                  then ret (readProp data "Error")
                  else getProp env "data" data "Error Message")
                   (logged (HttpGet (stockUrl symbol key)) w1)
                 = (Ok (apiError data), logged (HttpGet (stockUrl symbol key)) w1)).
  { unfold apiError, JsValue.orElse.
    destruct (JsValue.truthy (readProp data "Error")); [done|].
    by rewrite getProp_not_null. }
  unfold ret in Herr. rewrite Herr. clear Herr.
  destruct (JsValue.truthy (apiError data)) eqn:Eerr; simpl.
  { eexists (Throw _), []. split; [reflexivity | intros; discriminate]. }
  rewrite getProp_not_null by done. fold timeSeriesField.
  destruct (readProp data timeSeriesField) as [ts|] eqn:Hts; simpl.
  2:{ eexists (Throw _), []. split; [reflexivity | intros; discriminate]. }
  destruct (JsValue.truthyJson ts) eqn:Htruthy; simpl.
  2:{ eexists (Throw _), []. split; [reflexivity | intros; discriminate]. }
  destruct (entries_null_or_not (JsValue.objectEntries ts))
    as [Hall | (pre & d & post & Hsplit & Hpre)].
  - rewrite forEach_storeEntry by done. simpl.
    eexists (Ok _), _. split; [reflexivity|]. by intros n [= <-].
  - rewrite Hsplit, forEach_storeEntry_null by done.
    eexists (Throw _), pre. split; [reflexivity | intros; discriminate].
Qed.

End PullShape.

Section PullFrame.

Context (env : Env).

Lemma stocks_storedEntries (symbol : string) (es : list (string * Json)) :
  ∀ (w : World) (k : string * string),
    k ≠ ("finance", collectionName symbol) →
    stocks (storedEntries symbol es w) !! k = stocks w !! k.
Proof.
  induction es as [|e es IH]; intros w k Hk; [done|].
  unfold storedEntries in *. simpl. rewrite IH by done.
  unfold storedEntry, withCollection. simpl. by rewrite lookup_insert_ne.
Qed.

Lemma pausedIf_fields (b : bool) (w : World) :
  apiKeys (pausedIf b w) = apiKeys w
  ∧ currentKeyIndex (pausedIf b w) = currentKeyIndex w
  ∧ stocks (pausedIf b w) = stocks w
  ∧ news (pausedIf b w) = news w
  ∧ trace (pausedIf b w) = trace w ++ (if b then [Sleep 5000] else []).
Proof. destruct b; simpl; by rewrite ?app_nil_r. Qed.

Lemma countEvents_upserts (p : Event → bool) (symbol : string)
    (es : list (string * Json)) :
  (∀ db c f, p (ReplaceOne db c f) = false) →
  countEvents p (map (upsertEvent symbol) es) = 0.
Proof.
  intros Hp. unfold countEvents. induction es as [|e es IH]; [done|].
  cbn [map List.filter]. unfold upsertEvent at 1. by rewrite Hp.
Qed.

End PullFrame.

(** A pull leaves the news and every collection but one as they were. *)
Lemma pullStock_frame (env : Env) (symbol : string) (w w' : World)
    (res : Result nat) :
  pullStock env symbol w = (res, w') →
  news w' = news w
  ∧ ∀ k, k ≠ ("finance", collectionName symbol) → stocks w' !! k = stocks w !! k.
Proof.
  intros Hrun.
  destruct (getKey_outcome env (logged (Invoke "pullStock" symbol) w))
    as (r1 & w1 & Hkey & Hs & Hn & _).
  destruct r1 as [key|m].
  - destruct (pullStock_shape env symbol w w1 key Hkey) as (res' & es & Hrun' & _).
    rewrite Hrun in Hrun'. injection Hrun' as -> ->.
    set (w2 := storedEntries symbol es _).
    destruct (pausedIf_fields (isOk res') w2) as (_ & _ & -> & -> & _).
    subst w2. split.
    + destruct (keys_storedEntries symbol es
                  (logged (HttpGet (stockUrl symbol key)) w1)) as (_ & _ & ->).
      simpl. by rewrite Hn.
    + intros k Hk. rewrite stocks_storedEntries by done. simpl. by rewrite Hs.
  - rewrite (pullStock_without_key env symbol w w1 m Hkey) in Hrun.
    injection Hrun as _ <-. split; [by rewrite Hn|].
    intros k _. by rewrite Hs.
Qed.

Lemma pullStock_other_partition (env : Env) (symbol other : string) (w w' : World)
    (res : Result nat) :
  pullStock env symbol w = (res, w') →
  other ≠ symbol →
  partition w' other = partition w other.
Proof.
  intros Hrun Hne. destruct (pullStock_frame env symbol w w' res Hrun) as [_ Hs].
  unfold partition, Mongo.collectionOf. rewrite Hs; [done|].
  intros [= E]. apply Hne. exact E.
Qed.

(** X1. A pull takes one turn of the key rotation, whether it succeeds or
    not.  With a pool loaded and the cursor in range, [pullStock] sends
    exactly one request, to the URL made of the symbol and of the key at the
    cursor, reads no file, leaves the pool as it is and moves the cursor by
    one modulo the size of the pool. *)
Theorem pullStock_draws_one_key (env : Env) (symbol : string) (w : World) :
  apiKeys w ≠ [] →
  currentKeyIndex w < length (apiKeys w) →
  ∃ res w' evs,
    pullStock env symbol w = (res, w')
    ∧ apiKeys w' = apiKeys w
    ∧ currentKeyIndex w' = (currentKeyIndex w + 1) mod length (apiKeys w)
    ∧ trace w' = trace w ++ Invoke "pullStock" symbol
                   :: HttpGet (stockUrl symbol (keyAt (apiKeys w) (currentKeyIndex w)))
                   :: evs
    ∧ countEvents isHttpGet evs = 0
    ∧ countEvents isReadFile evs = 0
    ∧ countEvents isInvoke evs = 0.
Proof.
  intros Hne Hlt.
  assert (Hkey : getKey env (logged (Invoke "pullStock" symbol) w)
                 = (Ok (keyAt (apiKeys w) (currentKeyIndex w)),
                    withCurrentKeyIndex
                      ((currentKeyIndex w + 1) mod length (apiKeys w))
                      (logged (Invoke "pullStock" symbol) w)))
    by (by rewrite getKey_loaded).
  destruct (pullStock_shape env symbol w _ _ Hkey) as (res & es & Hrun & _).
  set (w2 := storedEntries symbol es _) in Hrun.
  destruct (pausedIf_fields (isOk res) w2) as (Hk & Hc & _ & _ & Ht).
  destruct (keys_storedEntries symbol es
              (logged (HttpGet (stockUrl symbol (keyAt (apiKeys w) (currentKeyIndex w))))
                 (withCurrentKeyIndex
                    ((currentKeyIndex w + 1) mod length (apiKeys w))
                    (logged (Invoke "pullStock" symbol) w))))
    as (Hk2 & Hc2 & _).
  eexists res, _, (map (upsertEvent symbol) es
                   ++ (if isOk res then [Sleep 5000] else [])).
  split; [exact Hrun|]. split_and!.
  - rewrite Hk. subst w2. by rewrite Hk2.
  - rewrite Hc. subst w2. by rewrite Hc2.
  - rewrite Ht. subst w2. rewrite trace_storedEntries. simpl.
    rewrite <- !app_assoc. reflexivity.
  - rewrite countEvents_app, countEvents_upserts by done. by destruct (isOk res).
  - rewrite countEvents_app, countEvents_upserts by done. by destruct (isOk res).
  - rewrite countEvents_app, countEvents_upserts by done. by destruct (isOk res).
Qed.

Lemma pullStock_draws_one_key_witness :
  ∃ res w',
    pullStock (offline (FileError "ENOENT")) "IBM" threeKeys = (res, w')
    ∧ apiKeys w' = ["K1"; "K2"; "K3"]
    ∧ currentKeyIndex w' = 2
    ∧ In (HttpGet (stockUrl "IBM" "K2")) (trace w').
Proof.
  destruct (pullStock_draws_one_key (offline (FileError "ENOENT")) "IBM" threeKeys
              ltac:(discriminate) ltac:(simpl; lia))
    as (res & w' & evs & Hrun & Hk & Hc & Ht & _).
  exists res, w'. split; [exact Hrun|]. split; [exact Hk|]. split; [exact Hc|].
  rewrite Ht. simpl. auto.
Defined.

(** X2. Without a key there is no request.  In a process with no key
    loaded, when the key file cannot be read or holds no key, [pullStock]
    throws after reading the file once: it sends nothing to the remote API
    and leaves the store, the pool and the cursor as they were.  The error
    is the one of the file system when the file cannot be read ([.keylist
    file not found] when its message holds [No such file]) and [.keylist
    file is empty] otherwise. *)
Theorem pullStock_needs_a_key (env : Env) (symbol : string) (w : World) :
  apiKeys w = [] →
  usableKeys (keylist env) = [] →
  ∃ m w',
    pullStock env symbol w = (Throw m, w')
    ∧ m = match keylist env with
          | FileError msg => if Js.includes "No such file" msg
                             then ".keylist file not found" else msg
          | FileContent _ => ".keylist file is empty"
          end
    ∧ trace w' = trace w ++ [Invoke "pullStock" symbol; ReadFile ".keylist"]
    ∧ stocks w' = stocks w ∧ news w' = news w
    ∧ apiKeys w' = [] ∧ currentKeyIndex w' = currentKeyIndex w.
Proof.
  intros Hnil Hnone.
  assert (Hkey : ∃ m w1,
            getKey env (logged (Invoke "pullStock" symbol) w) = (Throw m, w1)
            ∧ m = match keylist env with
                  | FileError msg => if Js.includes "No such file" msg
                                     then ".keylist file not found" else msg
                  | FileContent _ => ".keylist file is empty"
                  end
            ∧ trace w1 = trace w ++ [Invoke "pullStock" symbol; ReadFile ".keylist"]
            ∧ stocks w1 = stocks w ∧ news w1 = news w
            ∧ apiKeys w1 = [] ∧ currentKeyIndex w1 = currentKeyIndex w).
  { unfold getKey, loadKeys, readText. unfold_M. simpl. rewrite Hnil. simpl.
    destruct (keylist env) as [msg|content]; simpl in *.
    - destruct (Js.includes "No such file" msg); eexists _, _;
        (split; [reflexivity|]); simpl; rewrite <- ?app_assoc; by split_and!.
    - rewrite Hnone. simpl. eexists _, _. split; [reflexivity|]. simpl.
      rewrite <- ?app_assoc. by split_and!. }
  destruct Hkey as (m & w1 & Hkey & Hm & Hrest).
  exists m, w1. split; [by apply pullStock_without_key|]. by split.
Qed.

Lemma pullStock_needs_a_key_witness :
  ∃ w',
    pullStock (offline (fileOf [" "; EmptyString])) "IBM" initialWorld
    = (Throw ".keylist file is empty", w')
    ∧ trace w' = [Invoke "pullStock" "IBM"; ReadFile ".keylist"].
Proof.
  destruct (pullStock_needs_a_key (offline (fileOf [" "; EmptyString])) "IBM"
              initialWorld eq_refl eq_refl)
    as (m & w' & Hrun & Hm & Ht & _).
  exists w'. split; [|exact Ht]. rewrite Hrun. do 2 f_equal. exact Hm.
Defined.

(** X3. A pull touches one partition.  Whatever its outcome, [pullStock]
    for a symbol leaves every other collection of the store as it was, in
    particular the partition of every other symbol, and it leaves the news
    as they were. *)
Theorem pullStock_touches_one_partition (env : Env) (symbol : string)
    (w w' : World) (res : Result nat) :
  pullStock env symbol w = (res, w') →
  news w' = news w
  ∧ (∀ db collection,
       (db, collection) ≠ ("finance", "stock-" +:+ symbol) →
       stocks w' !! (db, collection) = stocks w !! (db, collection))
  ∧ (∀ other, other ≠ symbol → partition w' other = partition w other).
Proof.
  intros Hrun.
  pose proof (pullStock_frame env symbol w w' res Hrun) as Hframe.
  destruct Hframe as [Hn Hs]. split; [done|]. split.
  - intros db c Hne. by apply Hs.
  - intros other Hne. unfold partition, Mongo.collectionOf. rewrite Hs; [done|].
    intros [= E]. apply Hne. exact E.
Qed.

Lemma pullStock_touches_one_partition_witness :
  ∃ w',
    pullStock scenarioEnv "AAPL" initialWorld = (Ok 1, w')
    ∧ partition w' "AAPL" = [scenarioDoc]
    ∧ partition w' "IBM" = partition initialWorld "IBM"
    ∧ news w' = news initialWorld.
Proof.
  set (w' := snd (pullStock scenarioEnv "AAPL" initialWorld)).
  assert (Hrun : pullStock scenarioEnv "AAPL" initialWorld = (Ok 1, w'))
    by (vm_compute; reflexivity).
  destruct (pullStock_touches_one_partition scenarioEnv "AAPL" initialWorld w' _ Hrun)
    as (Hn & _ & Hother).
  exists w'. split; [exact Hrun|]. split; [vm_compute; reflexivity|].
  split; [apply Hother; discriminate | exact Hn].
Defined.

(** X4. No rollback.  When the time series holds an entry whose value is
    [null], [pullStock] throws the runtime's TypeError at that entry: the
    entries before it have been upserted and stay in the partition, the
    entries after it are not stored, no count is returned and there is no
    pause. *)
Theorem pullStock_stops_at_null_entry (env : Env) (symbol : string)
    (w w1 : World) (key : string) (ts : Json) (pre post : list (string * Json))
    (d : string) :
  getKey env (logged (Invoke "pullStock" symbol) w) = (Ok key, w1) →
  pullAnswers env symbol key ts →
  JsValue.objectEntries ts = pre ++ (d, JNull) :: post →
  Forall (fun e => snd e ≠ JNull) pre →
  ∃ w',
    pullStock env symbol w
    = (Throw (nullReadMessage env "dailyData" "1. open"), w')
    ∧ partition w' symbol = upsertAll symbol pre (partition w symbol)
    ∧ trace w' = trace w1 ++ HttpGet (stockUrl symbol key)
                   :: map (upsertEvent symbol) pre
    ∧ countEvents isSleep (map (upsertEvent symbol) pre) = 0.
Proof.
  intros Hkey (r & data & Hremote & Hok & Hbody & Herr & Hts & Htruthy) Hsplit Hpre.
  assert (Hdata : data ≠ JNull) by (by intros ->).
  exists (storedEntries symbol pre (logged (HttpGet (stockUrl symbol key)) w1)).
  split_and!.
  - unfold pullStock. unfold bind at 1. unfold emit at 1, modify at 1.
    unfold bind at 1. rewrite Hkey.
    unfold bind at 1. unfold tryCatch at 1, fetch. unfold_M. simpl.
    rewrite Hremote, Hok. simpl. unfold json. rewrite Hbody. simpl.
    rewrite !getProp_not_null by done.
    unfold apiError, JsValue.orElse in Herr.
    destruct (JsValue.truthy (readProp data "Error")) eqn:E1; [congruence|].
    rewrite getProp_not_null by done. rewrite Herr.
    rewrite getProp_not_null by done.
    fold timeSeriesField. rewrite Hts. simpl. rewrite Htruthy. simpl.
    by rewrite Hsplit, forEach_storeEntry_null.
  - rewrite partition_storedEntries, partition_logged.
    unfold partition, Mongo.collectionOf.
    by rewrite (getKey_keeps_stocks _ _ _ _ Hkey).
  - rewrite trace_storedEntries. simpl. by rewrite <- app_assoc.
  - by apply countEvents_upserts.
Qed.

Lemma pullStock_stops_at_null_entry_witness :
  ∃ w',
    pullStock brokenEnv "AAPL" initialWorld = (Throw "null is not an object", w')
    ∧ partition w' "AAPL" = [scenarioDoc]
    ∧ trace w' = [Invoke "pullStock" "AAPL"; ReadFile ".keylist";
                  HttpGet (stockUrl "AAPL" "K1");
                  ReplaceOne "finance" "stock-AAPL" (DateIs "2025-12-23")].
Proof.
  assert (Hans : pullAnswers brokenEnv "AAPL" "K1" brokenSeries).
  { eexists _, _. split_and!; reflexivity. }
  destruct (pullStock_stops_at_null_entry brokenEnv "AAPL" initialWorld _ "K1"
              brokenSeries entriesBefore entriesAfter "2025-12-22" eq_refl Hans
              eq_refl
              ltac:(repeat constructor; discriminate))
    as (w' & Hrun & Hpart & Htrace & _).
  exists w'. split; [exact Hrun|]. split; [exact Hpart | exact Htrace].
Defined.

(** ** Dated queries *)

Lemma formatStockDate_dashed (d : string) (w : World) :
  Js.isEightDigits d = true → formatStockDate d w = (Ok (dashed d), w).
Proof. intros H. unfold formatStockDate. by rewrite H. Qed.

Lemma onDate_first (f : string) (docs : list StockData) :
  firstWithDate f docs = hd_error (onDate f docs).
Proof.
  unfold firstWithDate, onDate. induction docs as [|x docs IH]; [done|].
  simpl. by destruct (String.eqb (date x) f).
Qed.

Lemma queryDate_hit (env : Env) (symbol d : string) (w : World)
    (doc : StockData) (rest : list StockData) :
  Js.isEightDigits d = true →
  onDate (dashed d) (partition w symbol) = doc :: rest →
  processGetStockPrices env symbol (Some d) w
  = (Ok (datedResult symbol (dashed d) doc), logged (collectionEvent symbol) w).
Proof.
  intros Hd Hhit. unfold processGetStockPrices.
  assert (Js.truthyString d = true) as -> by (by destruct d).
  unfold queryDate. unfold bind at 1. rewrite formatStockDate_dashed by done.
  unfold bind at 1. by rewrite findDocuments_date, Hhit.
Qed.

(** X5. What a pull stored, the dated query serves.  After a [pullStock]
    that succeeded on a time series in which no date occurs twice, the
    query for the date of any entry of the series, written [YYYYMMDD],
    returns the document built from that entry; it only reads the store:
    no pull, no request. *)
Theorem pulled_entry_is_served (env : Env) (symbol : string) (w w1 : World)
    (key : string) (ts : Json) (e : string * Json) (d : string) :
  getKey env (logged (Invoke "pullStock" symbol) w) = (Ok key, w1) →
  pullSucceeds env symbol key ts →
  NoDup (map fst (JsValue.objectEntries ts)) →
  e ∈ JsValue.objectEntries ts →
  Js.isEightDigits d = true →
  dashed d = fst e →
  ∃ wp,
    pullStock env symbol w = (Ok (length (JsValue.objectEntries ts)), wp)
    ∧ processGetStockPrices env symbol (Some d) wp
      = (Ok (datedResult symbol (fst e) (docOfEntry symbol e)),
         logged (collectionEvent symbol) wp).
Proof.
  intros Hkey Hsucc Hnd He Hd Hdash.
  destruct (pullStock_run env symbol w w1 key ts Hkey Hsucc)
    as (wp & Hrun & Hpart & _).
  exists wp. split; [exact Hrun|].
  pose proof (upsertAll_first symbol _ (partition w symbol) e Hnd He) as Hfirst.
  rewrite <- Hpart, onDate_first, <- Hdash in Hfirst.
  destruct (onDate (dashed d) (partition wp symbol)) as [|doc rest] eqn:E;
    [discriminate|].
  injection Hfirst as ->. rewrite <- Hdash. by eapply queryDate_hit.
Qed.

Lemma pulled_entry_is_served_witness :
  ∃ wp,
    pullStock scenarioEnv "AAPL" initialWorld = (Ok 1, wp)
    ∧ processGetStockPrices scenarioEnv "AAPL" (Some "20251223") wp
      = (Ok (datedResult "AAPL" "2025-12-23" scenarioDoc),
         logged (collectionEvent "AAPL") wp).
Proof.
  assert (Hok : pullSucceeds scenarioEnv "AAPL" "K1" scenarioSeries).
  { eexists _, _. split_and!; try reflexivity; try discriminate.
    repeat constructor; discriminate. }
  destruct (pulled_entry_is_served scenarioEnv "AAPL" initialWorld _ "K1"
              scenarioSeries
              ("2025-12-23",
               JObj [("1. open", JStr "270.97"); ("2. high", JStr "272.45");
                     ("3. low", JStr "269.56"); ("4. close", JStr "272.36");
                     ("5. volume", JStr "29360026")])
              "20251223" eq_refl Hok
              ltac:(simpl; apply NoDup_singleton)
              ltac:(apply list_elem_of_here) eq_refl eq_refl)
    as (wp & Hrun & Hquery).
  exists wp. split; [exact Hrun | exact Hquery].
Defined.

(** X6. No memory of a miss.  When a dated query finds nothing, pulls, and
    the series that comes back has no entry for that date, the tool answers
    "not found even after pulling" with [null] data and no error; the
    series it pulled stays in the partition, and the same query asked again
    enters [pullStock] once more. *)
Theorem dated_miss_pulls_every_time (env : Env) (symbol d : string)
    (w wp : World) (n : nat) :
  Js.isEightDigits d = true →
  onDate (dashed d) (partition w symbol) = [] →
  pullStock env symbol (logged (collectionEvent symbol) w) = (Ok n, wp) →
  onDate (dashed d) (partition wp symbol) = [] →
  let w1 := logged (collectionEvent symbol) wp in
  processGetStockPrices env symbol (Some d) w
  = (Ok (datedNotFound symbol (dashed d)), w1)
  ∧ partition w1 symbol = partition wp symbol
  ∧ ∃ res2 w2 evs,
      processGetStockPrices env symbol (Some d) w1 = (Ok res2, w2)
      ∧ trace w2 = trace w1 ++ evs
      ∧ countEvents isInvoke evs = 1
      ∧ In (Invoke "pullStock" symbol) evs.
Proof.
  intros Hd Hmiss Hpull Hstill w1.
  assert (Htruthy : Js.truthyString d = true) by (by destruct d).
  split_and!.
  - unfold processGetStockPrices. rewrite Htruthy.
    rewrite (queryDate_miss env symbol d (dashed d) w) by
      (by (apply formatStockDate_dashed || idtac)).
    by rewrite Hpull, Hstill.
  - reflexivity.
  - unfold processGetStockPrices. rewrite Htruthy.
    rewrite (queryDate_miss env symbol d (dashed d) w1) by
      (by (apply formatStockDate_dashed || idtac)).
    destruct (pullStock_outcome env symbol (logged (collectionEvent symbol) w1))
      as (r & wq & evs & Hrun & Htrace & _ & Hres).
    rewrite Hrun. destruct r as [n'|m].
    + destruct Hres as (key & wk & ts & evs' & _ & _ & _ & _ & -> & Hquiet).
      apply quiet_counts in Hquiet as [_ Hinv].
      eexists _, _, ((collectionEvent symbol :: Invoke "pullStock" symbol
                        :: evs' ++ [Sleep 5000]) ++ [collectionEvent symbol]).
      split; [reflexivity|]. split_and!.
      * simpl. rewrite Htrace. subst w1. trace_eq.
      * rewrite countEvents_app.
        change (S (countEvents isInvoke (evs' ++ [Sleep 5000])) + 0 = 1).
        rewrite countEvents_app, Hinv. reflexivity.
      * simpl. auto.
    + apply quiet_counts in Hres as [_ Hinv].
      eexists _, _, (collectionEvent symbol :: Invoke "pullStock" symbol :: evs).
      split; [reflexivity|]. split_and!.
      * rewrite Htrace. subst w1. trace_eq.
      * change (S (countEvents isInvoke evs) = 1). by rewrite Hinv.
      * simpl. auto.
Qed.

Lemma dated_miss_pulls_every_time_witness :
  ∃ wp w2 res2,
    processGetStockPrices scenarioEnv "AAPL" (Some "20251224") initialWorld
    = (Ok (datedNotFound "AAPL" "2025-12-24"), logged (collectionEvent "AAPL") wp)
    ∧ partition wp "AAPL" = [scenarioDoc]
    ∧ processGetStockPrices scenarioEnv "AAPL" (Some "20251224")
        (logged (collectionEvent "AAPL") wp) = (Ok res2, w2)
    ∧ countEvents isInvoke (trace w2) = 2.
Proof.
  set (wp := snd (pullStock scenarioEnv "AAPL"
                    (logged (collectionEvent "AAPL") initialWorld))).
  assert (Hpull : pullStock scenarioEnv "AAPL"
                    (logged (collectionEvent "AAPL") initialWorld) = (Ok 1, wp))
    by (vm_compute; reflexivity).
  destruct (dated_miss_pulls_every_time scenarioEnv "AAPL" "20251224"
              initialWorld wp 1 eq_refl eq_refl Hpull
              ltac:(vm_compute; reflexivity))
    as (Hfirst & _ & res2 & w2 & evs & Hsecond & Htrace & Hcount & _).
  exists wp, w2, res2. split; [exact Hfirst|].
  split; [vm_compute; reflexivity|]. split; [exact Hsecond|].
  rewrite Htrace, countEvents_app, Hcount. vm_compute. reflexivity.
Defined.

(** ** The order of strings *)

Section StringOrderTrans.

Lemma ascii_compare_lt_trans (x y z : ascii) :
  Ascii.compare x y = Lt → Ascii.compare y z = Lt → Ascii.compare x z = Lt.
Proof.
  unfold Ascii.compare. rewrite !N.compare_lt_iff. apply N.lt_trans.
Qed.

Lemma compare_not_gt_trans (a : string) :
  ∀ b c, String.compare a b ≠ Gt → String.compare b c ≠ Gt →
         String.compare a c ≠ Gt.
Proof.
  induction a as [|x a IH]; intros [|y b] [|z c]; simpl; try done.
  destruct (Ascii.compare x y) eqn:Exy; [| |done];
    destruct (Ascii.compare y z) eqn:Eyz; try done.
  - apply Ascii.compare_eq_iff in Exy, Eyz. subst.
    rewrite ascii_compare_refl. apply IH.
  - apply Ascii.compare_eq_iff in Exy. subst. by rewrite Eyz.
  - apply Ascii.compare_eq_iff in Eyz. subst. by rewrite Exy.
  - by rewrite (ascii_compare_lt_trans x y z).
Qed.

Lemma leb_not_gt (a b : string) :
  String.leb a b = true ↔ String.compare a b ≠ Gt.
Proof. unfold String.leb. by destruct (String.compare a b). Qed.

Lemma leb_trans (a b c : string) :
  String.leb a b = true → String.leb b c = true → String.leb a c = true.
Proof. rewrite !leb_not_gt. apply compare_not_gt_trans. Qed.

Lemma leb_false_flip (a b : string) :
  String.leb a b = false → String.leb b a = true.
Proof.
  intros H. destruct (String.leb_total a b) as [H'|H']; [congruence | done].
Qed.

End StringOrderTrans.

(** ** The latest read *)

Section LatestRead.

Lemma insertSorted_perm (dir : Mongo.Direction) (x : StockData)
    (l : list StockData) :
  Permutation (Mongo.insertSorted dir x l) (x :: l).
Proof.
  induction l as [|y l IH]; simpl; [done|].
  destruct (Mongo.inOrder dir x y); [done|].
  rewrite IH. apply perm_swap.
Qed.

Lemma sortByDate_perm (dir : Mongo.Direction) (l : list StockData) :
  Permutation (Mongo.sortByDate dir l) l.
Proof.
  induction l as [|x l IH]; simpl; [done|].
  rewrite insertSorted_perm. by constructor.
Qed.

Lemma insertSorted_sorted (x : StockData) (l : list StockData) :
  StronglySorted newerFirst l →
  StronglySorted newerFirst (Mongo.insertSorted Mongo.Descending x l).
Proof.
  induction 1 as [|y l Hl IH Hy]; simpl.
  - repeat constructor.
  - destruct (String.leb (date y) (date x)) eqn:E.
    + constructor; [by constructor|]. constructor; [exact E|].
      eapply Forall_impl; [exact Hy|]. intros z Hz. unfold newerFirst in *.
      by eapply leb_trans.
    + constructor; [exact IH|].
      eapply Permutation_Forall; [symmetry; apply insertSorted_perm|].
      constructor; [|exact Hy]. by apply leb_false_flip.
Qed.

Lemma sortByDate_sorted (l : list StockData) :
  StronglySorted newerFirst (Mongo.sortByDate Mongo.Descending l).
Proof.
  induction l as [|x l IH]; simpl; [constructor|]. by apply insertSorted_sorted.
Qed.

Lemma sorted_app (l1 l2 : list StockData) :
  StronglySorted newerFirst (l1 ++ l2) →
  StronglySorted newerFirst l1
  ∧ ∀ x y, In x l1 → In y l2 → newerFirst x y.
Proof.
  induction l1 as [|a l1 IH]; simpl; intros H.
  - split; [constructor | tauto].
  - inversion H as [|? ? Hs Ha]; subst. destruct (IH Hs) as [IH1 IH2].
    apply Forall_app in Ha as [Ha1 Ha2]. split; [by constructor|].
    intros x y [<-|Hx] Hy; [|by apply IH2].
    rewrite Forall_forall in Ha2. by apply Ha2, list_elem_of_In.
Qed.

End LatestRead.

(** X7. The latest read.  When the partition of a symbol is not empty, the
    undated query returns, without fetching, at most 100 of its documents:
    as many as there are when there are fewer; they are in the order of
    their dates, the latest first, and no document left out has a later date
    than one returned. *)
Theorem latest_read_is_sorted (env : Env) (symbol : string) (w : World) :
  partition w symbol ≠ [] →
  ∃ docs rest,
    processGetStockPrices env symbol None w
    = (Ok (cachedResult symbol docs), logged (collectionEvent symbol) w)
    ∧ length docs = min 100 (length (partition w symbol))
    ∧ Permutation (docs ++ rest) (partition w symbol)
    ∧ StronglySorted newerFirst docs
    ∧ (∀ x y, In x docs → In y rest → newerFirst x y).
Proof.
  intros Hne.
  exists (latestOf (partition w symbol)),
         (drop 100 (Mongo.sortByDate Mongo.Descending (partition w symbol))).
  split; [by apply queryLatest_hit|].
  unfold latestOf.
  pose proof (sortByDate_sorted (partition w symbol)) as Hs.
  rewrite <- (take_drop 100 (Mongo.sortByDate _ _)) in Hs.
  apply sorted_app in Hs as [Hs1 Hs2]. split_and!.
  - by rewrite length_take, sortByDate_length.
  - rewrite take_drop. apply sortByDate_perm.
  - exact Hs1.
  - exact Hs2.
Qed.

Lemma latest_read_is_sorted_witness :
  processGetStockPrices scenarioEnv "AAPL" None twoDays
  = (Ok (cachedResult "AAPL" [scenarioDoc; olderDoc]),
     logged (collectionEvent "AAPL") twoDays)
  ∧ newerFirst scenarioDoc olderDoc.
Proof.
  destruct (latest_read_is_sorted scenarioEnv "AAPL" twoDays ltac:(discriminate))
    as (docs & rest & Hrun & _).
  split; [|reflexivity]. rewrite Hrun.
  assert (Hdocs : fst (processGetStockPrices scenarioEnv "AAPL" None twoDays)
                  = Ok (cachedResult "AAPL" [scenarioDoc; olderDoc]))
    by (vm_compute; reflexivity).
  rewrite Hrun in Hdocs. simpl in Hdocs. by rewrite Hdocs.
Defined.

(** ** The date range of the command line *)

Section DateRange.

Lemma eightDigits_chars (d : string) :
  Js.isEightDigits d = true →
  ∃ c1 c2 c3 c4 c5 c6 c7 c8,
    d = String c1 (String c2 (String c3 (String c4
          (String c5 (String c6 (String c7 (String c8 EmptyString)))))))
    ∧ Forall (fun c => Js.isDigit c = true ∧ Ascii.eqb c "-" = false)
             [c1; c2; c3; c4; c5; c6; c7; c8].
Proof.
  intros H. apply isEightDigits_true in H as [Hlen Hdig].
  destruct d as [|c1 [|c2 [|c3 [|c4 [|c5 [|c6 [|c7 [|c8 [|? ?]]]]]]]]];
    try discriminate Hlen.
  exists c1, c2, c3, c4, c5, c6, c7, c8. split; [done|].
  apply Forall_forall. intros c Hc.
  assert (Js.isDigit c = true)
    by (apply Hdig; apply list_elem_of_In in Hc; exact Hc).
  split; [done | by apply isDigit_not_dash].
Qed.

Lemma split_no_sep (sep : ascii) (f rest : string) :
  forallb (fun c => negb (Ascii.eqb c sep)) (list_ascii_of_string f) = true →
  Js.split sep (f +:+ String sep rest) = f :: Js.split sep rest.
Proof.
  induction f as [|c f IH]; intros H.
  - change (EmptyString +:+ String sep rest) with (String sep rest).
    simpl. by rewrite Ascii.eqb_refl.
  - simpl in H. apply andb_true_iff in H as [Hc Hf].
    rewrite append_cons. simpl. apply negb_true_iff in Hc. rewrite Hc.
    by rewrite IH.
Qed.

Lemma split_none (sep : ascii) (t : string) :
  forallb (fun c => negb (Ascii.eqb c sep)) (list_ascii_of_string t) = true →
  Js.split sep t = [t].
Proof.
  induction t as [|c t IH]; intros H; [done|].
  simpl in H. apply andb_true_iff in H as [Hc Ht].
  simpl. apply negb_true_iff in Hc. by rewrite Hc, IH.
Qed.

Lemma eightDigits_no_dash (d : string) :
  Js.isEightDigits d = true →
  forallb (fun c => negb (Ascii.eqb c "-")) (list_ascii_of_string d) = true.
Proof.
  intros H. apply isEightDigits_true in H as [_ Hdig].
  apply forallb_forall. intros c Hc. apply negb_true_iff.
  apply isDigit_not_dash. by apply Hdig.
Qed.

Lemma isDateRange_joined (from to : string) :
  Js.isEightDigits from = true →
  Js.isEightDigits to = true →
  Cli.isDateRange (from +:+ "-" +:+ to) = true.
Proof.
  intros Hf Ht.
  destruct (eightDigits_chars from Hf)
    as (a1 & a2 & a3 & a4 & a5 & a6 & a7 & a8 & -> & Ha).
  destruct (eightDigits_chars to Ht)
    as (b1 & b2 & b3 & b4 & b5 & b6 & b7 & b8 & -> & Hb).
  cbv [String.append]. unfold Cli.isDateRange, Js.allDigits.
  cbn [String.length Nat.eqb substring list_ascii_of_string andb].
  rewrite !andb_true_iff. split_and!.
  - apply forallb_forall. intros c Hc. apply list_elem_of_In in Hc.
    by destruct (proj1 (Forall_forall _ _) Ha c Hc).
  - reflexivity.
  - apply forallb_forall. intros c Hc. apply list_elem_of_In in Hc.
    by destruct (proj1 (Forall_forall _ _) Hb c Hc).
Qed.

Lemma parseDateRange_valid (from to : string) (w : World) :
  Js.isEightDigits from = true →
  Js.isEightDigits to = true →
  Cli.parseDateRange (from +:+ "-" +:+ to) w
  = (Ok {| Cli.from_time := from +:+ "T0000"; Cli.to_time := to +:+ "T2359" |}, w).
Proof.
  intros Hf Ht. unfold Cli.parseDateRange.
  rewrite isDateRange_joined by done. simpl negb. cbv iota.
  change ("-" +:+ to) with (String "-" to).
  rewrite split_no_sep by (by apply eightDigits_no_dash).
  rewrite split_none by (by apply eightDigits_no_dash).
  reflexivity.
Qed.

Lemma isDateRange_shape (s : string) :
  Cli.isDateRange s = true →
  ∃ from to, Js.isEightDigits from = true ∧ Js.isEightDigits to = true
             ∧ s = from +:+ "-" +:+ to.
Proof.
  unfold Cli.isDateRange. rewrite !andb_true_iff, Nat.eqb_eq, String.eqb_eq.
  intros [[[Hlen Hf] Hdash] Ht].
  do 18 (destruct s as [|? s]; try discriminate Hlen).
  cbn in Hdash. injection Hdash as ->.
  eexists (String _ (String _ (String _ (String _
             (String _ (String _ (String _ (String _ EmptyString)))))))),
          (String _ (String _ (String _ (String _
             (String _ (String _ (String _ (String _ EmptyString)))))))).
  split_and!; [exact Hf | exact Ht | reflexivity].
Qed.

End DateRange.

(** X9. The date range of the command line.  [parseDateRange] accepts
    exactly the texts made of two dates of eight digits joined by a dash,
    and throws on every other text.  For such a text it returns the first
    date followed by [T0000] and the second followed by [T2359]: the very
    bounds that [formatNewsTime] gives the news query for the same two
    dates, so a pull from the command line and a query of the tool speak of
    the same window. *)
Theorem parseDateRange_bounds (from to : string) (w : World) :
  Js.isEightDigits from = true →
  Js.isEightDigits to = true →
  (∃ fromTime toTime,
     Cli.parseDateRange (from +:+ "-" +:+ to) w
     = (Ok {| Cli.from_time := fromTime; Cli.to_time := toTime |}, w)
     ∧ formatNewsTime from false w = (Ok fromTime, w)
     ∧ formatNewsTime to true w = (Ok toTime, w)
     ∧ fromTime = from +:+ "T0000" ∧ toTime = to +:+ "T2359")
  ∧ (∀ s, Cli.isDateRange s = true
          ↔ ∃ f t, Js.isEightDigits f = true ∧ Js.isEightDigits t = true
                   ∧ s = f +:+ "-" +:+ t)
  ∧ (∀ s w0, Cli.isDateRange s = false →
       Cli.parseDateRange s w0
       = (Throw ("Invalid date range format: " +:+ s
                 +:+ ". Expected YYYYMMDD-YYYYMMDD"), w0)).
Proof.
  intros Hf Ht. split_and!.
  - eexists _, _. split; [by apply parseDateRange_valid|].
    by rewrite !formatNewsTime_valid.
  - intros s. split; [apply isDateRange_shape|].
    intros (f & t & Hf' & Ht' & ->).
    pose proof (parseDateRange_valid f t w Hf' Ht') as H.
    unfold Cli.parseDateRange in H.
    by destruct (Cli.isDateRange (f +:+ "-" +:+ t)).
  - intros s w0 H. unfold Cli.parseDateRange. by rewrite H.
Qed.

Lemma parseDateRange_bounds_witness :
  Cli.parseDateRange "20251201-20251202" initialWorld
  = (Ok {| Cli.from_time := "20251201T0000"; Cli.to_time := "20251202T2359" |},
     initialWorld).
Proof.
  destruct (parseDateRange_bounds "20251201" "20251202" initialWorld eq_refl eq_refl)
    as [(f & t & Hrun & _ & _ & -> & ->) _].
  exact Hrun.
Defined.

(** ** The pull tools *)

Section Symbols.

Import PullServer.

Lemma isCapital_byte (n : N) : isCapital n = true → (n < 256)%N.
Proof. unfold isCapital. rewrite andb_true_iff, !N.leb_le. lia. Qed.

Lemma isCapital_not_white (n : N) : isCapital n = true → isWhiteSpace n = false.
Proof.
  unfold isCapital. rewrite andb_true_iff, !N.leb_le. intros [H1 H2].
  unfold isWhiteSpace. apply not_true_is_false. rewrite existsb_exists.
  intros (x & Hin & Heq). apply N.eqb_eq in Heq. subst x.
  simpl in Hin. lia.
Qed.

Lemma unitsOf_textOf (units : list N) :
  forallb isCapital units = true → unitsOf (textOf units) = units.
Proof.
  intros H. unfold unitsOf, textOf. rewrite list_ascii_of_string_of_list_ascii.
  induction units as [|n l IH]; [done|].
  simpl in H. apply andb_true_iff in H as [Hn Hl]. simpl.
  rewrite N_ascii_embedding by (by apply isCapital_byte). by rewrite IH.
Qed.

Lemma isTicker_capitals (units : list N) :
  isTicker units = true → forallb isCapital units = true ∧ units ≠ [].
Proof.
  unfold isTicker. rewrite !andb_true_iff. intros [[H1 _] H]. split; [done|].
  intros ->. discriminate H1.
Qed.

Lemma unitsOf_app (a b : string) : unitsOf (a +:+ b) = unitsOf a ++ unitsOf b.
Proof.
  unfold unitsOf. induction a as [|c a IH]; [done|].
  rewrite append_cons. simpl. by rewrite IH.
Qed.

Lemma toUpperCase_app (a b : string) :
  toUpperCase (a +:+ b) = toUpperCase a ++ toUpperCase b.
Proof. unfold toUpperCase. by rewrite unitsOf_app, flat_map_app. Qed.

Lemma trimStart_white (ws rest : list N) :
  forallb isWhiteSpace ws = true → trimStart (ws ++ rest) = trimStart rest.
Proof.
  induction ws as [|n ws IH]; [done|]. simpl.
  intros H. apply andb_true_iff in H as [-> H]. by apply IH.
Qed.

Lemma trimStart_black (n : N) (rest : list N) :
  isWhiteSpace n = false → trimStart (n :: rest) = n :: rest.
Proof. intros H. simpl. by rewrite H. Qed.

Lemma forallb_rev {A} (p : A → bool) (l : list A) :
  forallb p (rev l) = forallb p l.
Proof.
  induction l as [|x l IH]; [done|]. simpl.
  rewrite forallb_app, IH. simpl. rewrite andb_true_r. apply andb_comm.
Qed.

(** Trimming removes the white space around capitals and nothing else. *)
Lemma trim_padded (ws1 body ws2 : list N) :
  forallb isWhiteSpace ws1 = true →
  forallb isWhiteSpace ws2 = true →
  forallb isCapital body = true →
  trim (ws1 ++ body ++ ws2) = body.
Proof.
  intros H1 H2 Hb. unfold trim. rewrite trimStart_white by done.
  destruct body as [|n body].
  { simpl. rewrite <- (app_nil_r ws2), trimStart_white by done. simpl.
    done. }
  simpl in Hb. apply andb_true_iff in Hb as [Hn Hb].
  rewrite <- app_comm_cons, trimStart_black by (by apply isCapital_not_white).
  rewrite app_comm_cons, rev_app_distr.
  rewrite trimStart_white by (by rewrite forallb_rev).
  assert (Hrev : forallb isCapital (rev (n :: body)) = true)
    by (rewrite forallb_rev; simpl; by rewrite Hn, Hb).
  destruct (rev (n :: body)) as [|m l] eqn:E.
  { apply (f_equal (@length N)) in E. rewrite length_rev in E. discriminate E. }
  simpl in Hrev. apply andb_true_iff in Hrev as [Hm _].
  rewrite trimStart_black by (by apply isCapital_not_white).
  by rewrite <- E, rev_involutive.
Qed.

Lemma blank_units (s : string) :
  isBlank s = true →
  toUpperCase s = unitsOf s ∧ forallb isWhiteSpace (unitsOf s) = true.
Proof.
  unfold isBlank, toUpperCase, unitsOf.
  induction s as [|c s IH]; [done|]. simpl.
  intros H. apply andb_true_iff in H as [Hc Hs].
  destruct (IH Hs) as [IH1 IH2]. rewrite IH1, IH2.
  unfold Js.isWhiteSpace in Hc. simpl in Hc.
  repeat (apply orb_true_iff in Hc as [Hc|Hc];
          [apply Ascii.eqb_eq in Hc; subst c; by split|]).
  discriminate Hc.
Qed.

Lemma nat_of_ascii_bound (c : ascii) : nat_of_ascii c < 256.
Proof. apply nat_ascii_bounded. Qed.

(** A letter that differs from a capital by case only is sent to that
    capital. *)
Lemma upperUnit_letter (c c' : ascii) :
  isCapital (N_of_ascii c') = true →
  toLower c = toLower c' →
  upperUnit (N_of_ascii c) = [N_of_ascii c'].
Proof.
  intros Hcap Hlow.
  pose proof (nat_of_ascii_bound c) as Hc.
  pose proof (nat_of_ascii_bound c') as Hc'.
  assert (Hn : nat_of_ascii (toLower c) = nat_of_ascii (toLower c'))
    by (by rewrite Hlow).
  unfold toLower in Hn.
  assert (E : N_of_ascii c = N.of_nat (nat_of_ascii c))
    by (unfold nat_of_ascii; by rewrite N2Nat.id).
  assert (E' : N_of_ascii c' = N.of_nat (nat_of_ascii c'))
    by (unfold nat_of_ascii; by rewrite N2Nat.id).
  rewrite E, E' in *. clear E E' Hlow.
  set (n := nat_of_ascii c) in *. set (n' := nat_of_ascii c') in *.
  unfold isCapital in Hcap. rewrite andb_true_iff, !N.leb_le in Hcap.
  assert (H' : (65 <=? n')%nat && (n' <=? 90)%nat = true)
    by (apply andb_true_iff; split; apply Nat.leb_le; lia).
  rewrite H' in Hn. rewrite (nat_ascii_embedding (n' + 32)) in Hn by lia.
  assert (Hcase : n = n' ∨ n = n' + 32).
  { destruct ((65 <=? n)%nat && (n <=? 90)%nat) eqn:H.
    - apply andb_true_iff in H as [H1 H2]. apply Nat.leb_le in H1, H2.
      rewrite nat_ascii_embedding in Hn by lia. lia.
    - right. exact Hn. }
  clear Hn H'. unfold upperUnit.
  destruct Hcase as [-> | ->];
    repeat match goal with
           | |- context [(?a <=? ?b)%N] =>
               destruct (N.leb_spec a b); try lia
           | |- context [(?a =? ?b)%N] =>
               destruct (N.eqb_spec a b); try lia
           end; simpl; f_equal; lia.
Qed.

Lemma toUpperCase_letters (body t : string) :
  forallb isCapital (unitsOf t) = true →
  lowerCase body = lowerCase t →
  toUpperCase body = unitsOf t.
Proof.
  revert t. unfold toUpperCase, unitsOf.
  induction body as [|c body IH]; intros [|c' t] Ht Hlow; try discriminate Hlow;
    [done|].
  simpl in Ht, Hlow. apply andb_true_iff in Ht as [Hc Ht].
  injection Hlow as Hc' Hlow. simpl.
  by rewrite (upperUnit_letter c c'), (IH t).
Qed.

Lemma truthy_app (a b c : string) :
  b ≠ EmptyString → Js.truthyString (a +:+ b +:+ c) = true.
Proof.
  intros Hb. destruct a; [|reflexivity]. destruct b; [done | reflexivity].
Qed.

End Symbols.

(** X10. The guard of the stock pull tool.  [processPullStock] hands
    [pullStock] nothing but a symbol of one to five capital letters A-Z:
    the symbol it was given, put in upper case and trimmed.  An empty
    symbol, and one whose normal form is anything else, is rejected with an
    error before any key is drawn, any request is sent or any document is
    written.  An accepted symbol gives the outcome of [pullStock] for the
    normal form: its error, or a reply with the count it returned and the
    name of the collection it filled. *)
Theorem processPullStock_guard (env : Env) (symbol : string) (w : World) :
  let units := PullServer.trim (PullServer.toUpperCase symbol) in
  if Js.truthyString symbol && PullServer.isTicker units then
    ∃ t, PullServer.unitsOf t = units
         ∧ isTickerText t = true
         ∧ match pullStock env t w with
           | (Ok count, w') =>
               PullServer.processPullStock env symbol w
               = (Ok {| PullServer.success := true;
                        PullServer.message :=
                          "Successfully pulled " +:+ pretty count
                          +:+ " stock records for " +:+ t;
                        PullServer.data :=
                          {| PullServer.symbol := t;
                             PullServer.records_pulled := count;
                             PullServer.collection := collectionName t |} |}, w')
           | (Throw m, w') =>
               PullServer.processPullStock env symbol w = (Throw m, w')
           end
  else
    ∃ m, PullServer.processPullStock env symbol w = (Throw m, w).
Proof.
  intros units. unfold PullServer.processPullStock. fold units.
  destruct (Js.truthyString symbol); simpl; [|by eexists].
  destruct (PullServer.isTicker units) eqn:Ht; simpl; [|by eexists].
  destruct (isTicker_capitals units Ht) as [Hcap _].
  exists (PullServer.textOf units).
  assert (Hu : PullServer.unitsOf (PullServer.textOf units) = units)
    by (by apply unitsOf_textOf).
  split; [done|]. split; [unfold isTickerText; by rewrite Hu|].
  unfold bind.
  by destruct (pullStock env (PullServer.textOf units) w) as [[count|m] w'].
Qed.

(** X11. The stock pull tool reads a symbol without regard to case and to
    the white space around it.  A symbol written with the letters of a
    ticker in either case, with any white space before and after, is pulled
    exactly as the ticker in capitals is.  Upper case is the one of
    JavaScript: the single letter sharp s is pulled as the ticker SS. *)
Theorem processPullStock_normalises (env : Env) (pre body post t : string)
    (w : World) :
  isTickerText t = true →
  lowerCase body = lowerCase t →
  isBlank pre = true →
  isBlank post = true →
  PullServer.processPullStock env (pre +:+ body +:+ post) w
  = PullServer.processPullStock env t w
  ∧ PullServer.processPullStock env sharpS w
    = PullServer.processPullStock env "SS" w.
Proof.
  intros Ht Hlow Hpre Hpost. split; [|reflexivity].
  destruct (isTicker_capitals _ Ht) as [Hcap Hne].
  assert (Hnorm : ∀ s, PullServer.trim (PullServer.toUpperCase s) = PullServer.unitsOf t →
                       Js.truthyString s = true →
                       PullServer.processPullStock env s w
                       = (count <- pullStock env t ;;
                          ret (PullServer.stockReply t count)) w).
  { intros s Hs Htruthy. unfold PullServer.processPullStock.
    rewrite Htruthy, Hs. simpl. unfold isTickerText in Ht. rewrite Ht. simpl.
    assert (Htext : PullServer.textOf (PullServer.unitsOf t) = t).
    { unfold PullServer.textOf, PullServer.unitsOf. rewrite map_map.
      rewrite (map_ext _ id) by (intros a; apply ascii_N_embedding).
      rewrite map_id. apply string_of_list_ascii_of_string. }
    by rewrite Htext. }
  assert (Hbody : body ≠ EmptyString ∧ t ≠ EmptyString).
  { split; intros ->.
    - destruct t; [by apply Hne | discriminate Hlow].
    - by apply Hne. }
  destruct Hbody as [Hbody Htne].
  destruct (blank_units pre Hpre) as [Hp1 Hp2].
  destruct (blank_units post Hpost) as [Hq1 Hq2].
  rewrite !Hnorm; [done | | | |].
  - rewrite <- (app_nil_l (PullServer.toUpperCase t)), <- (app_nil_r (_ ++ _)),
      <- app_assoc.
    rewrite (toUpperCase_letters t t) by done. by apply trim_padded.
  - destruct t; [done | reflexivity].
  - rewrite !toUpperCase_app, Hp1, Hq1, (toUpperCase_letters body t) by done.
    by apply trim_padded.
  - by apply truthy_app.
Qed.

Lemma processPullStock_normalises_witness :
  PullServer.processPullStock scenarioEnv "  aaPL " initialWorld
  = PullServer.processPullStock scenarioEnv "AAPL" initialWorld.
Proof.
  exact (proj1 (processPullStock_normalises scenarioEnv "  " "aaPL" " " "AAPL"
                  initialWorld eq_refl eq_refl eq_refl eq_refl)).
Defined.

(** X12. The pull tool and the read tools do not spell a symbol the same
    way.  [processPullStock] writes to the partition of the symbol in
    capitals, and the read tools read the partition of the symbol as it was
    given.  So for a symbol that is not itself one to five capital letters,
    say [aapl], a pull with the tool changes nothing in the partition that a
    query for the same spelling reads: the plain server answers that query
    after the pull exactly as it would have before. *)
Theorem pull_tool_fills_the_capital_partition (env : Env) (symbol : string)
    (date : option string) (w w' : World) (res : Result (PullServer.Reply PullServer.PulledStock)) :
  isTickerText symbol = false →
  PullServer.processPullStock env symbol w = (res, w') →
  partition w' symbol = partition w symbol
  ∧ news w' = news w
  ∧ fst (PlainServer.processGetStockPrices symbol date w')
    = fst (PlainServer.processGetStockPrices symbol date w).
Proof.
  intros Hnot Hrun.
  assert (Hframe : partition w' symbol = partition w symbol ∧ news w' = news w).
  { unfold PullServer.processPullStock in Hrun.
    destruct (Js.truthyString symbol); simpl in Hrun;
      [|by injection Hrun as _ <-].
    destruct (PullServer.isTicker _) eqn:Ht; simpl in Hrun;
      [|by injection Hrun as _ <-].
    set (t := PullServer.textOf _) in Hrun.
    assert (Hne : symbol ≠ t).
    { intros E. unfold isTickerText in Hnot. rewrite E in Hnot. subst t.
      destruct (isTicker_capitals _ Ht) as [Hcap _].
      rewrite unitsOf_textOf in Hnot by done. congruence. }
    unfold bind in Hrun.
    destruct (pullStock env t w) as [r0 w0] eqn:Hpull.
    assert (w0 = w') as -> by (destruct r0; by injection Hrun).
    split; [by apply (pullStock_other_partition env t symbol w w' r0)|].
    by destruct (pullStock_frame env t w w' r0 Hpull). }
  destruct Hframe as [Hpart Hnews]. split; [done|]. split; [done|].
  assert (Hlatest : fst (PlainServer.queryLatest symbol w')
                    = fst (PlainServer.queryLatest symbol w)).
  { unfold PlainServer.queryLatest. unfold bind.
    rewrite !findDocuments_latest, Hpart.
    by destruct (latestOf (partition w symbol)). }
  destruct date as [d|]; simpl; [|exact Hlatest].
  destruct (Js.truthyString d); [|exact Hlatest].
  unfold PlainServer.queryDate. unfold bind at 1 3.
  destruct (Js.isEightDigits d) eqn:Hd.
  - rewrite !formatStockDate_dashed by done. unfold bind.
    rewrite !findDocuments_date, Hpart.
    by destruct (onDate (dashed d) (partition w symbol)).
  - by rewrite !formatStockDate_invalid.
Qed.

Lemma pull_tool_fills_the_capital_partition_witness :
  ∃ reply w',
    PullServer.processPullStock scenarioEnv "aapl" initialWorld = (Ok reply, w')
    ∧ PullServer.records_pulled (PullServer.data reply) = 1
    ∧ partition w' "AAPL" = [scenarioDoc]
    ∧ partition w' "aapl" = [].
Proof.
  destruct (PullServer.processPullStock scenarioEnv "aapl" initialWorld)
    as [res w'] eqn:Hrun.
  destruct (pull_tool_fills_the_capital_partition scenarioEnv "aapl" None
              initialWorld w' res eq_refl Hrun) as (Hpart & _).
  vm_compute in Hrun. injection Hrun as <- <-.
  eexists _, _. split; [reflexivity|]. split; [reflexivity|].
  split; [reflexivity | exact Hpart].
Defined.

(** X13. The news pull tool.  [processPullNews] calls [pullNews] only with
    two dates of eight digits, and then with the bounds that the command
    line computes for the range made of the same two dates: the first date
    at [T0000] and the second at [T2359].  A missing date is reported before
    a malformed one, and a malformed start date before a malformed end
    date; each of them ends the call with the world as it was: no key is
    drawn, no request is sent and the store is not reached. *)
Theorem processPullNews_bounds (env : Env)
    (upsertNews : Value → list (string * NewsField) → M bool)
    (startDate endDate : string) (w : World) :
  Js.isEightDigits startDate = true →
  Js.isEightDigits endDate = true →
  (∃ range,
     Cli.parseDateRange (startDate +:+ "-" +:+ endDate) w = (Ok range, w)
     ∧ PullServer.processPullNews env upsertNews startDate endDate w
       = (count <- pullNews env upsertNews (Cli.from_time range) (Cli.to_time range) ;;
          ret (PullServer.newsReply startDate endDate count)) w)
  ∧ (∀ s e w0,
       Js.isEightDigits s && Js.isEightDigits e = false →
       PullServer.processPullNews env upsertNews s e w0
       = (Throw (if negb (Js.truthyString s) || negb (Js.truthyString e)
                 then "Both start_date and end_date are required"
                 else if negb (Js.isEightDigits s)
                 then "Invalid start_date format: " +:+ s +:+ ". Expected YYYYMMDD"
                 else "Invalid end_date format: " +:+ e +:+ ". Expected YYYYMMDD"),
          w0)).
Proof.
  intros Hs He. split.
  - eexists. split; [by apply parseDateRange_valid|].
    unfold PullServer.processPullNews. rewrite Hs, He.
    assert (Js.truthyString startDate = true) as -> by (by destruct startDate).
    assert (Js.truthyString endDate = true) as -> by (by destruct endDate).
    reflexivity.
  - intros s e w0 H. unfold PullServer.processPullNews.
    destruct (negb (Js.truthyString s) || negb (Js.truthyString e)); [done|].
    destruct (Js.isEightDigits s); simpl in *; [|done]. by rewrite H.
Qed.

Lemma processPullNews_bounds_witness :
  ∃ w',
    PullServer.processPullNews newsEnv notingUpsert "20251222" "20251223" initialWorld
    = (Ok (PullServer.newsReply "20251222" "20251223" 3), w')
    ∧ In (HttpGet (newsUrl "K1" "20251222T0000" "20251223T2359")) (trace w').
Proof.
  destruct (processPullNews_bounds newsEnv notingUpsert "20251222" "20251223"
              initialWorld eq_refl eq_refl) as [(range & Hrange & Hrun) _].
  injection Hrange as <-. rewrite Hrun.
  eexists. split; [vm_compute; reflexivity|]. vm_compute. tauto.
Defined.

(** ** The two servers of the read tools *)

(** X14. The server without automatic pull only reads, and the server with
    automatic pull is an extension of it.  [processGetStockPrices] of the
    plain server draws no key, sends no request and writes no document: at
    most it reads the collection of the symbol once.  Whenever it throws or
    finds at least one document, the server with automatic pull gives the
    same outcome and leaves the same world, whatever the key file and the
    remote service are; the two differ only when the plain server finds
    nothing. *)
Theorem plain_server_only_reads (env : Env) (symbol : string)
    (date : option string) (w : World) :
  ∃ res w',
    PlainServer.processGetStockPrices symbol date w = (res, w')
    ∧ apiKeys w' = apiKeys w
    ∧ currentKeyIndex w' = currentKeyIndex w
    ∧ stocks w' = stocks w
    ∧ news w' = news w
    ∧ (trace w' = trace w ∨ trace w' = trace w ++ [collectionEvent symbol])
    ∧ match res with
      | Throw m => processGetStockPrices env symbol date w = (Throw m, w')
      | Ok r =>
          error r = None
          ∧ if hasDocuments r
            then processGetStockPrices env symbol date w = (Ok r, w')
            else trace w' = trace w ++ [collectionEvent symbol]
      end.
Proof.
  assert (Hlatest :
    ∃ res w',
      PlainServer.queryLatest symbol w = (res, w')
      ∧ apiKeys w' = apiKeys w
      ∧ currentKeyIndex w' = currentKeyIndex w
      ∧ stocks w' = stocks w
      ∧ news w' = news w
      ∧ (trace w' = trace w ∨ trace w' = trace w ++ [collectionEvent symbol])
      ∧ match res with
        | Throw m => queryLatest env symbol w = (Throw m, w')
        | Ok r =>
            error r = None
            ∧ if hasDocuments r
              then queryLatest env symbol w = (Ok r, w')
              else trace w' = trace w ++ [collectionEvent symbol]
        end).
  { unfold PlainServer.queryLatest. unfold bind at 1.
    rewrite findDocuments_latest.
    destruct (latestOf (partition w symbol)) as [|doc docs] eqn:E.
    - eexists _, _. split; [reflexivity|]. simpl.
      split_and!; try done. by right.
    - assert (Hne : partition w symbol ≠ [])
        by (intros H; apply latestOf_nil in H; by rewrite H in E).
      eexists _, _. split; [reflexivity|]. simpl.
      split_and!; try done; [by right|].
      rewrite queryLatest_hit by done. by rewrite E. }
  destruct date as [d|]; simpl; [|exact Hlatest].
  destruct (Js.truthyString d) eqn:Htruthy; [|exact Hlatest].
  unfold PlainServer.queryDate. unfold bind at 1.
  destruct (Js.isEightDigits d) eqn:Hd.
  - rewrite formatStockDate_dashed by done.
    unfold bind at 1. rewrite findDocuments_date.
    destruct (onDate (dashed d) (partition w symbol)) as [|doc docs] eqn:E.
    + eexists _, _. split; [reflexivity|]. simpl.
      split_and!; try done. by right.
    + eexists _, _. split; [reflexivity|]. simpl.
      split_and!; try done; [by right|].
      pose proof (queryDate_hit env symbol d w doc docs Hd E) as Hhit.
      unfold processGetStockPrices in Hhit. rewrite Htruthy in Hhit.
      exact Hhit.
  - rewrite formatStockDate_invalid by done.
    eexists _, _. split; [reflexivity|]. simpl. split_and!; try done; [by left|].
    unfold queryDate. unfold bind at 1. by rewrite formatStockDate_invalid.
Qed.

(** ** The connection to the store *)

Section ConnectionFacts.

Import Connection.

Lemma connect_uri (d : Deployment) (st st' : State) (client : MongoClient) :
  connect d st = (Ok client, st') →
  ∃ cs, MONGODB_CONNECTION_STRING d = Some cs
        ∧ cs ≠ EmptyString
        ∧ uri client
          = (if startsWith "mongodb://" cs || startsWith "mongodb+srv://" cs
             then cs else "mongodb://" +:+ cs)
        ∧ dial d (uri client) = None
        ∧ serial client = built st
        ∧ st' = {| globalClient := Some client; built := S (built st) |}.
Proof.
  unfold connect. destruct (MONGODB_CONNECTION_STRING d) as [cs|]; [|discriminate].
  destruct (Js.truthyString cs) eqn:Hcs; simpl; [|discriminate].
  match goal with
  | |- context [dial d ?u] => destruct (dial d u) as [msg|] eqn:Hdial
  end; [discriminate|].
  intros [= <- <-]. exists cs. split_and!; try done.
  - intros ->. discriminate Hcs.
  - simpl. by destruct (startsWith "mongodb://" cs),
                       (startsWith "mongodb+srv://" cs).
Qed.

End ConnectionFacts.

(** X15. The address [connect] dials.  A client that [connect] returns was
    dialled at an address that starts with [mongodb://] or
    [mongodb+srv://]: the value of [MONGODB_CONNECTION_STRING] itself, as it
    is, when it starts with one of the two, and that value behind
    [mongodb://] when it starts with neither; the variable was set and not
    empty, and the client is the one the module now holds.  When [connect]
    throws, the module keeps the client it held: either the variable is not
    set or is empty, and nothing was dialled, or the dial at that address
    failed and its message follows [Failed to connect to MongoDB: ]. *)
Theorem connect_dials_mongodb (d : Connection.Deployment) (st : Connection.State) :
  let address cs :=
    if Connection.startsWith "mongodb://" cs
       || Connection.startsWith "mongodb+srv://" cs
    then cs else "mongodb://" +:+ cs in
  match Connection.connect d st with
  | (Ok client, st') =>
      Connection.globalClient st' = Some client
      ∧ (Connection.startsWith "mongodb://" (Connection.uri client)
         || Connection.startsWith "mongodb+srv://" (Connection.uri client)) = true
      ∧ Connection.dial d (Connection.uri client) = None
      ∧ ∃ cs, Connection.MONGODB_CONNECTION_STRING d = Some cs
              ∧ cs ≠ EmptyString
              ∧ Connection.uri client = address cs
              ∧ (Connection.startsWith "mongodb://" cs = true
                 ∨ Connection.startsWith "mongodb+srv://" cs = true →
                 Connection.uri client = cs)
              ∧ (Connection.startsWith "mongodb://" cs = false →
                 Connection.startsWith "mongodb+srv://" cs = false →
                 Connection.uri client = "mongodb://" +:+ cs)
  | (Throw m, st') =>
      Connection.globalClient st' = Connection.globalClient st
      ∧ ((m = "MONGODB_CONNECTION_STRING environment variable is not defined"
          ∧ st' = st
          ∧ (Connection.MONGODB_CONNECTION_STRING d = None
             ∨ Connection.MONGODB_CONNECTION_STRING d = Some EmptyString))
         ∨ ∃ cs message,
             Connection.MONGODB_CONNECTION_STRING d = Some cs
             ∧ cs ≠ EmptyString
             ∧ Connection.dial d (address cs) = Some message
             ∧ m = "Failed to connect to MongoDB: " +:+ message)
  end.
Proof.
  intros address.
  destruct (Connection.connect d st) as [[client|m] st'] eqn:Hrun.
  - destruct (connect_uri d st st' client Hrun)
      as (cs & Hvar & Hne & Huri & Hdial & _ & ->).
    split_and!; [done | | done |].
    + rewrite Huri.
      destruct (Connection.startsWith "mongodb://" cs) eqn:E1; simpl;
        [by rewrite E1|].
      destruct (Connection.startsWith "mongodb+srv://" cs) eqn:E2; simpl.
      * rewrite E2. apply orb_true_r.
      * clear. by destruct cs.
    + exists cs. split_and!; [done | done | exact Huri | |].
      * rewrite Huri. intros [-> | ->]; [done|]. by rewrite orb_true_r.
      * rewrite Huri. by intros -> ->.
  - unfold Connection.connect in Hrun.
    destruct (Connection.MONGODB_CONNECTION_STRING d) as [cs|] eqn:Hvar.
    2:{ injection Hrun as <- <-. split; [done|]. left. split_and!; [done | done | by left]. }
    destruct (Js.truthyString cs) eqn:Hcs; simpl in Hrun.
    2:{ injection Hrun as <- <-. split; [done|]. left. split_and!; [done | done |].
        right. destruct cs; [done | discriminate Hcs]. }
    assert (Haddr : (if negb (Connection.startsWith "mongodb://" cs)
                        && negb (Connection.startsWith "mongodb+srv://" cs)
                     then "mongodb://" +:+ cs else cs) = address cs).
    { unfold address. by destruct (Connection.startsWith "mongodb://" cs),
                                  (Connection.startsWith "mongodb+srv://" cs). }
    rewrite Haddr in Hrun.
    destruct (Connection.dial d (address cs)) as [message|] eqn:Hdial;
      [|discriminate].
    injection Hrun as <- <-. split; [done|]. right. exists cs, message.
    split_and!; try done. intros ->. discriminate Hcs.
Qed.

(** X16. [disconnect] forgets the current client only.  When two clients
    have been connected one after the other, closing the first leaves the
    module holding the second, and closing the second leaves it holding
    none; a [close] that throws leaves the module as it was. *)
Theorem disconnect_forgets_current (d : Connection.Deployment)
    (st st1 st2 : Connection.State) (first second : Connection.MongoClient) :
  Connection.connect d st = (Ok first, st1) →
  Connection.connect d st1 = (Ok second, st2) →
  Connection.globalClient st2 = Some second
  ∧ Connection.sameObject first second = false
  ∧ (∀ res st3, Connection.disconnect d first st2 = (res, st3) →
                Connection.globalClient st3 = Some second)
  ∧ (∀ st3, Connection.disconnect d second st2 = (Ok tt, st3) →
            Connection.globalClient st3 = None)
  ∧ (∀ client m st3, Connection.disconnect d client st2 = (Throw m, st3) →
                     st3 = st2).
Proof.
  intros H1 H2.
  destruct (connect_uri d st st1 first H1) as (_ & _ & _ & _ & _ & Hs1 & ->).
  destruct (connect_uri d _ st2 second H2) as (_ & _ & _ & _ & _ & Hs2 & ->).
  simpl in Hs2.
  assert (Hdiff : Connection.sameObject first second = false).
  { unfold Connection.sameObject. apply Nat.eqb_neq. lia. }
  split_and!; [done | done | | |].
  - intros res st3. unfold Connection.disconnect.
    destruct (Connection.close d (Connection.serial first)); intros [= <- <-];
      [done|].
    simpl. unfold Connection.sameObject in *.
    rewrite Nat.eqb_sym, Hdiff. done.
  - intros st3. unfold Connection.disconnect.
    destruct (Connection.close d (Connection.serial second)); intros [= <-].
    simpl. unfold Connection.sameObject. by rewrite Nat.eqb_refl.
  - intros client m st3. unfold Connection.disconnect.
    by destruct (Connection.close d (Connection.serial client)); intros [= <- <-].
Qed.

Lemma disconnect_forgets_current_witness :
  ∃ first second st2,
    Connection.connect
      {| Connection.MONGODB_CONNECTION_STRING := Some "localhost:27017";
         Connection.dial := fun _ => None;
         Connection.close := fun _ => None |}
      Connection.start
    = (Ok first, {| Connection.globalClient := Some first; Connection.built := 1 |})
    ∧ Connection.uri second = "mongodb://localhost:27017"
    ∧ Connection.globalClient st2 = Some second
    ∧ Connection.sameObject first second = false.
Proof.
  set (d := {| Connection.MONGODB_CONNECTION_STRING := Some "localhost:27017";
               Connection.dial := fun _ => None;
               Connection.close := fun _ => None |}).
  destruct (disconnect_forgets_current d Connection.start
              {| Connection.globalClient :=
                   Some {| Connection.serial := 0;
                           Connection.uri := "mongodb://localhost:27017" |};
                 Connection.built := 1 |}
              {| Connection.globalClient :=
                   Some {| Connection.serial := 1;
                           Connection.uri := "mongodb://localhost:27017" |};
                 Connection.built := 2 |}
              {| Connection.serial := 0; Connection.uri := "mongodb://localhost:27017" |}
              {| Connection.serial := 1; Connection.uri := "mongodb://localhost:27017" |}
              eq_refl eq_refl)
    as (Hg & Hdiff & _).
  exists {| Connection.serial := 0; Connection.uri := "mongodb://localhost:27017" |},
         {| Connection.serial := 1; Connection.uri := "mongodb://localhost:27017" |},
         {| Connection.globalClient :=
              Some {| Connection.serial := 1;
                      Connection.uri := "mongodb://localhost:27017" |};
            Connection.built := 2 |}.
  split; [reflexivity|]. split; [reflexivity|].
  split; [exact Hg | exact Hdiff].
Defined.


(** ** The keys of the pool *)

Section CleanKeys.

#[local] Abbreviation chars := list_ascii_of_string.

Lemma chars_rev_app (s t : string) :
  chars (String.rev_app s t) = rev (chars s) ++ chars t.
Proof.
  revert t. induction s as [|c s IH]; intros t; [done|].
  simpl. rewrite IH. simpl. by rewrite <- app_assoc.
Qed.

Lemma chars_rev (s : string) : chars (String.rev s) = rev (chars s).
Proof. unfold String.rev. rewrite chars_rev_app. simpl. by rewrite app_nil_r. Qed.

(** [trimStart] removes white space from the front, and stops at the first
    character that is not white space. *)
Lemma trimStart_spec (s : string) :
  ∃ ws, chars s = ws ++ chars (Js.trimStart s)
        ∧ match chars (Js.trimStart s) with
          | [] => True
          | c :: _ => Js.isWhiteSpace c = false
          end.
Proof.
  induction s as [|c s (ws & IH1 & IH2)]; [by exists []|].
  simpl. destruct (Js.isWhiteSpace c) eqn:E.
  - exists (c :: ws). simpl. by rewrite <- IH1.
  - exists []. simpl. done.
Qed.

(** The characters of [trim s] lie in the middle of [s], and both ends of
    them are not white space. *)
Lemma trim_spec (s : string) :
  ∃ ws1 ws2, chars s = ws1 ++ chars (Js.trim s) ++ ws2
             ∧ match chars (Js.trim s) with
               | [] => True
               | c :: rest =>
                   Js.isWhiteSpace c = false
                   ∧ Js.isWhiteSpace (List.last (c :: rest) c) = false
               end.
Proof.
  unfold Js.trim, Js.trimEnd.
  destruct (trimStart_spec s) as (ws1 & H1 & Hfirst).
  set (x := Js.trimStart s) in *.
  destruct (trimStart_spec (String.rev x)) as (ws2 & H2 & Hlast).
  set (y := Js.trimStart (String.rev x)) in *.
  rewrite chars_rev in H2.
  assert (Hx : chars x = rev (chars y) ++ rev ws2).
  { rewrite <- (rev_involutive (chars x)), H2, rev_app_distr. done. }
  exists ws1, (rev ws2). rewrite chars_rev. split; [by rewrite H1, Hx|].
  destruct (chars y) as [|c l] eqn:Ey; [done|].
  change (rev (c :: l)) with (rev l ++ [c]) in *.
  destruct (rev l ++ [c]) as [|a rest] eqn:E.
  { by destruct (rev l). }
  rewrite <- E. split.
  - rewrite Hx in Hfirst. rewrite ?E in Hfirst. exact Hfirst.
  - rewrite last_last. exact Hlast.
Qed.

Lemma split_pieces (sep : ascii) (s piece : string) :
  In piece (Js.split sep s) → ¬ In sep (chars piece).
Proof.
  revert piece. induction s as [|c s IH]; intros piece; simpl.
  - intros [<-|[]]. simpl. tauto.
  - destruct (Ascii.eqb c sep) eqn:E.
    + intros [<-|H]; [simpl; tauto | by apply IH].
    + destruct (Js.split sep s) as [|h t] eqn:Es.
      * intros [<-|[]]. simpl. intros [->|[]]. by rewrite Ascii.eqb_refl in E.
      * intros [<-|H].
        -- simpl. intros [->|H]; [by rewrite Ascii.eqb_refl in E|].
           apply (IH h); [by left | done].
        -- apply IH. by right.
Qed.

Lemma parseKeylist_clean (content : string) :
  Forall (fun k => isClean k = true) (parseKeylist content).
Proof.
  apply Forall_forall. intros k Hk. apply list_elem_of_In in Hk.
  apply parseKeylist_In in Hk as (Hne & line & Hline & ->).
  destruct (trim_spec line) as (ws1 & ws2 & Hmid & Hends).
  unfold isClean. destruct (chars (Js.trim line)) as [|c rest] eqn:E.
  { destruct (Js.trim line); [done | discriminate E]. }
  destruct Hends as [-> ->]. simpl negb. rewrite !andb_true_l.
  apply forallb_forall. intros a Ha. apply negb_true_iff, Ascii.eqb_neq.
  intros ->. apply (split_pieces LF content line Hline).
  rewrite Hmid. apply in_or_app. right. apply in_or_app. by left.
Qed.

Lemma getKey_unloaded (env : Env) (w : World) :
  apiKeys w = [] →
  ∃ res w', getKey env w = (res, w')
            ∧ (apiKeys w' = usableKeys (keylist env))
            ∧ (∀ key, res = Ok key →
                 key = keyAt (apiKeys w') (currentKeyIndex w)).
Proof.
  intros Hnil. unfold getKey, loadKeys, readText. unfold_M. rewrite Hnil. simpl.
  destruct (keylist env) as [msg|content]; simpl.
  - destruct (Js.includes "No such file" msg); eexists _, _;
      (split; [reflexivity|]); simpl; (split; [done | intros; discriminate]).
  - destruct (parseKeylist content) as [|k ks] eqn:P; simpl;
      eexists _, _; (split; [reflexivity|]); simpl;
      (split; [done|]); [intros; discriminate|].
    by intros key [= <-].
Qed.

End CleanKeys.

(** X17. The keys of the pool are clean.  Every key that the pool holds
    after a call of [getKey], and so every key that [getKey] hands out for
    a request, is not empty, has no white space at either end and holds no
    line feed: this is true of the pool just loaded from any key file, and
    it stays true from call to call. *)
Theorem getKey_hands_out_clean_keys (env : Env) (w w' : World)
    (res : Result string) :
  cursorInRange w →
  cleanPool w →
  getKey env w = (res, w') →
  cleanPool w' ∧ (∀ key, res = Ok key → isClean key = true).
Proof.
  intros Hcur Hclean Hrun. destruct (apiKeys w) as [|k0 ks0] eqn:E.
  - destruct (getKey_unloaded env w E) as (res' & w'' & Hrun' & Hkeys & Hkey).
    rewrite Hrun in Hrun'. injection Hrun' as <- <-.
    assert (Hpool : cleanPool w').
    { unfold cleanPool. rewrite Hkeys. destruct (keylist env); simpl;
        [constructor | apply parseKeylist_clean]. }
    split; [done|]. intros key Hres.
    pose proof (getKey_outcome env w) as (r1 & w1 & Hrun1 & _ & _ & _ & Hne).
    rewrite Hrun in Hrun1. injection Hrun1 as <- <-.
    specialize (Hne key Hres). rewrite (Hkey key Hres).
    destruct Hcur as [[_ Hzero]|Hlt]; [|rewrite E in Hlt; simpl in Hlt; lia].
    rewrite Hzero. unfold cleanPool in Hpool.
    destruct (apiKeys w') as [|k ks]; [done|].
    by apply Forall_cons in Hpool as [Hk _].
  - rewrite getKey_loaded in Hrun by (rewrite E; discriminate).
    injection Hrun as <- <-. split; [exact Hclean|].
    intros key [= <-]. destruct Hcur as [[Hnil _]|Hlt]; [by rewrite Hnil in E|].
    unfold cleanPool in Hclean. rewrite Forall_forall in Hclean.
    apply Hclean. unfold keyAt.
    destruct (apiKeys w !! currentKeyIndex w) as [k|] eqn:Hk.
    + simpl. by apply (list_elem_of_lookup_2 _ (currentKeyIndex w)).
    + apply lookup_ge_None in Hk. lia.
Qed.

Lemma getKey_hands_out_clean_keys_witness :
  ∃ w', getKey (offline (fileOf ["  K1 "; EmptyString; "K2"])) initialWorld
        = (Ok "K1", w')
        ∧ apiKeys w' = ["K1"; "K2"]
        ∧ isClean "K1" = true.
Proof.
  set (env := offline (fileOf ["  K1 "; EmptyString; "K2"])).
  destruct (getKey env initialWorld) as [res w'] eqn:Hrun.
  assert (Hpool : cleanPool initialWorld) by constructor.
  destruct (getKey_hands_out_clean_keys env initialWorld w' res
              initialWorld_cursorInRange Hpool Hrun) as [_ Hkey].
  vm_compute in Hrun. injection Hrun as <- <-.
  eexists. split; [reflexivity|]. split; [reflexivity|].
  exact (Hkey "K1" eq_refl).
Defined.

(** ** The window of the news query *)

Section NewsWindow.

Lemma leb_bounds (a b x y : string) :
  String.length a = String.length b →
  String.leb a b = true →
  String.leb x y = true →
  String.leb (a +:+ x) (b +:+ y) = true.
Proof.
  unfold String.leb. intros Hlen Hab Hxy. rewrite compare_append by done.
  destruct (String.compare a b); [done | done | discriminate].
Qed.

Lemma leb_bounds_reversed (a b x y : string) :
  String.length a = String.length b →
  String.leb a b = false →
  String.leb (a +:+ x) (b +:+ y) = false.
Proof.
  unfold String.leb. intros Hlen Hab. rewrite compare_append by done.
  destruct (String.compare a b); [discriminate | discriminate | done].
Qed.

Lemma inRange_wider (from to from' to' : string) (a : NewsItem) :
  String.length from' = String.length from →
  String.length to = String.length to' →
  String.leb from' from = true →
  String.leb to to' = true →
  inRange from to a = true → inRange from' to' a = true.
Proof.
  unfold inRange. rewrite !andb_true_iff. intros Hl1 Hl2 H1 H2 [Ha Hb]. split.
  - apply (leb_trans _ (from +:+ "T0000")); [|done]. by apply leb_bounds.
  - apply (leb_trans _ (to +:+ "T2359")); [done|]. by apply leb_bounds.
Qed.

Lemma inRange_reversed (from to : string) (a : NewsItem) :
  String.length from = String.length to →
  String.leb from to = false →
  inRange from to a = false.
Proof.
  intros Hlen Hrev. apply not_true_is_false. unfold inRange.
  rewrite andb_true_iff. intros [Ha Hb].
  pose proof (leb_trans _ _ _ Ha Hb) as H.
  by rewrite (leb_bounds_reversed from to "T0000" "T2359") in H.
Qed.

Lemma filter_length_le {A} (p q : A → bool) (l : list A) :
  (∀ x, p x = true → q x = true) →
  length (List.filter p l) ≤ length (List.filter q l).
Proof.
  intros Hpq. induction l as [|x l IH]; [done|]. simpl.
  destruct (p x) eqn:Ep.
  - rewrite (Hpq x Ep). simpl. lia.
  - destruct (q x); simpl; lia.
Qed.

Lemma filter_none {A} (p : A → bool) (l : list A) :
  (∀ x, p x = false) → List.filter p l = [].
Proof.
  intros Hp. induction l as [|x l IH]; [done|]. simpl. by rewrite Hp, IH.
Qed.

Lemma selected_length_le (env : Env) (from to from' to' : string)
    (keyword : option string) (articles : list NewsItem) :
  (∀ a, inRange from to a = true → inRange from' to' a = true) →
  length (selected env from to keyword articles)
  ≤ length (selected env from' to' keyword articles)
  ∧ length (selected env from to keyword articles)
    ≤ length (selected env from to None articles).
Proof.
  intros Hwide. unfold selected. simpl.
  destruct (keywordFilter keyword) as [[k o]|]; split;
    apply filter_length_le; intros a; rewrite ?andb_true_iff;
    try tauto; try (intros [H1 H2]; auto).
  apply Hwide.
Qed.

End NewsWindow.

(** X18. The window of the news query.  For dates of eight digits and a
    keyword that the store does not refuse as a regular expression, a query
    over a wider range with the same keyword returns every article of the
    narrower one, and so does the query over the same range without the
    keyword: widening the range or dropping the keyword never loses an
    article.  A range whose first date is after its last one is not an
    error: the query returns no article.  With a keyword that the store
    refuses, the narrow and the wide query throw the same error. *)
Theorem processGetNews_window (env : Env) (from to from' to' : string)
    (keyword : option string) (w : World) :
  Js.isEightDigits from = true →
  Js.isEightDigits to = true →
  Js.isEightDigits from' = true →
  Js.isEightDigits to' = true →
  String.leb from' from = true →
  String.leb to to' = true →
  (rejection env keyword = None →
   ∃ narrow wide plain,
     processGetNews env from to keyword w
     = (Ok narrow, logged (Find "finance" "news") w)
     ∧ processGetNews env from' to' keyword w
       = (Ok wide, logged (Find "finance" "news") w)
     ∧ processGetNews env from to None w
       = (Ok plain, logged (Find "finance" "news") w)
     ∧ (∀ a, In a (newsData narrow) → In a (newsData wide) ∧ In a (newsData plain))
     ∧ count narrow ≤ count wide
     ∧ count narrow ≤ count plain
     ∧ (String.leb from to = false → count narrow = 0 ∧ newsData narrow = []))
  ∧ (∀ message, rejection env keyword = Some message →
       processGetNews env from to keyword w
       = (Throw message, logged (Find "finance" "news") w)
       ∧ processGetNews env from' to' keyword w
         = (Throw message, logged (Find "finance" "news") w)).
Proof.
  intros Hf Ht Hf' Ht' Hfrom Hto. split.
  2:{ intros message Hrej. split; by apply processGetNews_refused. }
  intros Hacc.
  destruct (processGetNews_run env from to keyword w Hf Ht Hacc) as (m1 & H1).
  destruct (processGetNews_run env from' to' keyword w Hf' Ht' Hacc) as (m2 & H2).
  destruct (processGetNews_run env from to None w Hf Ht eq_refl) as (m3 & H3).
  apply isEightDigits_true in Hf as [Lf _], Ht as [Lt _],
                              Hf' as [Lf' _], Ht' as [Lt' _].
  assert (Hwide : ∀ a, inRange from to a = true → inRange from' to' a = true).
  { intros a. apply inRange_wider; congruence. }
  eexists _, _, _. split; [exact H1|]. split; [exact H2|]. split; [exact H3|].
  simpl. split_and!.
  - intros a. rewrite !selected_In. simpl. intros (Hin & Hr & Hk).
    split; [split_and!; auto | by split_and!].
  - by apply selected_length_le.
  - by apply (selected_length_le env from to from' to').
  - intros Hrev.
    assert (E : selected env from to keyword (news w) = []).
    { unfold selected. destruct (keywordFilter keyword) as [[k o]|];
        apply filter_none; intros a;
        rewrite inRange_reversed; (done || congruence). }
    by rewrite E.
Qed.

Lemma processGetNews_window_witness :
  ∃ narrow wide,
    processGetNews plainStore "20251222" "20251222" (Some "trading") newsroom
    = (Ok narrow, logged (Find "finance" "news") newsroom)
    ∧ processGetNews plainStore "20251221" "20251223" (Some "trading") newsroom
      = (Ok wide, logged (Find "finance" "news") newsroom)
    ∧ count narrow ≤ count wide.
Proof.
  destruct (processGetNews_window plainStore "20251222" "20251222" "20251221"
              "20251223" (Some "trading") newsroom
              eq_refl eq_refl eq_refl eq_refl eq_refl eq_refl) as [Hacc _].
  destruct (Hacc eq_refl) as (narrow & wide & plain & H1 & H2 & _ & _ & Hle & _).
  exists narrow, wide. split; [exact H1|]. split; [exact H2 | exact Hle].
Defined.

(** ** One pull of news, step by step *)

Section NewsPull.

Context (env : Env).
Context (upsertNews : Value → list (string * NewsField) → M bool).

Lemma storeItem_not_null (n : nat) (item : Json) (w : World) :
  item ≠ JNull →
  storeItem env upsertNews n item w
  = (upsertNews (fst (upsertOf item)) (snd (upsertOf item)) ;; ret (n + 1)) w.
Proof.
  intros Hitem. unfold storeItem. unfold bind.
  rewrite !getProp_not_null by done. reflexivity.
Qed.

Lemma storeItem_null (n : nat) (w : World) :
  storeItem env upsertNews n JNull w
  = (Throw (nullReadMessage env "item" "title"), w).
Proof. reflexivity. Qed.

Lemma forEach_storeItem (items : list Json) :
  ∀ (n : nat) (w : World),
    Forall (fun item => item ≠ JNull) items →
    forEach items n (storeItem env upsertNews) w
    = (upsertEach upsertNews (map upsertOf items) ;; ret (n + length items)) w.
Proof.
  induction items as [|item items IH]; intros n w Hall.
  - simpl. unfold upsertEach, bind, ret. simpl. by rewrite Nat.add_0_r.
  - inversion Hall as [|? ? Hitem Hrest]; subst. cbn [forEach map].
    unfold bind at 1. rewrite storeItem_not_null by done.
    unfold upsertEach in *. cbn [forEach]. unfold bind, ret in *.
    destruct (upsertNews (fst (upsertOf item)) (snd (upsertOf item)) w)
      as [[b|m] w']; [|done].
    rewrite IH by done.
    destruct (forEach (map upsertOf items) () _ w') as [[[]|m] w'']; [|done].
    simpl. do 2 f_equal. lia.
Qed.

Lemma forEach_storeItem_null (pre post : list Json) :
  ∀ (n : nat) (w : World),
    Forall (fun item => item ≠ JNull) pre →
    forEach (pre ++ JNull :: post) n (storeItem env upsertNews) w
    = (upsertEach upsertNews (map upsertOf pre) ;;
       throw (nullReadMessage env "item" "title")) w.
Proof.
  induction pre as [|item pre IH]; intros n w Hall.
  - reflexivity.
  - inversion Hall as [|? ? Hitem Hrest]; subst. cbn [forEach map app].
    unfold bind at 1. rewrite storeItem_not_null by done.
    unfold upsertEach in *. cbn [forEach]. unfold bind, ret in *.
    destruct (upsertNews (fst (upsertOf item)) (snd (upsertOf item)) w)
      as [[b|m] w']; [|done].
    by rewrite IH.
Qed.

Lemma pullNews_without_key (from to : string) (w w1 : World) (m : string) :
  getKey env w = (Throw m, w1) →
  pullNews env upsertNews from to w = (Throw m, w1).
Proof. intros Hkey. unfold pullNews. unfold bind at 1. by rewrite Hkey. Qed.

End NewsPull.

Lemma items_null_or_not (items : list Json) :
  Forall (fun item => item ≠ JNull) items
  ∨ ∃ pre post, items = pre ++ JNull :: post
                ∧ Forall (fun item => item ≠ JNull) pre.
Proof.
  induction items as [|v items IH]; [by left|].
  assert (Hv : v = JNull ∨ v ≠ JNull) by (destruct v; (by left) || (by right)).
  destruct Hv as [->|Hv].
  - right. exists [], items. by split.
  - destruct IH as [IH|(pre & post & -> & Hpre)].
    + left. by constructor.
    + right. exists (v :: pre), post. split; [done|]. by constructor.
Qed.

(** Once it holds a key, a pull of news sends the request, and then fails
    before the loop or runs the loop over the feed and pauses. *)
Lemma pullNews_shape (env : Env)
    (upsertNews : Value → list (string * NewsField) → M bool)
    (from to : string) (w w1 : World) (key : string) :
  getKey env w = (Ok key, w1) →
  pullNews env upsertNews from to w
  = match feedOf env (newsUrl key from to) with
    | Throw m => (Throw m, logged (HttpGet (newsUrl key from to)) w1)
    | Ok items =>
        (count <- forEach items 0 (storeItem env upsertNews) ;;
         waitAfterApiCall ;;
         ret count) (logged (HttpGet (newsUrl key from to)) w1)
    end.
Proof.
  intros Hkey. unfold pullNews, feedOf. unfold bind at 1. rewrite Hkey.
  unfold bind at 1. unfold tryCatch at 1, fetch. unfold_M. simpl.
  destruct (remote env (newsUrl key from to)) as [msg|r] eqn:Hremote; simpl;
    [done|].
  destruct (ok r) eqn:Hok; simpl; [|done].
  unfold json. destruct (body r) as [msg|data] eqn:Hbody; simpl; [done|].
  assert (Hnull : data = JNull ∨ data ≠ JNull)
    by (destruct data; (by left) || (by right)).
  destruct Hnull as [->|Hdata]; [done|].
  rewrite !getProp_not_null by done.
  assert (Herr : (if JsValue.truthy (readProp data "Error")
                  then ret (readProp data "Error")
                  else getProp env "data" data "Error Message")
                   (logged (HttpGet (newsUrl key from to)) w1)
                 = (Ok (apiError data), logged (HttpGet (newsUrl key from to)) w1)).
  { unfold apiError, JsValue.orElse.
    destruct (JsValue.truthy (readProp data "Error")); [done|].
    by rewrite getProp_not_null. }
  unfold ret in Herr. rewrite Herr. clear Herr.
  assert (Hcase :
    match data with
    | JNull => Throw (nullReadMessage env "data" "Error")
    | _ =>
        if JsValue.truthy (apiError data) then
          Throw ("Alpha Vantage API error: " +:+ JsValue.toString (apiError data))
        else
          match readProp data "feed" with
          | Some (JArr items) => Ok items
          | _ => Throw "Invalid API response: missing or invalid 'feed' field"
          end
    end
    = if JsValue.truthy (apiError data) then
        Throw ("Alpha Vantage API error: " +:+ JsValue.toString (apiError data))
      else
        match readProp data "feed" with
        | Some (JArr items) => Ok items
        | _ => Throw "Invalid API response: missing or invalid 'feed' field"
        end) by (by destruct data).
  rewrite Hcase. clear Hcase.
  destruct (JsValue.truthy (apiError data)) eqn:Eerr; simpl; [done|].
  rewrite getProp_not_null by done.
  by destruct (readProp data "feed") as [[| | | |items|]|].
Qed.

Lemma feedOf_answers (env : Env) (url : string) (items : list Json) :
  feedOf env url = Ok items ↔ newsAnswers env url items.
Proof.
  unfold feedOf, newsAnswers. split.
  - destruct (remote env url) as [msg|r]; [discriminate|].
    destruct (ok r) eqn:Hok; simpl; [|discriminate].
    destruct (body r) as [msg|data] eqn:Hbody; [discriminate|].
    intros H. exists r, data.
    assert (Hdata : data ≠ JNull) by (by intros ->).
    assert (H' : (if JsValue.truthy (apiError data)
                  then Throw ("Alpha Vantage API error: "
                              +:+ JsValue.toString (apiError data))
                  else match readProp data "feed" with
                       | Some (JArr items) => Ok items
                       | _ => Throw "Invalid API response: missing or invalid 'feed' field"
                       end) = Ok items) by (by destruct data).
    clear H. destruct (JsValue.truthy (apiError data)); [discriminate|].
    destruct (readProp data "feed") as [[| | | |l|]|]; try discriminate.
    injection H' as ->. by split_and!.
  - intros (r & data & -> & -> & -> & Hdata & -> & ->). simpl.
    by destruct data.
Qed.

(** X19. A pull of news that fails before its loop leaves the store alone
    and does not pause.  Once [getKey] has handed out a key, [pullNews]
    sends one request, to the address made of the key and of the two
    bounds.  Then either the answer carries a feed, and the run is the loop
    over the feed followed by the pause; or the call throws, with the same
    message and the same world whatever the store is: nothing was upserted
    and no pause was made, the request being the last event. *)
Theorem pullNews_fails_before_storing (env : Env) (from to : string)
    (w w1 : World) (key : string) :
  getKey env w = (Ok key, w1) →
  let url := newsUrl key from to in
  (∃ m, ∀ upsertNews,
      pullNews env upsertNews from to w = (Throw m, logged (HttpGet url) w1))
  ∨ (∃ items,
       newsAnswers env url items
       ∧ ∀ upsertNews,
           pullNews env upsertNews from to w
           = (count <- forEach items 0 (storeItem env upsertNews) ;;
              waitAfterApiCall ;;
              ret count) (logged (HttpGet url) w1)).
Proof.
  intros Hkey url. destruct (feedOf env url) as [items|m] eqn:Hfeed.
  - right. exists items. split; [by apply feedOf_answers|].
    intros upsertNews. rewrite (pullNews_shape env upsertNews from to w w1 key Hkey).
    fold url. by rewrite Hfeed.
  - left. exists m. intros upsertNews.
    rewrite (pullNews_shape env upsertNews from to w w1 key Hkey).
    fold url. by rewrite Hfeed.
Qed.

Lemma pullNews_fails_before_storing_witness :
  pullNews (offline (fileOf ["K1"])) notingUpsert "20251221T0000" "20251222T2359"
    initialWorld
  = (Throw "Failed to fetch news data: Unable to connect",
     {| apiKeys := ["K1"]; currentKeyIndex := 0; stocks := ∅; news := [];
        trace := [ReadFile ".keylist";
                  HttpGet (newsUrl "K1" "20251221T0000" "20251222T2359")] |}).
Proof.
  destruct (pullNews_fails_before_storing (offline (fileOf ["K1"]))
              "20251221T0000" "20251222T2359" initialWorld
              {| apiKeys := ["K1"]; currentKeyIndex := 0; stocks := ∅; news := [];
                 trace := [ReadFile ".keylist"] |}
              "K1" eq_refl) as [(m & Hrun) | (items & Hans & _)].
  - rewrite (Hrun notingUpsert).
    specialize (Hrun notingUpsert). vm_compute in Hrun.
    injection Hrun as <-. reflexivity.
  - exfalso. destruct Hans as (r & data & Hremote & _). discriminate Hremote.
Defined.

(** X20. A pull of news counts the items of the feed.  When the answer
    carries a feed none of whose items is [null], [pullNews] hands the store
    one upsert per item, in the order of the feed, each with the
    [time_published] of the item as filter and the document built from the
    item; then it pauses.  When it returns, the count is the number of items
    of the feed, whatever the store did with them: two items with the same
    [time_published] count twice though they share their filter. *)
Theorem pullNews_counts_feed_items (env : Env)
    (upsertNews : Value → list (string * NewsField) → M bool)
    (from to : string) (w w1 : World) (key : string) (items : list Json) :
  getKey env w = (Ok key, w1) →
  newsAnswers env (newsUrl key from to) items →
  Forall (fun item => item ≠ JNull) items →
  pullNews env upsertNews from to w
  = (upsertEach upsertNews (map upsertOf items) ;;
     waitAfterApiCall ;;
     ret (length items)) (logged (HttpGet (newsUrl key from to)) w1)
  ∧ (∀ n w', pullNews env upsertNews from to w = (Ok n, w') →
             n = length items ∧ ∃ w2, w' = logged (Sleep 5000) w2).
Proof.
  intros Hkey Hans Hall.
  assert (Hrun : pullNews env upsertNews from to w
                 = (upsertEach upsertNews (map upsertOf items) ;;
                    waitAfterApiCall ;;
                    ret (length items)) (logged (HttpGet (newsUrl key from to)) w1)).
  { rewrite (pullNews_shape env upsertNews from to w w1 key Hkey).
    apply feedOf_answers in Hans. rewrite Hans.
    unfold bind at 1. rewrite forEach_storeItem by done.
    unfold bind, waitAfterApiCall. unfold_M.
    by destruct (upsertEach upsertNews (map upsertOf items) _) as [[[]|m] w']. }
  split; [exact Hrun|]. intros n w'. rewrite Hrun. unfold bind, waitAfterApiCall.
  unfold_M.
  destruct (upsertEach upsertNews (map upsertOf items) _) as [[[]|m] w2];
    [|discriminate].
  intros [= <- <-]. split; [done | by exists w2].
Qed.

Lemma pullNews_counts_feed_items_witness :
  ∃ w', pullNews newsEnv notingUpsert "20251222T0000" "20251223T2359" initialWorld
        = (Ok 3, w')
        ∧ trace w' = [ReadFile ".keylist";
                      HttpGet (newsUrl "K1" "20251222T0000" "20251223T2359");
                      Invoke "upsertDocument" "20251222T101500";
                      Invoke "upsertDocument" "20251222T101500";
                      Invoke "upsertDocument" "20251223T090000";
                      Sleep 5000].
Proof.
  assert (Hans : newsAnswers newsEnv (newsUrl "K1" "20251222T0000" "20251223T2359")
                   scenarioFeed).
  { eexists _, _. split_and!; try reflexivity. discriminate. }
  assert (Hall : Forall (fun item => item ≠ JNull) scenarioFeed)
    by (repeat constructor; discriminate).
  destruct (pullNews_counts_feed_items newsEnv notingUpsert
              "20251222T0000" "20251223T2359" initialWorld
              {| apiKeys := ["K1"]; currentKeyIndex := 0; stocks := ∅; news := [];
                 trace := [ReadFile ".keylist"] |}
              "K1" scenarioFeed eq_refl Hans Hall) as [Hrun _].
  eexists. split; [rewrite Hrun; reflexivity | reflexivity].
Defined.

(** X21. A [null] in the feed stops a pull of news half way.  When an item
    of the feed is [null], [pullNews] upserts the items before it, in
    order, and then throws the error of the read of [item.title]: it never
    returns a count, and the upserts made so far are not undone. *)
Theorem pullNews_stops_at_null_item (env : Env)
    (upsertNews : Value → list (string * NewsField) → M bool)
    (from to : string) (w w1 : World) (key : string) (pre post : list Json) :
  getKey env w = (Ok key, w1) →
  newsAnswers env (newsUrl key from to) (pre ++ JNull :: post) →
  Forall (fun item => item ≠ JNull) pre →
  pullNews env upsertNews from to w
  = (upsertEach upsertNews (map upsertOf pre) ;;
     throw (nullReadMessage env "item" "title"))
      (logged (HttpGet (newsUrl key from to)) w1)
  ∧ (∀ res w', pullNews env upsertNews from to w = (res, w') →
               ∃ m, res = Throw m).
Proof.
  intros Hkey Hans Hall.
  assert (Hrun : pullNews env upsertNews from to w
                 = (upsertEach upsertNews (map upsertOf pre) ;;
                    throw (nullReadMessage env "item" "title"))
                     (logged (HttpGet (newsUrl key from to)) w1)).
  { rewrite (pullNews_shape env upsertNews from to w w1 key Hkey).
    apply feedOf_answers in Hans. rewrite Hans.
    unfold bind at 1. rewrite forEach_storeItem_null by done.
    unfold bind, throw.
    by destruct (upsertEach upsertNews (map upsertOf pre) _) as [[[]|m] w']. }
  split; [exact Hrun|]. intros res w'. rewrite Hrun. unfold bind, throw.
  destruct (upsertEach upsertNews (map upsertOf pre) _) as [[[]|m] w2];
    intros [= <- <-]; by eexists.
Qed.

Lemma pullNews_stops_at_null_item_witness :
  ∃ w', pullNews (answering (fileOf ["K1"])
                    (JObj [("feed", JArr [newsItem "20251222T101500" "First"; JNull;
                                          newsItem "20251223T090000" "Third"])]))
          notingUpsert "20251222T0000" "20251223T2359" initialWorld
        = (Throw "null is not an object", w')
        ∧ trace w' = [ReadFile ".keylist";
                      HttpGet (newsUrl "K1" "20251222T0000" "20251223T2359");
                      Invoke "upsertDocument" "20251222T101500"].
Proof.
  set (env := answering (fileOf ["K1"])
                (JObj [("feed", JArr [newsItem "20251222T101500" "First"; JNull;
                                      newsItem "20251223T090000" "Third"])])).
  assert (Hans : newsAnswers env (newsUrl "K1" "20251222T0000" "20251223T2359")
                   ([newsItem "20251222T101500" "First"] ++ JNull
                    :: [newsItem "20251223T090000" "Third"])).
  { eexists _, _. split_and!; try reflexivity. discriminate. }
  assert (Hall : Forall (fun item => item ≠ JNull) [newsItem "20251222T101500" "First"])
    by (repeat constructor; discriminate).
  destruct (pullNews_stops_at_null_item env notingUpsert
              "20251222T0000" "20251223T2359" initialWorld
              {| apiKeys := ["K1"]; currentKeyIndex := 0; stocks := ∅; news := [];
                 trace := [ReadFile ".keylist"] |}
              "K1" [newsItem "20251222T101500" "First"]
              [newsItem "20251223T090000" "Third"] eq_refl Hans Hall) as [Hrun _].
  eexists. split; [rewrite Hrun; reflexivity | reflexivity].
Defined.
